(** * download_samples.py: bounded-concurrency sample acquisition

    A shallow embedding of [src/download_samples.py]: the admission
    counters guarded by [download_count_lock], the feed paginator
    [fetch_and_process_hashes], the worker [process_hash_entry] with its
    helpers [get_download_link] and [download_file], and the script's
    main block.  Python integers are [Z]; [set] is [gset]; [dict] is
    [gmap]; network replies and the initial disk content are read from an
    environment record, and every outgoing request is appended to an
    event trace so that "no request was made" is a statement about
    the trace.

    Conventions.  A string stands for a Python [str] in UTF-8.  The
    configuration constants that a user edits or passes on the command line
    (API_KEY, --maximum-download, --threads) are fields of the environment;
    the script ships with [API_KEY = ""].  What the operating system may
    refuse (creating the download directory, opening or writing the
    destination file, removing it) is answered by the environment as well. *)

From stdpp Require Import gmap strings list pretty.
From Stdlib Require Import ZArith Lia Ascii.

Local Open Scope string_scope.
Local Open Scope Z_scope.
Set Warnings "-register-all".

(** ** Configuration constants (module level of the script) *)

Definition DOWNLOAD_DIR : string := "downloaded_samples".
Definition MAX_RETRIES : nat := 3.
Definition RETRY_DELAY : Z := 5000.   (* milliseconds *)

(** ** Decoded JSON values, as [response.json()] returns them *)

Inductive json : Type :=
| JNull
| JBool (b : bool)
| JNum (n : Z)
| JStr (s : string)
| JArr (items : list json)
| JObj (fields : list (string * json)).

(** Python exceptions that the modelled code can meet. *)
Inductive exn : Type :=
| TypeError
| KeyError
| AttributeError
| ValueError
| OSError.

Inductive result (A : Type) : Type :=
| Ok (a : A)
| Raise (e : exn).
Arguments Ok {A} a.
Arguments Raise {A} e.

(** ** The shared counters protected by [download_count_lock] *)

Record Counters : Type := mkCounters {
  downloaded_count : Z;
  pending_downloads_count : Z;
  failed_count : Z;
  should_stop : bool
}.

Definition set_downloaded (v : Z) (c : Counters) : Counters :=
  mkCounters v (pending_downloads_count c) (failed_count c) (should_stop c).
Definition set_pending (v : Z) (c : Counters) : Counters :=
  mkCounters (downloaded_count c) v (failed_count c) (should_stop c).
Definition set_failed (v : Z) (c : Counters) : Counters :=
  mkCounters (downloaded_count c) (pending_downloads_count c) v (should_stop c).
Definition set_stop (v : bool) (c : Counters) : Counters :=
  mkCounters (downloaded_count c) (pending_downloads_count c) (failed_count c) v.

Definition counters0 : Counters := mkCounters 0 0 0 false.

(** The body of the [with download_count_lock:] block of the submission
    loop (lines 384-401): one atomic decision.  The boolean is
    [submit_this_task]. *)
Definition try_admit (MAX_DOWNLOAD : option Z) (c : Counters) : Counters * bool :=
  if should_stop c then (c, false)
  else match MAX_DOWNLOAD with
       | Some m =>
           if m <=? downloaded_count c + pending_downloads_count c
           then (set_stop true c, false)
           else (set_pending (pending_downloads_count c + 1) c, true)
       | None => (set_pending (pending_downloads_count c + 1) c, true)
       end.

(** ** Python operations on decoded values *)

(** Lookup in the items of a decoded object; when a key occurs twice in the
    document the later value is the one the dict keeps. *)
Fixpoint obj_get (k : string) (fields : list (string * json)) : option json :=
  match fields with
  | [] => None
  | (k', v) :: rest =>
      match obj_get k rest with
      | Some x => Some x
      | None => if String.eqb k k' then Some v else None
      end
  end.

Definition is_substring (needle hay : string) : bool :=
  match String.index 0 needle hay with
  | Some _ => true
  | None => false
  end.

Definition is_str_equal (k : string) (v : json) : bool :=
  match v with
  | JStr s => String.eqb k s
  | _ => false
  end.

(** [k in v] for a string [k]: key test on a dict, element test on a list,
    substring test on a string, [TypeError] on anything else. *)
Definition py_contains (k : string) (v : json) : result bool :=
  match v with
  | JObj fields => Ok (bool_decide (is_Some (obj_get k fields)))
  | JArr items => Ok (existsb (is_str_equal k) items)
  | JStr s => Ok (is_substring k s)
  | JNull | JBool _ | JNum _ => Raise TypeError
  end.

(** [v[k]] for a string [k]. *)
Definition py_getitem (k : string) (v : json) : result json :=
  match v with
  | JObj fields =>
      match obj_get k fields with
      | Some x => Ok x
      | None => Raise KeyError
      end
  | _ => Raise TypeError
  end.

Definition isinstance_list (v : json) : bool :=
  match v with
  | JArr _ => true
  | _ => false
  end.

(** Truth value of a decoded value ([if v:]). *)
Definition py_truthy (v : json) : bool :=
  match v with
  | JNull => false
  | JBool b => b
  | JNum n => negb (n =? 0)
  | JStr s => negb (String.eqb s "")
  | JArr items => match items with [] => false | _ => true end
  | JObj fields => match fields with [] => false | _ => true end
  end.

(** [d.get(k)] as the code uses it for the keys 'download', 'sha1' and
    'md5' of a feed entry: a string, or nothing.  A value that is not a
    string acts as a missing one there: of 'download' only its truth value
    and [urlparse] are used, and [urlparse] raises on anything that is not a
    string, which the handler of lines 288-289 turns into the default name;
    'sha1' and 'md5' are read only after a falsy 'sha256', on the way to
    the early return of line 297, where they reach nothing but a log text. *)
Definition str_field (k : string) (fields : list (string * json)) : option string :=
  match obj_get k fields with
  | Some (JStr s) => Some s
  | _ => None
  end.

(** Truth value of what [d.get(k)] returned ([None] when the key is
    missing). *)
Definition py_truthy_opt (o : option json) : bool :=
  match o with
  | Some v => py_truthy v
  | None => false
  end.

(** Truth value of an optional string ([None] and the empty string are false). *)
Definition truthy (o : option string) : bool :=
  match o with
  | Some s => negb (String.eqb s "")
  | None => false
  end.

(** Python's [a or b] on optional strings. *)
Definition py_or (a b : option string) : option string :=
  if truthy a then a else b.

(** ** Feed records *)

Record HashRecord : Type := mkRecord {
  sha256 : option string;
  download : option string;
  sha1 : option string;
  md5 : option string
}.

(** What the filter loop (lines 349-366) makes of [entry.get('sha256')]. *)
Inductive hash_view : Type :=
| NoHash                   (* key missing, or a falsy value: line 351 skips the entry *)
| StrHash (h : string)     (* a string that is not empty *)
| Unhashable               (* a list or dict that is not empty: the membership
                              test of line 355 raises TypeError *)
| OtherHash.               (* a number that is not 0, or true: the code goes on
                              with it as with a string *)

Definition view_hash (o : option json) : hash_view :=
  match o with
  | Some (JStr s) => if String.eqb s "" then NoHash else StrHash s
  | Some (JArr (_ :: _)) | Some (JObj (_ :: _)) => Unhashable
  | Some (JNum n) => if n =? 0 then NoHash else OtherHash
  | Some (JBool true) => OtherHash
  | Some JNull | Some (JBool false) | Some (JArr []) | Some (JObj []) | None => NoHash
  end.

(** A feed entry seen through [entry.get(...)]: only a dict has [get].  The
    records of the data model carry a string as hash, or none.  [Ok None]
    marks an entry outside the data model, whose 'sha256' is a truthy
    number or true; [Raise TypeError] an entry at which the filter loop
    dies. *)
Definition as_record (e : json) : result (option HashRecord) :=
  match e with
  | JObj fields =>
      let typed sha256 :=
        Ok (Some (mkRecord sha256 (str_field "download" fields)
                           (str_field "sha1" fields) (str_field "md5" fields))) in
      match view_hash (obj_get "sha256" fields) with
      | NoHash => typed (str_field "sha256" fields)
      | StrHash h => typed (Some h)
      | Unhashable => Raise TypeError
      | OtherHash => Ok None
      end
  | _ => Raise AttributeError
  end.

(** The entries of a page as records, in the order in which the loop visits
    them: the first entry that raises or leaves the data model decides. *)
Fixpoint as_records (es : list json) : result (option (list HashRecord)) :=
  match es with
  | [] => Ok (Some [])
  | e :: rest =>
      match as_record e with
      | Raise x => Raise x
      | Ok None => Ok None
      | Ok (Some r) =>
          match as_records rest with
          | Raise x => Raise x
          | Ok None => Ok None
          | Ok (Some rs) => Ok (Some (r :: rs))
          end
      end
  end.

(** ** Paths *)

Definition starts_with_slash (s : string) : bool :=
  match s with
  | String c _ => Ascii.eqb c "/"%char
  | EmptyString => false
  end.

Fixpoint ends_with_slash (s : string) : bool :=
  match s with
  | EmptyString => false
  | String c rest =>
      match rest with
      | EmptyString => Ascii.eqb c "/"%char
      | _ => ends_with_slash rest
      end
  end.

(** [os.path.join(a, b)] on POSIX. *)
Definition path_join (a b : string) : string :=
  if starts_with_slash b then b
  else if ends_with_slash a then a +:+ b
  else if String.eqb a "" then b
  else a +:+ "/" +:+ b.

(** [os.path.basename(p)]: what follows the last slash. *)
Fixpoint basename (p : string) : string :=
  match p with
  | EmptyString => EmptyString
  | String c rest =>
      if Ascii.eqb c "/"%char then basename rest
      else if is_substring "/" rest then basename rest
      else p
  end.

(** ** Statistics (module-level dicts and counters not under the lock) *)

Record Stats : Type := mkStats {
  total_hashes_seen : Z;
  skipped_existing_count : Z;
  skipped_processed_count_from_log : Z;
  skipped_processed_in_session : Z;
  download_sizes : gmap string Z;
  download_rates : gmap string (Z * Z);   (* bytes / elapsed, kept as a fraction *)
  http_status_counts : gmap Z Z;
  error_counts : gmap string Z
}.

Definition stats0 : Stats := mkStats 0 0 0 0 ∅ ∅ ∅ ∅.

Definition set_total_hashes_seen (v : Z) (s : Stats) : Stats :=
  mkStats v (skipped_existing_count s) (skipped_processed_count_from_log s)
    (skipped_processed_in_session s) (download_sizes s) (download_rates s)
    (http_status_counts s) (error_counts s).
Definition set_skipped_existing (v : Z) (s : Stats) : Stats :=
  mkStats (total_hashes_seen s) v (skipped_processed_count_from_log s)
    (skipped_processed_in_session s) (download_sizes s) (download_rates s)
    (http_status_counts s) (error_counts s).
Definition set_skipped_from_log (v : Z) (s : Stats) : Stats :=
  mkStats (total_hashes_seen s) (skipped_existing_count s) v
    (skipped_processed_in_session s) (download_sizes s) (download_rates s)
    (http_status_counts s) (error_counts s).
Definition set_skipped_in_session (v : Z) (s : Stats) : Stats :=
  mkStats (total_hashes_seen s) (skipped_existing_count s)
    (skipped_processed_count_from_log s) v (download_sizes s) (download_rates s)
    (http_status_counts s) (error_counts s).
Definition set_download_sizes (v : gmap string Z) (s : Stats) : Stats :=
  mkStats (total_hashes_seen s) (skipped_existing_count s)
    (skipped_processed_count_from_log s) (skipped_processed_in_session s) v
    (download_rates s) (http_status_counts s) (error_counts s).
Definition set_download_rates (v : gmap string (Z * Z)) (s : Stats) : Stats :=
  mkStats (total_hashes_seen s) (skipped_existing_count s)
    (skipped_processed_count_from_log s) (skipped_processed_in_session s)
    (download_sizes s) v (http_status_counts s) (error_counts s).
Definition set_http_status_counts (v : gmap Z Z) (s : Stats) : Stats :=
  mkStats (total_hashes_seen s) (skipped_existing_count s)
    (skipped_processed_count_from_log s) (skipped_processed_in_session s)
    (download_sizes s) (download_rates s) v (error_counts s).
Definition set_error_counts (v : gmap string Z) (s : Stats) : Stats :=
  mkStats (total_hashes_seen s) (skipped_existing_count s)
    (skipped_processed_count_from_log s) (skipped_processed_in_session s)
    (download_sizes s) (download_rates s) (http_status_counts s) v.

(** [d[k] = d.get(k, 0) + 1] *)
Definition bump `{Countable K} (k : K) (d : gmap K Z) : gmap K Z :=
  <[k := default 0 (d !! k) + 1]> d.

Definition update_statistics (status_code : option Z) (error_type : option string)
    (filename : option string) (file_size : option Z) (download_time : option Z)
    (s : Stats) : Stats :=
  let s1 :=
    match status_code with
    | Some code =>
        if code =? 0 then s
        else set_http_status_counts (bump code (http_status_counts s)) s
    | None => s
    end in
  let s2 :=
    if truthy error_type
    then set_error_counts (bump (default "" error_type) (error_counts s1)) s1
    else s1 in
  match truthy filename, file_size, download_time with
  | true, Some size, Some t =>
      if 0 <? t
      then set_download_rates (<[default "" filename := (size, t)]> (download_rates s2))
             (set_download_sizes (<[default "" filename := size]> (download_sizes s2)) s2)
      else set_download_sizes (<[default "" filename := size]> (download_sizes s2)) s2
  | true, Some size, None =>
      set_download_sizes (<[default "" filename := size]> (download_sizes s2)) s2
  | _, _, _ =>
      if bool_decide (error_type = Some "Skipped Existing")
      then set_skipped_existing (skipped_existing_count s2 + 1) s2
      else s2
  end.

(** ** The world: shared state, disk, and the trace of outside effects *)

Inductive level : Type := INFO | WARNING | ERROR | CRITICAL.

Inductive event : Type :=
| EvFeedRequest (page : Z)          (* requests.get on the hash feed *)
| EvLinkRequest (h : string)        (* requests.get for a download link *)
| EvFileRequest (url : string)      (* requests.get(stream=True) for the bytes *)
| EvFileRequestInvalid (v : json)   (* the same call on a value that is not a string:
                                       it raises before anything is sent *)
| EvSleep (ms : Z)
| EvRemove (path : string)          (* os.remove *)
| EvSubmit (h : string)             (* executor.submit(process_hash_entry, ...) *)
| EvLog (lvl : level) (msg : string)
| EvReport (downloaded failed : Z).

Record World : Type := mkWorld {
  counters : Counters;
  stats : Stats;
  processed_hashes : gset string;
  files : gmap string Z;               (* path -> size in bytes *)
  log_lines : option (list string);    (* PROCESSED_LOG_FILE, [None] when missing *)
  trace : list event
}.

Definition upd_counters (f : Counters → Counters) (w : World) : World :=
  mkWorld (f (counters w)) (stats w) (processed_hashes w) (files w) (log_lines w) (trace w).
Definition upd_stats (f : Stats → Stats) (w : World) : World :=
  mkWorld (counters w) (f (stats w)) (processed_hashes w) (files w) (log_lines w) (trace w).
Definition set_processed (p : gset string) (w : World) : World :=
  mkWorld (counters w) (stats w) p (files w) (log_lines w) (trace w).
Definition set_files (f : gmap string Z) (w : World) : World :=
  mkWorld (counters w) (stats w) (processed_hashes w) f (log_lines w) (trace w).
Definition set_log_lines (l : option (list string)) (w : World) : World :=
  mkWorld (counters w) (stats w) (processed_hashes w) (files w) l (trace w).
Definition emit (e : event) (w : World) : World :=
  mkWorld (counters w) (stats w) (processed_hashes w) (files w) (log_lines w) (trace w ++ [e]).

Definition log (lvl : level) (msg : string) : World → World := emit (EvLog lvl msg).
Definition sleep (ms : Z) : World → World := emit (EvSleep ms).

(** ** The environment: configuration and what the outside answers *)

Inductive reply (B : Type) : Type :=
| NetError                           (* requests.get raised a RequestException *)
| Response (status : Z) (body : B).
Arguments NetError {B}.
Arguments Response {B} status body.

Inductive decoded : Type :=
| Undecodable                        (* response.json() raises JSONDecodeError *)
| Decoded (j : json).

Record stream : Type := mkStream {
  chunks : list nat;                 (* lengths of the chunks of iter_content *)
  broken : bool;                     (* the stream raises after these chunks *)
  elapsed : Z
}.

(** What the disk does to one attempt at writing the destination file. *)
Inductive disk_fault : Type :=
| NoFault
| OpenFails                          (* open(filepath, 'wb') raises OSError *)
| WriteFails (size : Z).             (* a write or the close raises OSError; [size]
                                        bytes stay in the file *)

Record Env : Type := mkEnv {
  API_KEY : string;
  MAX_DOWNLOAD : option Z;
  NUM_THREADS : Z;
  feed_reply : Z → nat → reply decoded;        (* page, attempt *)
  link_reply : string → nat → reply decoded;   (* hash, attempt *)
  file_reply : string → nat → reply stream;    (* url, attempt *)
  urlparse_path : string → option string;      (* urlparse(s).path, [None] when it raises *)
  json_error_is_request_exception : bool;      (* class of the JSON error of the HTTP library *)
  initial_files : gmap string Z;
  initial_log : option (list string);
  log_read_fails : bool;
  makedirs_fails : bool;                       (* os.makedirs(DOWNLOAD_DIR) raises OSError *)
  disk_faults : string → nat → disk_fault;     (* path, attempt *)
  remove_fails : string → nat → bool           (* path, attempt: os.remove raises OSError *)
}.

(** [response.raise_for_status()] raises for 4xx and 5xx. *)
Definition raises_for_status (status : Z) : bool :=
  (400 <=? status) && (status <? 600).

(** ** Retry loops

    The three network helpers share one shape:
    [for attempt in range(MAX_RETRIES + 1)] with the last response kept
    in a variable across iterations. *)

Inductive attempt_outcome (A : Type) : Type :=
| Return (a : A)
| Retry (response : option Z).
Arguments Return {A} a.
Arguments Retry {A} response.

Fixpoint retry_loop {A : Type}
    (body : nat → option Z → World → World * attempt_outcome A)
    (fallthrough : A) (attempts : list nat) (response : option Z) (w : World)
  : World * A :=
  match attempts with
  | [] => (w, fallthrough)
  | attempt :: rest =>
      match body attempt response w with
      | (w', Return a) => (w', a)
      | (w', Retry response') => retry_loop body fallthrough rest response' w'
      end
  end.

Definition attempts_range : list nat := seq 0 (MAX_RETRIES + 1).

(** ** Persisted processed set *)

(** White space as [str.strip()] sees it: the code points for which
    [str.isspace()] holds, in UTF-8.  One byte: U+0009 to U+000D and U+001C
    to U+0020.  Two bytes: U+0085 and U+00A0.  Three bytes: U+1680, U+2000
    to U+200A, U+2028, U+2029, U+202F, U+205F and U+3000. *)
Definition is_space (c : ascii) : bool :=
  let n := nat_of_ascii c in
  ((9 <=? n) && (n <=? 13) || (28 <=? n) && (n <=? 32))%nat.

Definition is_space2 (a b : ascii) : bool :=
  let a := nat_of_ascii a in
  let b := nat_of_ascii b in
  ((a =? 194) && ((b =? 133) || (b =? 160)))%nat.

Definition is_space3 (a b c : ascii) : bool :=
  let a := nat_of_ascii a in
  let b := nat_of_ascii b in
  let c := nat_of_ascii c in
  ((a =? 225) && (b =? 154) && (c =? 128)
   || (a =? 226) && (b =? 128)
      && ((128 <=? c) && (c <=? 138) || (c =? 168) || (c =? 169) || (c =? 175))
   || (a =? 226) && (b =? 129) && (c =? 159)
   || (a =? 227) && (b =? 128) && (c =? 128))%nat.

(** The bytes of a string without the white space at its head. *)
Fixpoint lstrip_bytes (l : list ascii) : list ascii :=
  match l with
  | [] => []
  | a :: r1 =>
      if is_space a then lstrip_bytes r1
      else
        match r1 with
        | b :: r2 =>
            if is_space2 a b then lstrip_bytes r2
            else
              match r2 with
              | c :: r3 => if is_space3 a b c then lstrip_bytes r3 else l
              | [] => l
              end
        | [] => l
        end
  end.

(** The same from the other end, on the reversed bytes: a code point of
    several bytes is then met last byte first. *)
Fixpoint rstrip_reversed (l : list ascii) : list ascii :=
  match l with
  | [] => []
  | c :: r1 =>
      if is_space c then rstrip_reversed r1
      else
        match r1 with
        | b :: r2 =>
            if is_space2 b c then rstrip_reversed r2
            else
              match r2 with
              | a :: r3 => if is_space3 a b c then rstrip_reversed r3 else l
              | [] => l
              end
        | [] => l
        end
  end.

Definition lstrip (s : string) : string :=
  String.string_of_list_ascii (lstrip_bytes (String.list_ascii_of_string s)).

Definition rstrip (s : string) : string :=
  String.string_of_list_ascii (rev (rstrip_reversed (rev (String.list_ascii_of_string s)))).

Definition strip (s : string) : string := rstrip (lstrip s).

Definition load_processed_hashes (env : Env) (w : World) : World * gset string :=
  match log_lines w with
  | Some lines =>
      if log_read_fails env
      then (log ERROR "Failed to load processed hashes" w, ∅)
      else
        let loaded_set : gset string :=
          list_to_set (filter (λ l, l ≠ "") (strip <$> lines)) in
        (upd_stats (set_skipped_from_log (Z.of_nat (size loaded_set))) w, loaded_set)
  | None => (w, ∅)
  end.

(** The log is kept as its list of lines, and the append of lines 143-145
    is taken to succeed: the [except IOError] branch, which only writes an
    error record, is not followed. *)
Definition save_processed_hash (sha256_hash : string) (w : World) : World :=
  set_log_lines (Some (default [] (log_lines w) ++ [sha256_hash])%list) w.

(** ** [fetch_hashes_page] *)

Definition empty_page : json := JObj [("data", JArr [])].

(** The [except requests.exceptions.RequestException] handler of
    [fetch_hashes_page] (lines 184-190). *)
Definition feed_request_failed (page_number : Z) (attempt : nat)
    (response : option Z) (w : World)
  : World * attempt_outcome (result (option json)) :=
  let w := log ERROR "Error fetching hash feed page" w in
  let w := match response with
           | Some status => upd_stats (update_statistics (Some status) None None None None) w
           | None => w
           end in
  if (attempt <? MAX_RETRIES)%nat
  then (sleep RETRY_DELAY w, Retry response)
  else
    let key := "API Request Failed (Hash Feed - Page " +:+ pretty page_number +:+ ")" in
    (upd_stats (update_statistics None (Some key) None None None) w, Return (Ok None)).

(** One iteration of the loop of [fetch_hashes_page] (lines 168-190). *)
Definition fetch_hashes_attempt (env : Env) (page_number : Z) (attempt : nat)
    (response : option Z) (w : World)
  : World * attempt_outcome (result (option json)) :=
  let w := emit (EvFeedRequest page_number) w in
  match feed_reply env page_number attempt with
  | NetError => feed_request_failed page_number attempt response w
  | Response status body =>
      let w := upd_stats (update_statistics (Some status) None None None None) w in
      if raises_for_status status
      then feed_request_failed page_number attempt (Some status) w
      else
        match body with
        | Undecodable =>
            let w := log ERROR "JSONDecodeError on hash feed page" w in
            let key := "JSON Decode Error (Hash Feed - Page " +:+ pretty page_number +:+ ")" in
            (upd_stats (update_statistics None (Some key) None None None) w, Return (Ok None))
        | Decoded hashes_data =>
            let malformed w :=
              (log WARNING "Page returned malformed data structure" w,
               Return (Ok (Some empty_page))) in
            match py_contains "data" hashes_data with
            | Raise e => (w, Return (Raise e))
            | Ok false => malformed w
            | Ok true =>
                match py_getitem "data" hashes_data with
                | Raise e => (w, Return (Raise e))
                | Ok d =>
                    if isinstance_list d
                    then (w, Return (Ok (Some hashes_data)))
                    else malformed w
                end
            end
        end
  end.

Definition fetch_hashes_page (env : Env) (page_number : Z) (w : World)
  : World * result (option json) :=
  retry_loop (fetch_hashes_attempt env page_number) (Ok None) attempts_range None w.

(** ** [get_download_link] *)

(** What [get_download_link] returns is what [data.get('file_path')] gave:
    any decoded value, or nothing ([None] and [Some JNull] both stand for
    Python's None). *)
Definition link_request_failed (sha256_hash : string) (attempt : nat)
    (response_obj : option Z) (w : World)
  : World * attempt_outcome (result (option json)) :=
  let w := log ERROR "Error getting download link" w in
  if (attempt <? MAX_RETRIES)%nat
  then (sleep RETRY_DELAY w, Retry response_obj)
  else
    let key := "API Request Failed (Download Link - " +:+ sha256_hash +:+ ")" in
    (upd_stats (update_statistics response_obj (Some key) None None None) w,
     Return (Ok None)).

Definition get_download_link_attempt (env : Env) (sha256_hash : string) (attempt : nat)
    (response_obj : option Z) (w : World)
  : World * attempt_outcome (result (option json)) :=
  let w := emit (EvLinkRequest sha256_hash) w in
  match link_reply env sha256_hash attempt with
  | NetError => link_request_failed sha256_hash attempt response_obj w
  | Response status body =>
      let w := upd_stats (update_statistics (Some status) None None None None) w in
      if status =? 404
      then (log WARNING "Download link not found (404)" w, Return (Ok None))
      else if raises_for_status status
      then link_request_failed sha256_hash attempt (Some status) w
      else
        match body with
        | Undecodable =>
            if json_error_is_request_exception env
            then link_request_failed sha256_hash attempt (Some status) w
            else
              let w := log ERROR "JSONDecodeError getting download link" w in
              let key := "JSON Decode Error (Download Link - " +:+ sha256_hash +:+ ")" in
              (upd_stats (update_statistics None (Some key) None None None) w,
               Return (Ok None))
        | Decoded (JObj fields) => (w, Return (Ok (obj_get "file_path" fields)))
        | Decoded _ => (w, Return (Raise AttributeError))
        end
  end.

Definition get_download_link (env : Env) (sha256_hash : string) (w : World)
  : World * result (option json) :=
  retry_loop (get_download_link_attempt env sha256_hash) (Ok None) attempts_range None w.

(** ** [download_file] *)

Definition os_path_exists (path : string) (w : World) : bool :=
  bool_decide (is_Some (files w !! path)).

(** [os.remove(path)]: [None] when it raises [OSError], because the file is
    not there or because the system refuses at this attempt. *)
Definition os_remove (env : Env) (path : string) (attempt : nat) (w : World)
  : option World :=
  if remove_fails env path attempt then None
  else
    match files w !! path with
    | Some _ => Some (set_files (delete path (files w)) (emit (EvRemove path) w))
    | None => None
    end.

Definition total_size (cs : list nat) : Z := Z.of_nat (sum_list cs).

(** The [except requests.exceptions.RequestException] handler of
    [download_file] (lines 255-271). *)
Definition download_failed (env : Env) (original_filename filepath : string)
    (attempt : nat) (response_obj : option Z) (w : World)
  : World * attempt_outcome (result bool) :=
  let w := log ERROR "Download error" w in
  let w :=
    if os_path_exists filepath w
    then match os_remove env filepath attempt w with
         | Some w' => w'
         | None => log ERROR "Error removing partial file" w
         end
    else w in
  if (attempt <? MAX_RETRIES)%nat
  then (sleep RETRY_DELAY w, Retry response_obj)
  else
    let w := log ERROR "FINAL FAILED download" w in
    let key := "Download Error Final (" +:+ original_filename +:+ ")" in
    let w := upd_stats (λ s, set_error_counts (bump key (error_counts s)) s) w in
    let w :=
      match response_obj with
      | Some status =>
          if status =? 0 then w
          else upd_stats (λ s, set_http_status_counts (bump status (http_status_counts s)) s) w
      | None => w
      end in
    (upd_counters (λ c, set_failed (failed_count c + 1) c) w, Return (Ok false)).

(** One iteration of the loop of [download_file] (lines 233-271).  An
    [OSError] of [open], of a write or of the close is no
    [RequestException]: it leaves the loop and [download_file]
    ([Return (Raise OSError)]), with the file as the fault left it.  On a
    link that is not a string [requests.get] raises a [RequestException]
    (MissingSchema, InvalidSchema or InvalidURL) while it prepares the
    URL. *)
Definition download_attempt (env : Env) (download_url : json)
    (original_filename filepath : string)
    (attempt : nat) (response_obj : option Z) (w : World)
  : World * attempt_outcome (result bool) :=
  match download_url with
  | JStr url =>
      let w := emit (EvFileRequest url) w in
      match file_reply env url attempt with
      | NetError => download_failed env original_filename filepath attempt response_obj w
      | Response status body =>
          let w := upd_stats (update_statistics (Some status) None None None None) w in
          if raises_for_status status
          then download_failed env original_filename filepath attempt (Some status) w
          else
            match disk_faults env filepath attempt with
            | OpenFails => (w, Return (Raise OSError))
            | WriteFails size =>
                (set_files (<[filepath := size]> (files w)) w, Return (Raise OSError))
            | NoFault =>
                (* open(filepath, 'wb') and the chunks written so far *)
                let w := set_files (<[filepath := total_size (chunks body)]> (files w)) w in
                if broken body
                then download_failed env original_filename filepath attempt (Some status) w
                else
                  let w := upd_stats (update_statistics None None (Some filepath)
                                        (Some (total_size (chunks body)))
                                        (Some (elapsed body))) w in
                  (upd_counters (λ c, set_downloaded (downloaded_count c + 1) c) w,
                   Return (Ok true))
            end
      end
  | _ =>
      let w := emit (EvFileRequestInvalid download_url) w in
      download_failed env original_filename filepath attempt response_obj w
  end.

Definition download_path (original_filename : string) (sha256_hash : option string) : string :=
  path_join DOWNLOAD_DIR (if truthy sha256_hash then default "" sha256_hash else original_filename).

Definition download_file (env : Env) (download_url : json) (original_filename : string)
    (sha256_hash : option string) (w : World) : World * result bool :=
  let filepath := download_path original_filename sha256_hash in
  if os_path_exists filepath w
  then (upd_stats (update_statistics None (Some "Skipped Existing") None None None) w,
        Ok true)
  else retry_loop (download_attempt env download_url original_filename filepath)
         (Ok false) attempts_range None w.

(** ** [process_hash_entry] *)

(** The best-effort file name of lines 278-295. *)
Definition derive_filename (env : Env) (entry : HashRecord) : option string :=
  let original_filename :=
    if truthy (download entry)
    then match urlparse_path env (default "" (download entry)) with
         | Some parsed_path =>
             if negb (String.eqb parsed_path "")
                && negb (String.eqb (basename parsed_path) "")
             then Some (basename parsed_path)
             else if String.eqb parsed_path "/" then sha256 entry
             else Some "unknown_filename"
         | None => Some "unknown_filename"
         end
    else Some "unknown_filename" in
  if bool_decide (original_filename = Some "unknown_filename")
  then py_or (sha256 entry) (py_or (sha1 entry) (py_or (md5 entry) (Some "unknown_entry")))
  else original_filename.

(** The [try] block with its [except Exception] handler (lines 280-312). *)
Definition process_body (env : Env) (entry : HashRecord) (w : World) : World :=
  let sha256_hash := sha256 entry in
  let original_filename := default "None" (derive_filename env entry) in
  if negb (truthy sha256_hash)
  then
    let w := log WARNING "Entry missing SHA256" w in
    upd_stats (λ s, set_error_counts (bump "Missing SHA256 in feed" (error_counts s)) s) w
  else
    let h := default "" sha256_hash in
    match get_download_link env h w with
    | (w, Raise _) => log ERROR "Unexpected error in process_hash_entry" w
    | (w, Ok download_link) =>
        if py_truthy_opt download_link
        then
          match download_file env (default JNull download_link) original_filename
                  sha256_hash w with
          | (w, Ok true) => save_processed_hash h w
          | (w, Ok false) => w
          | (w, Raise _) => log ERROR "Unexpected error in process_hash_entry" w
          end
        else log WARNING "No download link. Download attempt aborted." w
    end.

(** The [finally] block (lines 313-321): the guarded decrement. *)
Definition process_finally (entry : HashRecord) (w : World) : World :=
  if truthy (sha256 entry)
  then
    if 0 <? pending_downloads_count (counters w)
    then upd_counters (λ c, set_pending (pending_downloads_count c - 1) c) w
    else log WARNING "Attempted to decrement pending_downloads_count but it was already 0 or less" w
  else w.

Definition process_hash_entry (env : Env) (entry : HashRecord) (w : World) : World :=
  process_finally entry (process_body env entry w).

(** ** Building the batch of one page (lines 345-366) *)

Record FilterState : Type := mkFilter {
  page_hash_list_for_submission : list HashRecord;
  temp_page_seen_hashes : gset string;
  page_internal_duplicates_skipped : Z;
  filter_stats : Stats
}.

Definition filter_entry (processed : gset string) (entry : HashRecord) (st : FilterState)
  : FilterState :=
  let stats1 := set_total_hashes_seen (total_hashes_seen (filter_stats st) + 1) (filter_stats st) in
  let sha256_for_check := sha256 entry in
  if negb (truthy sha256_for_check)
  then mkFilter (page_hash_list_for_submission st) (temp_page_seen_hashes st)
         (page_internal_duplicates_skipped st) stats1
  else
    let h := default "" sha256_for_check in
    if bool_decide (h ∈ processed)
    then mkFilter (page_hash_list_for_submission st) (temp_page_seen_hashes st)
           (page_internal_duplicates_skipped st)
           (set_skipped_in_session (skipped_processed_in_session stats1 + 1) stats1)
    else if bool_decide (h ∈ temp_page_seen_hashes st)
    then mkFilter (page_hash_list_for_submission st) (temp_page_seen_hashes st)
           (page_internal_duplicates_skipped st + 1) stats1
    else mkFilter (page_hash_list_for_submission st ++ [entry])%list
           ({[h]} ∪ temp_page_seen_hashes st)
           (page_internal_duplicates_skipped st) stats1.

Definition filter_init (s : Stats) : FilterState := mkFilter [] ∅ 0 s.

(** The loop over the entries of a page, on records. *)
Definition build_page_batch (processed : gset string) (page : list HashRecord)
    (st : FilterState) : FilterState :=
  foldl (λ st entry, filter_entry processed entry st) st page.

(** The same loop on the decoded entries: [entry.get] first.  [Ok None]
    when an entry outside the data model is met. *)
Fixpoint filter_entries (processed : gset string) (entries : list json) (st : FilterState)
  : result (option FilterState) :=
  match entries with
  | [] => Ok (Some st)
  | e :: rest =>
      match as_record e with
      | Raise x => Raise x
      | Ok None => Ok None
      | Ok (Some entry) => filter_entries processed rest (filter_entry processed entry st)
      end
  end.

(** ** The run as a transition system

    The main thread and the pool tasks take turns; every block under
    [download_count_lock] is one step.  A task takes two steps: its
    [try] block, which touches the lock-protected counters in at most one
    locked block (the increment at the end of [download_file]), and its
    [finally] block.  Any interleaving of such steps is a schedule; the
    pool size only removes schedules. *)

Inductive phase : Type :=
| Queued                        (* submitted, [try] block not yet run *)
| Finishing (recorded : Z)      (* [try] block over; [recorded] is what it added to
                                   downloaded_count; [finally] not yet run *)
| Done.

Record task : Type := mkTask {
  t_entry : HashRecord;
  t_phase : phase
}.

Inductive pc : Type :=
| Start                                                   (* the main block, line 439 *)
| PageLoop (page_number : Z)                              (* top of [while True], line 328 *)
| Submitting (page_number : Z) (todo : list HashRecord) (futures : list nat)
| Waiting (page_number : Z) (futures : list nat)          (* line 413 *)
| Debrief                                                 (* line 470 *)
| Exited (code : Z)
| Crashed (e : exn)                                       (* died of an uncaught exception *)
| Untracked.                          (* the page holds an entry outside the data model:
                                         the main thread is followed no further *)

Record State : Type := mkState {
  world : World;
  main : pc;
  tasks : list task
}.

Inductive label : Type :=
| LMain
| LTask (i : nat).

Definition world0 (env : Env) : World :=
  mkWorld counters0 stats0 ∅ (initial_files env) (initial_log env) [].

Definition init (env : Env) : State := mkState (world0 env) Start [].

Definition is_done (ts : list task) (i : nat) : bool :=
  match ts !! i with
  | Some t => match t_phase t with Done => true | _ => false end
  | None => false
  end.

(** Lines 439-468. *)
Definition main_start (env : Env) (w : World) : World * pc :=
  if String.eqb (API_KEY env) "" || String.eqb (API_KEY env) "PUT_YOUR_METADEFENDER_API_KEY_HERE"
  then (log CRITICAL "API_KEY is not set or is the placeholder" w, Exited 1)
  else if makedirs_fails env then (w, Crashed OSError)
  else
    let '(w, initial_processed_set) := load_processed_hashes env w in
    let w := set_processed (processed_hashes w ∪ initial_processed_set) w in
    let w :=
      if bool_decide (MAX_DOWNLOAD env = Some 0)
      then upd_counters (set_stop true) w
      else w in
    if should_stop (counters w) then (w, Debrief) else (w, PageLoop 1).

(** One iteration of [while True] up to the submission loop (lines 329-377). *)
Definition main_page (env : Env) (page_number : Z) (w : World) : World * pc :=
  if should_stop (counters w) then (w, Debrief)
  else
    match fetch_hashes_page env page_number w with
    | (w, Raise e) => (w, Crashed e)
    | (w, Ok None) => (log ERROR "Failed to fetch page or API feed exhausted. Stopping." w, Debrief)
    | (w, Ok (Some hashes_data_page)) =>
        match (if py_truthy hashes_data_page then py_contains "data" hashes_data_page
               else Ok false) with
        | Raise e => (w, Crashed e)
        | Ok false => (w, PageLoop page_number)
        | Ok true =>
            match py_getitem "data" hashes_data_page with
            | Raise e => (w, Crashed e)
            | Ok current_page_hashes_from_api =>
                if negb (py_truthy current_page_hashes_from_api) then (w, Debrief)
                else
                  match current_page_hashes_from_api with
                  | JArr entries =>
                      match filter_entries (processed_hashes w) entries (filter_init (stats w)) with
                      | Raise e => (w, Crashed e)
                      | Ok None => (w, Untracked)
                      | Ok (Some st) =>
                          let w := upd_stats (λ _, filter_stats st) w in
                          match page_hash_list_for_submission st with
                          | [] => (sleep 100 w, PageLoop (page_number + 1))
                          | batch =>
                              (* ThreadPoolExecutor(max_workers=NUM_THREADS), line 379 *)
                              if NUM_THREADS env <=? 0 then (w, Crashed ValueError)
                              else (w, Submitting page_number batch [])
                          end
                      end
                  | _ => (w, Crashed TypeError)
                  end
            end
        end
    end.

(** One iteration of the submission loop (lines 380-409). *)
Definition main_submit (env : Env) (page_number : Z) (entry : HashRecord)
    (rest : list HashRecord) (futures : list nat) (s : State) : State :=
  let w := world s in
  let current_sha256 := default "" (sha256 entry) in
  let '(c, submit_this_task) := try_admit (MAX_DOWNLOAD env) (counters w) in
  let w := upd_counters (λ _, c) w in
  if should_stop (counters w)
  then mkState w (Waiting page_number futures) (tasks s)
  else if submit_this_task
  then
    let w := set_processed ({[current_sha256]} ∪ processed_hashes w) w in
    let w := emit (EvSubmit current_sha256) w in
    mkState w (Submitting page_number rest (futures ++ [length (tasks s)])%list)
      (tasks s ++ [mkTask entry Queued])%list
  else mkState w (Submitting page_number rest futures) (tasks s).

(** After the futures of the page have completed (lines 419-427). *)
Definition main_after_page (page_number : Z) (w : World) : World * pc :=
  if should_stop (counters w) then (w, Debrief)
  else (sleep 500 w, PageLoop (page_number + 1)).

(** Lines 470-552: the report is built from the counters and written out. *)
Definition main_report (w : World) : World * pc :=
  (emit (EvReport (downloaded_count (counters w)) (failed_count (counters w))) w, Exited 0).

Definition step_main (env : Env) (s : State) : option State :=
  let lift (r : World * pc) := Some (mkState (fst r) (snd r) (tasks s)) in
  match main s with
  | Start => lift (main_start env (world s))
  | PageLoop page_number => lift (main_page env page_number (world s))
  | Submitting page_number [] futures =>
      Some (mkState (world s) (Waiting page_number futures) (tasks s))
  | Submitting page_number (entry :: rest) futures =>
      Some (main_submit env page_number entry rest futures s)
  | Waiting page_number futures =>
      if forallb (is_done (tasks s)) futures
      then lift (main_after_page page_number (world s))
      else None
  | Debrief => lift (main_report (world s))
  | Exited _ | Crashed _ | Untracked => None
  end.

Definition step_task (env : Env) (i : nat) (s : State) : option State :=
  match tasks s !! i with
  | Some (mkTask entry Queued) =>
      let w := process_body env entry (world s) in
      let recorded := downloaded_count (counters w) - downloaded_count (counters (world s)) in
      Some (mkState w (main s) (<[i := mkTask entry (Finishing recorded)]> (tasks s)))
  | Some (mkTask entry (Finishing _)) =>
      Some (mkState (process_finally entry (world s)) (main s)
              (<[i := mkTask entry Done]> (tasks s)))
  | Some (mkTask _ Done) | None => None
  end.

Definition step (env : Env) (l : label) (s : State) : option State :=
  match l with
  | LMain => step_main env s
  | LTask i => step_task env i s
  end.

(** Running a schedule; a label that is not enabled makes the schedule invalid. *)
Fixpoint run (env : Env) (sched : list label) (s : State) : option State :=
  match sched with
  | [] => Some s
  | l :: rest =>
      match step env l s with
      | Some s' => run env rest s'
      | None => None
      end
  end.

Definition reachable (env : Env) (s : State) : Prop :=
  ∃ sched, run env sched (init env) = Some s.

(** * Vocabulary of the statements

    Event kinds, counting, the relations between worlds that the helper
    lemmas speak of, the invariants of a run, the claims of the
    specification as it words them, and example environments. *)

Definition hash_of (r : HashRecord) : string := default "" (sha256 r).

(** What the loop keeps true of its accumulators. *)
Record filter_inv (processed : gset string) (earlier : list HashRecord) (st : FilterState)
  : Prop := mkFilterInv {
  fi_seen : ∀ h, h ∈ temp_page_seen_hashes st ↔
                 (h ∉ processed) ∧ (h ≠ "") ∧ (∃ r, r ∈ earlier ∧ sha256 r = Some h);
  fi_batch_truthy : Forall (λ r, truthy (sha256 r) = true) (page_hash_list_for_submission st);
  fi_batch_seen : ∀ r, r ∈ page_hash_list_for_submission st → hash_of r ∈ temp_page_seen_hashes st;
  fi_batch_nodup : NoDup (hash_of <$> page_hash_list_for_submission st)
}.

(** The batch as the specification words it: a record of the page is kept
    when it has a hash identifier, the hash is not in the processed set, and
    no earlier record of the same page carries the same hash. *)
Fixpoint PageBatch_spec (processed : gset string) (earlier page : list HashRecord)
  : list HashRecord :=
  match page with
  | [] => []
  | r :: rest =>
      let missing := negb (truthy (sha256 r)) in
      let already := bool_decide (hash_of r ∈ processed) in
      let duplicate := existsb (λ r', bool_decide (sha256 r' = sha256 r)) earlier in
      (if missing || already || duplicate then [] else [r])
        ++ PageBatch_spec processed (earlier ++ [r]) rest
  end%list.

(** [w'] differs from [w] only in the statistics and by events appended to
    the trace, all of them satisfying [allowed]. *)
Record quiet (allowed : event → bool) (w w' : World) : Prop := mkQuiet {
  q_counters : counters w' = counters w;
  q_processed : processed_hashes w' = processed_hashes w;
  q_files : files w' = files w;
  q_log_lines : log_lines w' = log_lines w;
  q_skipped : skipped_existing_count (stats w') = skipped_existing_count (stats w);
  q_trace : ∃ evs, trace w' = (trace w ++ evs)%list ∧ forallb allowed evs = true
}.

(** Events by kind. *)
Definition is_feed_request (e : event) : bool :=
  match e with EvFeedRequest _ => true | _ => false end.
Definition is_link_request (e : event) : bool :=
  match e with EvLinkRequest _ => true | _ => false end.
Definition is_file_request (e : event) : bool :=
  match e with EvFileRequest _ | EvFileRequestInvalid _ => true | _ => false end.
Definition is_submit (e : event) : bool :=
  match e with EvSubmit _ => true | _ => false end.
Definition is_sleep_or_log (e : event) : bool :=
  match e with EvSleep _ | EvLog _ _ => true | _ => false end.

Definition feed_events (e : event) : bool := is_feed_request e || is_sleep_or_log e.
Definition link_events (e : event) : bool := is_link_request e || is_sleep_or_log e.

(** Counting events of one kind in a trace. *)
Definition count_events (f : event → bool) (evs : list event) : nat :=
  length (filter (λ e, f e = true) evs).

(** The download loop between attempts: counters and processed set as at the
    start. *)
Definition untouched (w0 w : World) : Prop :=
  counters w = counters w0 ∧ processed_hashes w = processed_hashes w0.

(** A finished [download_file]: at most one of the two counters moved, by
    one; neither when a local error ended it. *)
Definition download_post (w0 w : World) (r : result bool) : Prop :=
  pending_downloads_count (counters w) = pending_downloads_count (counters w0)
  ∧ should_stop (counters w) = should_stop (counters w0)
  ∧ processed_hashes w = processed_hashes w0
  ∧ match r with
    | Ok true =>
        downloaded_count (counters w) = downloaded_count (counters w0) + 1
        ∧ failed_count (counters w) = failed_count (counters w0)
    | Ok false =>
        downloaded_count (counters w) = downloaded_count (counters w0)
        ∧ failed_count (counters w0) ≤ failed_count (counters w)
            ≤ failed_count (counters w0) + 1
    | Raise _ =>
        downloaded_count (counters w) = downloaded_count (counters w0)
        ∧ failed_count (counters w) = failed_count (counters w0)
    end.

Definition sumZ (g : task → Z) (ts : list task) : Z := foldr (λ t acc, g t + acc) 0 ts.

Definition active_w (t : task) : Z :=
  match t_phase t with Done => 0 | _ => 1 end.
Definition recorded_w (t : task) : Z :=
  match t_phase t with Finishing r => r | _ => 0 end.

(** Tasks submitted whose [finally] block has not run yet. *)
Definition in_flight_tasks (ts : list task) : Z := sumZ active_w ts.
(** Successes already counted in downloaded_count by tasks still in flight. *)
Definition unreleased_successes (ts : list task) : Z := sumZ recorded_w ts.

Definition task_ok (t : task) : Prop :=
  truthy (sha256 (t_entry t)) = true ∧ 0 ≤ recorded_w t ≤ active_w t.

Record accounting (env : Env) (s : State) : Prop := mkAccounting {
  acc_tasks : Forall task_ok (tasks s);
  acc_todo : match main s with
             | Submitting _ todo _ => Forall (λ r, truthy (sha256 r) = true) todo
             | _ => True
             end;
  acc_pending : pending_downloads_count (counters (world s)) = in_flight_tasks (tasks s);
  acc_limit : ∀ limit, MAX_DOWNLOAD env = Some limit → 0 ≤ limit →
      downloaded_count (counters (world s)) + pending_downloads_count (counters (world s))
        - unreleased_successes (tasks s) ≤ limit
}.

(** The set read from the durable log by the main block. *)
Definition loaded_set (env : Env) : gset string :=
  (load_processed_hashes env (world0 env)).2.

Definition task_hashes (ts : list task) : list string := (λ t, hash_of (t_entry t)) <$> ts.

(** The main thread is inside [fetch_and_process_hashes]. *)
Definition paginating (p : pc) : Prop :=
  match p with
  | PageLoop _ | Submitting _ _ _ | Waiting _ _ => True
  | _ => False
  end.

Record dedup (env : Env) (s : State) : Prop := mkDedup {
  dd_start : main s = Start → world s = world0 env ∧ tasks s = [];
  dd_loaded : paginating (main s) → loaded_set env ⊆ processed_hashes (world s);
  dd_processed : ∀ h, h ∈ task_hashes (tasks s) → h ∈ processed_hashes (world s);
  dd_fresh : ∀ h, h ∈ task_hashes (tasks s) → h ∉ loaded_set env;
  dd_nodup : NoDup (task_hashes (tasks s));
  dd_todo : match main s with
            | Submitting _ todo _ =>
                NoDup (hash_of <$> todo)
                ∧ ∀ r, r ∈ todo → hash_of r ∉ processed_hashes (world s)
            | _ => True
            end
}.

(** The reply to this attempt raises a [RequestException]. *)
Definition feed_attempt_fails (env : Env) (page_number : Z) (attempt : nat) : bool :=
  match feed_reply env page_number attempt with
  | NetError => true
  | Response status _ => raises_for_status status
  end.

Definition feed_retry_events (page_number : Z) : list event :=
  [EvFeedRequest page_number; EvLog ERROR "Error fetching hash feed page"; EvSleep RETRY_DELAY].

(** The decoded body passes the structure test of line 175. *)
Definition has_data_list (j : json) : result bool :=
  match py_contains "data" j with
  | Raise e => Raise e
  | Ok false => Ok false
  | Ok true =>
      match py_getitem "data" j with
      | Raise e => Raise e
      | Ok d => Ok (isinstance_list d)
      end
  end.

(** The trace after [k] failed attempts. *)
Definition after_retries (retry : list event) (k : nat) (w0 : World) : list event :=
  (trace w0 ++ mjoin (replicate k retry))%list.

(** The reply to this attempt is handled by the [RequestException] clause. *)
Definition link_attempt_fails (env : Env) (h : string) (attempt : nat) : bool :=
  match link_reply env h attempt with
  | NetError => true
  | Response status body =>
      negb (status =? 404)
      && (raises_for_status status
          || match body with
             | Undecodable => json_error_is_request_exception env
             | Decoded _ => false
             end)
  end.

Definition link_retry_events (h : string) : list event :=
  [EvLinkRequest h; EvLog ERROR "Error getting download link"; EvSleep RETRY_DELAY].

(** The reply to this attempt raises a [RequestException], before or while
    the bytes are streamed (the disk permitting). *)
Definition file_attempt_fails (env : Env) (url : string) (attempt : nat) : bool :=
  match file_reply env url attempt with
  | NetError => true
  | Response status body => raises_for_status status || broken body
  end.

(** The disk does what it is asked at this attempt: the file opens, takes
    the bytes, and can be removed. *)
Definition disk_ok (env : Env) (path : string) (attempt : nat) : bool :=
  match disk_faults env path attempt with
  | NoFault => negb (remove_fails env path attempt)
  | _ => false
  end.

(** The stream breaks after the destination file was opened. *)
Definition file_breaks_midstream (env : Env) (url : string) (attempt : nat) : bool :=
  match file_reply env url attempt with
  | NetError => false
  | Response status body => negb (raises_for_status status) && broken body
  end.

(** The events of a failed attempt up to and including the cleanup. *)
Definition download_failure_events (env : Env) (url path : string) (attempt : nat)
  : list event :=
  [EvFileRequest url; EvLog ERROR "Download error"]
    ++ (if file_breaks_midstream env url attempt then [EvRemove path] else []).

Definition download_retry_events (env : Env) (url path : string) (attempt : nat)
  : list event :=
  download_failure_events env url path attempt ++ [EvSleep RETRY_DELAY].

(** The world between two attempts, seen from the start of [download_file]. *)
Record between_attempts (w0 w : World) : Prop := mkBetween {
  ba_counters : counters w = counters w0;
  ba_processed : processed_hashes w = processed_hashes w0;
  ba_files : files w = files w0;
  ba_log_lines : log_lines w = log_lines w0
}.

Definition is_remove (e : event) : bool :=
  match e with EvRemove _ => true | _ => false end.

(** The events of the first [k] attempts of a download, all of them failed. *)
Definition download_retries (env : Env) (url path : string) (k : nat) : list event :=
  mjoin (download_retry_events env url path <$> seq 0 k).

(** How many of the first [k] attempts broke after the file was opened. *)
Definition midstream_failures (env : Env) (url : string) (k : nat) : nat :=
  length (filter (λ a, file_breaks_midstream env url a = true) (seq 0 k)).

Definition ex_record (h : string) : json :=
  JObj [("sha256", JStr h); ("download", JStr ("https://feed.example/samples/" +:+ h))].

Definition ex_page (entries : list json) : reply decoded :=
  Response 200 (Decoded (JObj [("data", JArr entries)])).

(** A feed with the given pages (numbered from 1) followed by empty pages. *)
Definition ex_feed (pages : list (list json)) (page_number : Z) (attempt : nat)
  : reply decoded :=
  ex_page (default [] (pages !! Z.to_nat (page_number - 1))).

Definition ex_link (h : string) (attempt : nat) : reply decoded :=
  Response 200 (Decoded (JObj [("file_path", JStr ("https://cdn.example/" +:+ h))])).

Definition ex_file (url : string) (attempt : nat) : reply stream :=
  Response 200 (mkStream [40; 2]%nat false 2).

Definition ex_env (limit : option Z) (feed : Z → nat → reply decoded)
    (link : string → nat → reply decoded) (file : string → nat → reply stream)
    (disk : gmap string Z) (processed_log : option (list string)) : Env :=
  mkEnv "0123456789abcdef" limit 4 feed link file (λ _, Some "/samples/x.bin") false
    disk processed_log false false (λ _ _, NoFault) (λ _ _, false).

(** Limit 1, one record: the smallest run with a download. *)
Definition one_sample_env : Env :=
  ex_env (Some 1) (ex_feed [[ex_record "aa"]]) ex_link ex_file ∅ None.

(** Start, fetch page 1, admit "aa", run its try block. *)
Definition one_sample_sched : list label := [LMain; LMain; LMain; LTask 0].

(** Limit 2; the page repeats "aa", has an entry without hash and one that
    the processed log already lists. *)
Definition mixed_page_env : Env :=
  ex_env (Some 2)
    (ex_feed [[ex_record "aa"; ex_record "aa"; JObj []; ex_record "bb"; ex_record "cc"]])
    ex_link ex_file ∅ (Some ["zz"; " bb "]).

Definition mixed_page_sched : list label :=
  [LMain; LMain; LMain; LMain; LMain; LTask 0; LTask 1; LTask 0; LTask 1].

Definition state_after (env : Env) (sched : list label) : State :=
  default (init env) (run env sched (init env)).

Definition zero_limit_env : Env :=
  ex_env (Some 0) (ex_feed [[ex_record "aa"]]) ex_link ex_file ∅ None.

(** Every reply of the feed is a 200 whose body is not JSON. *)
Definition garbled_feed_env : Env :=
  ex_env None (λ _ _, Response 200 Undecodable) ex_link ex_file ∅ None.

(** The feed answers 200 with the JSON document [null]. *)
Definition null_feed_env : Env :=
  ex_env None (λ _ _, Response 200 (Decoded JNull)) ex_link ex_file ∅ None.

(** The feed answers 200 with an object that has no data list. *)
Definition no_data_feed_env : Env :=
  ex_env None (λ _ _, Response 200 (Decoded (JObj [("error", JStr "quota")])))
    ex_link ex_file ∅ None.

(** Link resolution answers 404. *)
Definition not_found_env : Env :=
  ex_env None (ex_feed [[ex_record "aa"]]) (λ _ _, Response 404 Undecodable) ex_file ∅ None.

(** The sample is already in the download directory. *)
Definition present_env : Env :=
  ex_env (Some 1) (ex_feed [[ex_record "aa"]]) ex_link ex_file
    {["downloaded_samples/aa" := 77]} None.

(** The byte stream breaks twice, then succeeds. *)
Definition flaky_file (url : string) (attempt : nat) : reply stream :=
  match attempt with
  | 0%nat => Response 200 (mkStream [40]%nat true 1)
  | 1%nat => Response 200 (mkStream []%nat true 1)
  | _ => Response 200 (mkStream [40; 2]%nat false 2)
  end.

Definition flaky_env : Env :=
  ex_env None (ex_feed [[ex_record "aa"]]) ex_link flaky_file ∅ None.

(** A world in which one task has been admitted. *)
Definition admitted_world (env : Env) : World :=
  upd_counters (set_pending 1) (world0 env).

Definition ex_entry : HashRecord :=
  mkRecord (Some "aa") (Some "https://feed.example/samples/aa") None None.

(** The stream of [flaky_env], on a disk that refuses to remove files. *)
Definition locked_file_env : Env :=
  mkEnv "0123456789abcdef" None 4 (ex_feed [[ex_record "aa"]]) ex_link flaky_file
    (λ _, Some "/samples/x.bin") false ∅ None false false (λ _ _, NoFault) (λ _ _, true).

(** There is room for one more task: the stop flag is clear and the limit,
    if any, is above downloaded_count + pending_downloads_count. *)
Definition has_room (limit : option Z) (c : Counters) : Prop :=
  should_stop c = false
  ∧ (limit = None
     ∨ ∃ m, limit = Some m ∧ downloaded_count c + pending_downloads_count c < m).

(** C1 as the specification states it, at one state: the sum of succeeded
    and in-flight is at most the limit. *)
Definition sum_within_limit (env : Env) (s : State) : Prop :=
  ∀ limit, MAX_DOWNLOAD env = Some limit →
    downloaded_count (counters (world s)) + pending_downloads_count (counters (world s))
    ≤ limit.

(** A page whose only entry has a list under 'sha256'. *)
Definition list_hash_env : Env :=
  ex_env (Some 1) (ex_feed [[JObj [("sha256", JArr [JStr "aa"])]]]) ex_link ex_file ∅ None.

(** A page whose only entry has a number under 'sha256'. *)
Definition number_hash_env : Env :=
  ex_env (Some 1) (ex_feed [[JObj [("sha256", JNum 5)]]]) ex_link ex_file ∅ None.

Definition is_report (e : event) : bool :=
  match e with EvReport _ _ => true | _ => false end.

(** Neither a request to the outside nor a submission to the pool. *)
Definition no_request (e : event) : bool :=
  negb (is_feed_request e || is_link_request e || is_file_request e || is_submit e).

Definition api_key_set (env : Env) : Prop :=
  API_KEY env ≠ "" ∧ API_KEY env ≠ "PUT_YOUR_METADEFENDER_API_KEY_HERE".

(** The states of a run whose limit is zero. *)
Definition zero_limit_state (env : Env) (s : State) : Prop :=
  tasks s = []
  ∧ forallb no_request (trace (world s)) = true
  ∧ (s = init env
     ∨ should_stop (counters (world s)) = true
       ∧ (main s = Debrief ∧ count_events is_report (trace (world s)) = 0%nat
          ∨ main s = Exited 0 ∧ count_events is_report (trace (world s)) = 1%nat)).

(** C6 as the specification words it: with a limit of 0, a run that has
    come to its end has set the stop flag, has requested no page and
    submitted no task, and has written its report. *)
Definition zero_limit_short_circuits (env : Env) : Prop :=
  MAX_DOWNLOAD env = Some 0 →
  ∀ sched s, run env sched (init env) = Some s → (∀ l, step env l s = None) →
    should_stop (counters (world s)) = true
    ∧ count_events is_feed_request (trace (world s)) = 0%nat
    ∧ count_events is_submit (trace (world s)) = 0%nat
    ∧ count_events is_report (trace (world s)) = 1%nat.

(** The script as it ships ([API_KEY = ""]), run with --maximum-download 0. *)
Definition shipped_key_env : Env :=
  mkEnv "" (Some 0) 16 (ex_feed [[ex_record "aa"]]) ex_link ex_file
    (λ _, Some "/samples/x.bin") false ∅ None false false (λ _ _, NoFault) (λ _ _, false).

(** C7 as the specification states it, for one fetch: a page whose payload
    cannot be parsed uses up the retry budget, that is, MAX_RETRIES + 1
    requests are made before the failure is reported. *)
Definition malformed_payload_is_retried (env : Env) (page_number : Z) (w : World) : Prop :=
  (∀ attempt, feed_reply env page_number attempt = Response 200 Undecodable) →
  (fetch_hashes_page env page_number w).2 = Ok None
  ∧ count_events is_feed_request (trace (fetch_hashes_page env page_number w).1)
    = (count_events is_feed_request (trace w) + S MAX_RETRIES)%nat.

(** C4 as the specification states it, for one task: a hash whose link
    resolution answers 404 is recorded as a failure. *)
Definition not_found_recorded_as_failure (env : Env) (entry : HashRecord) (w : World)
  : Prop :=
  (∀ attempt, ∃ body, link_reply env (hash_of entry) attempt = Response 404 body) →
  failed_count (counters (process_hash_entry env entry w))
  = failed_count (counters w) + 1.

(** C3 as the specification states it, for one task whose destination file
    is already there: it counts as a success, the succeeded counter goes up
    by one. *)
Definition already_present_counts_as_success (env : Env) (entry : HashRecord) (w : World)
  : Prop :=
  os_path_exists (path_join DOWNLOAD_DIR (hash_of entry)) w = true →
  downloaded_count (counters (process_hash_entry env entry w))
  = downloaded_count (counters w) + 1.

(** C8 as the specification states it, for one attempt on a path that was
    free at the start: when the stream breaks after the file was opened, the
    partial file is gone when the attempt is over. *)
Definition partial_file_always_removed (env : Env) (url name : string)
    (sha : option string) (w : World) : Prop :=
  files w !! download_path name sha = None →
  ∀ attempt response w1,
    between_attempts w w1 → file_breaks_midstream env url attempt = true →
    files (download_attempt env (JStr url) name (download_path name sha)
             attempt response w1).1 !! download_path name sha = None.

(** The events a task working on [path] may add to the trace. *)
Definition task_event (path : string) (e : event) : bool :=
  match e with
  | EvLinkRequest _ | EvFileRequest _ | EvFileRequestInvalid _ | EvSleep _
  | EvLog _ _ => true
  | EvRemove p => bool_decide (p = path)
  | EvFeedRequest _ | EvSubmit _ | EvReport _ _ => false
  end.

(** [w'] is [w] after some work of a task whose destination is [path]. *)
Record task_frame (path : string) (w w' : World) : Prop := mkTaskFrame {
  tf_pending : pending_downloads_count (counters w') = pending_downloads_count (counters w);
  tf_stop : should_stop (counters w') = should_stop (counters w);
  tf_processed : processed_hashes w' = processed_hashes w;
  tf_files : ∀ p, p ≠ path → files w' !! p = files w !! p;
  tf_trace : ∃ evs, trace w' = (trace w ++ evs)%list ∧ forallb (task_event path) evs = true
}.

(** The futures the main thread is holding. *)
Definition held_futures (p : pc) : list nat :=
  match p with
  | Submitting _ _ futures | Waiting _ futures => futures
  | _ => []
  end.

(** Every task that is not done is among the futures of the current page. *)
Definition barrier (s : State) : Prop :=
  ∀ i t, tasks s !! i = Some t → t_phase t ≠ Done → i ∈ held_futures (main s).

(** Limit 1, one sample, the whole run: main block, page 1, admission, the
    task, the barrier, page 2 (empty), the report. *)
Definition one_sample_full_sched : list label :=
  [LMain; LMain; LMain; LMain; LTask 0; LTask 0; LMain; LMain; LMain].

Definition api_key_unset (env : Env) : Prop :=
  API_KEY env = "" ∨ API_KEY env = "PUT_YOUR_METADEFENDER_API_KEY_HERE".

Definition unset_key_state (env : Env) (s : State) : Prop :=
  tasks s = []
  ∧ (s = init env
     ∨ main s = Exited 1
       ∧ trace (world s) = [EvLog CRITICAL "API_KEY is not set or is the placeholder"]
       ∧ processed_hashes (world s) = ∅
       ∧ files (world s) = initial_files env
       ∧ log_lines (world s) = initial_log env).

(** An environment whose API key was left empty. *)
Definition no_key_env : Env :=
  mkEnv "" (Some 5) 4 (ex_feed [[ex_record "aa"]]) ex_link ex_file (λ _, None) false
    ∅ (Some ["aa"]) false false (λ _ _, NoFault) (λ _ _, false).

Definition is_sleep (e : event) : bool :=
  match e with EvSleep _ => true | _ => false end.

(** A sleep follows an attempt only when another attempt is left. *)
Definition sleeps_after (attempt : nat) : nat :=
  if (attempt <? MAX_RETRIES)%nat then 1%nat else 0%nat.

Definition feed_failure_key (page_number : Z) : string :=
  "API Request Failed (Hash Feed - Page " +:+ pretty page_number +:+ ")".

(** A feed that never answers. *)
Definition dead_feed_env : Env :=
  ex_env None (λ _ _, NetError) ex_link ex_file ∅ None.

Definition unavailable_feed_env : Env :=
  ex_env None (λ _ _, Response 503 Undecodable) ex_link ex_file ∅ None.

(** The link is of no use: resolution raised (the body was not an object),
    or what it returned is false as a Python value: None, an empty string,
    list or object, zero, False. *)
Definition link_unusable (r : result (option json)) : Prop :=
  match r with
  | Raise _ => True
  | Ok link => py_truthy_opt link = false
  end.

(** Link resolution answers a JSON list. *)
Definition list_link_env : Env :=
  ex_env None (ex_feed [[ex_record "aa"]]) (λ _ _, Response 200 (Decoded (JArr [])))
    ex_file ∅ None.

(** The byte fetch on this link fails at this attempt with a request error:
    a link that is not a string makes [requests.get] raise every time, a
    string is fetched and the reply decides. *)
Definition fetch_attempt_fails (env : Env) (link : json) (attempt : nat) : bool :=
  match link with
  | JStr url => file_attempt_fails env url attempt
  | _ => true
  end.

(** The link resolves, the byte host never answers. *)
Definition dead_file_env : Env :=
  ex_env None (ex_feed [[ex_record "aa"]]) ex_link (λ _ _, NetError) ∅ None.

(** Link resolution answers a number as file_path. *)
Definition number_link_env : Env :=
  ex_env None (ex_feed [[ex_record "aa"]])
    (λ _ _, Response 200 (Decoded (JObj [("file_path", JNum 123)]))) ex_file ∅ None.

(** The hash sits on one line of the log: the log is kept as its list of
    lines, so a hash with a line break inside is outside this reading. *)
Fixpoint has_line_break (h : string) : bool :=
  match h with
  | EmptyString => false
  | String c rest =>
      Ascii.eqb c "010"%char || Ascii.eqb c "013"%char || has_line_break rest
  end.

(** A second run over the feed of [one_sample_env], started on the log
    that the first run left. *)
Definition second_run_env : Env :=
  ex_env (Some 1) (ex_feed [[ex_record "aa"]]) ex_link ex_file
    {["downloaded_samples/aa" := 42]} (Some ["aa"]).

(** Entries of a page without a usable hash. *)
Definition missing_hash (page : list HashRecord) : nat :=
  length (filter (λ r, truthy (sha256 r) = false) page).

Definition requests_page (p : Z) (e : event) : bool :=
  match e with
  | EvFeedRequest q => q =? p
  | _ => false
  end.

(** How often page [p] of the feed has been requested so far. *)
Definition page_requests (p : Z) (w : World) : nat :=
  count_events (requests_page p) (trace w).

(** What [fetch_hashes_page] may hand to the paginator: nothing, or an
    object whose data is a list. *)
Definition page_shape (r : result (option json)) : Prop :=
  match r with
  | Ok (Some j) => ∃ fields items, j = JObj fields ∧ obj_get "data" fields = Some (JArr items)
  | _ => True
  end.

(** The cursor of the paginator and the pages requested so far. *)
Record paging (s : State) : Prop := mkPaging {
  pg_budget : ∀ p, (page_requests p (world s) ≤ S MAX_RETRIES)%nat;
  pg_low : ∀ p, p < 1 → page_requests p (world s) = 0%nat;
  pg_cursor : match main s with
              | Start => ∀ p, page_requests p (world s) = 0%nat
              | PageLoop n => 1 ≤ n ∧ ∀ p, n ≤ p → page_requests p (world s) = 0%nat
              | Submitting n _ _ | Waiting n _ =>
                  1 ≤ n ∧ ∀ p, n < p → page_requests p (world s) = 0%nat
              | Debrief | Exited _ | Crashed _ | Untracked => True
              end
}.

(** Lines in the processed log. *)
Definition logged (w : World) : Z := Z.of_nat (length (default [] (log_lines w))).

(** Samples accounted for as present on disk: downloaded in this run, or
    found there already. *)
Definition booked (w : World) : Z :=
  downloaded_count (counters w) + skipped_existing_count (stats w).

(** What a finished [download_file] adds to the samples accounted for. *)
Definition booked_by (r : result bool) : Z :=
  match r with
  | Ok true => 1
  | _ => 0
  end.

(** * Properties *)

(** ** The retry loop: an invariant carried across attempts *)

Lemma retry_loop_ind {A : Type} (Inv : World → Prop) (Post : World → A → Prop)
    (body : nat → option Z → World → World * attempt_outcome A) (fallthrough : A) :
  (∀ attempt response w, Inv w →
     match body attempt response w with
     | (w', Return a) => Post w' a
     | (w', Retry _) => Inv w'
     end) →
  (∀ w, Inv w → Post w fallthrough) →
  ∀ attempts response w, Inv w →
    Post (retry_loop body fallthrough attempts response w).1
         (retry_loop body fallthrough attempts response w).2.
Proof.
  intros Hbody Hfall attempts.
  induction attempts as [|attempt rest IH]; intros response w Hw; simpl.
  - by apply Hfall.
  - specialize (Hbody attempt response w Hw).
    destruct (body attempt response w) as [w' [a|response']]; simpl; [done|].
    by apply IH.
Qed.

(** ** Admission: the three branches of the locked block *)

Lemma try_admit_cases limit c :
  (should_stop c = true ∧ try_admit limit c = (c, false))
  ∨ (should_stop c = false ∧
     (∃ m, limit = Some m ∧ m ≤ downloaded_count c + pending_downloads_count c) ∧
     try_admit limit c = (set_stop true c, false))
  ∨ (should_stop c = false ∧
     (limit = None ∨ ∃ m, limit = Some m ∧ downloaded_count c + pending_downloads_count c < m) ∧
     try_admit limit c = (set_pending (pending_downloads_count c + 1) c, true)).
Proof.
  unfold try_admit. destruct (should_stop c) eqn:Hs; [by left|right].
  destruct limit as [m|]; [|right; eauto].
  destruct (Z.leb_spec m (downloaded_count c + pending_downloads_count c)).
  - left. eauto.
  - right. split; [done|]. split; [right; eauto|done].
Qed.

(** ** The page filter *)

Lemma truthy_hash_of r : truthy (sha256 r) = true → sha256 r = Some (hash_of r) ∧ hash_of r ≠ "".
Proof.
  unfold truthy, hash_of. destruct (sha256 r) as [h|]; [|done]. simpl.
  destruct (String.eqb_spec h ""); [done|]. by intros _.
Qed.

Lemma filter_inv_init processed s : filter_inv processed [] (filter_init s).
Proof.
  split; simpl.
  - intros h. split; [set_solver|]. intros (_ & _ & r & Hr & _). by apply elem_of_nil in Hr.
  - constructor.
  - intros r Hr. by apply elem_of_nil in Hr.
  - constructor.
Qed.

Lemma filter_inv_step processed earlier st r :
  filter_inv processed earlier st →
  filter_inv processed (earlier ++ [r]) (filter_entry processed r st).
Proof.
  intros [Hseen Htr Hbs Hnd]. unfold filter_entry.
  destruct (truthy (sha256 r)) eqn:Ht; simpl.
  - destruct (truthy_hash_of r Ht) as [Hsha Hne]. fold (hash_of r).
    case_bool_decide as Hp; [|case_bool_decide as Hs]; split; simpl; try done.
    + intros h. rewrite Hseen. split.
      * intros (? & ? & r' & ? & ?). repeat split; try done. exists r'. split; [apply elem_of_app; by left|done].
      * intros (Hh & ? & r' & Hr' & Hs'). repeat split; try done.
        apply elem_of_app in Hr' as [Hr'|Hr']; [by exists r'|].
        apply list_elem_of_singleton in Hr' as ->. congruence.
    + intros h. rewrite Hseen. split.
      * intros (? & ? & r' & ? & ?). repeat split; try done. exists r'. split; [apply elem_of_app; by left|done].
      * intros (Hh & ? & r' & Hr' & Hs'). repeat split; try done.
        apply elem_of_app in Hr' as [Hr'|Hr']; [by exists r'|].
        apply list_elem_of_singleton in Hr' as ->.
        apply Hseen in Hs as (_ & _ & r'' & ? & ?). exists r''. split; [done|congruence].
    + intros h. rewrite elem_of_union, elem_of_singleton, Hseen. split.
      * intros [->|(? & ? & r' & ? & ?)].
        -- repeat split; try done. exists r. split; [apply elem_of_app; right; by apply list_elem_of_singleton|done].
        -- repeat split; try done. exists r'. split; [apply elem_of_app; by left|done].
      * intros (Hh & ? & r' & Hr' & Hs').
        apply elem_of_app in Hr' as [Hr'|Hr']; [right; eauto|].
        apply list_elem_of_singleton in Hr' as ->. left. congruence.
    + apply Forall_app. split; [done|]. by constructor.
    + intros r' Hr'. apply elem_of_app in Hr' as [Hr'|Hr'].
      * apply elem_of_union_r. by apply Hbs.
      * apply list_elem_of_singleton in Hr' as ->.
        apply elem_of_union_l. by apply elem_of_singleton.
    + rewrite fmap_app. simpl. apply NoDup_app. split; [done|]. split.
      * intros h Hh Hh'. apply list_elem_of_singleton in Hh' as ->.
        apply list_elem_of_fmap in Hh as (r' & Heq & Hr'). apply Hbs in Hr'.
        rewrite <- Heq in Hr'. done.
      * apply NoDup_singleton.
  - split; simpl; try done.
    intros h. rewrite Hseen. split.
    + intros (? & ? & r' & ? & ?). repeat split; try done. exists r'. split; [apply elem_of_app; by left|done].
    + intros (Hh & Hne & r' & Hr' & Hs'). repeat split; try done.
      apply elem_of_app in Hr' as [Hr'|Hr']; [by exists r'|].
      apply list_elem_of_singleton in Hr' as ->.
      unfold truthy in Ht. rewrite Hs' in Ht. simpl in Ht.
      destruct (String.eqb_spec h ""); done.
Qed.

Lemma build_page_batch_inv processed page : ∀ earlier st,
  filter_inv processed earlier st →
  filter_inv processed (earlier ++ page) (build_page_batch processed page st).
Proof.
  induction page as [|r page IH]; intros earlier st Hinv; simpl.
  - by rewrite app_nil_r.
  - replace (earlier ++ r :: page)%list with ((earlier ++ [r]) ++ page)%list
      by (by rewrite <- app_assoc).
    apply IH. by apply filter_inv_step.
Qed.

Lemma filter_entries_records processed entries : ∀ st st',
  filter_entries processed entries st = Ok (Some st') →
  ∃ page, as_records entries = Ok (Some page) ∧ st' = build_page_batch processed page st.
Proof.
  induction entries as [|e entries IH]; intros st st' H.
  - exists []. by inversion H.
  - cbn [filter_entries as_records] in *.
    destruct (as_record e) as [[r|]|x]; simpl in *; [|done..].
    destruct (IH _ _ H) as (page & -> & ->). by exists (r :: page).
Qed.


Lemma build_page_batch_spec processed page : ∀ earlier st,
  filter_inv processed earlier st →
  page_hash_list_for_submission (build_page_batch processed page st)
  = (page_hash_list_for_submission st ++ PageBatch_spec processed earlier page)%list.
Proof.
  induction page as [|r page IH]; intros earlier st Hinv; simpl.
  - by rewrite app_nil_r.
  - rewrite (IH (earlier ++ [r])%list) by (by apply filter_inv_step).
    unfold filter_entry. destruct (truthy (sha256 r)) eqn:Ht; simpl; [|done].
    destruct (truthy_hash_of r Ht) as [Hsha Hne]. fold (hash_of r).
    case_bool_decide as Hp; simpl; [done|].
    case_bool_decide as Hs; simpl.
    + apply (fi_seen _ _ _ Hinv) in Hs as (_ & _ & r' & Hr' & Hs').
      assert (existsb (λ r'0, bool_decide (sha256 r'0 = sha256 r)) earlier = true) as ->; [|done].
      apply existsb_exists. exists r'. split; [by apply list_elem_of_In|].
      apply bool_decide_eq_true. congruence.
    + assert (existsb (λ r'0, bool_decide (sha256 r'0 = sha256 r)) earlier = false) as ->.
      { apply not_true_is_false. intros (r' & Hr' & Heq)%existsb_exists.
        apply bool_decide_eq_true in Heq. apply Hs.
        apply (fi_seen _ _ _ Hinv). repeat split; try done.
        exists r'. split; [by apply list_elem_of_In|congruence]. }
      by rewrite <- app_assoc.
Qed.







(** ** What the network helpers leave alone *)

Lemma quiet_refl allowed w : quiet allowed w w.
Proof. split; try done. exists []. by rewrite app_nil_r. Qed.

Lemma quiet_trans allowed w1 w2 w3 :
  quiet allowed w1 w2 → quiet allowed w2 w3 → quiet allowed w1 w3.
Proof.
  intros [? ? ? ? ? (e1 & He1 & Ha1)] [? ? ? ? ? (e2 & He2 & Ha2)].
  split; try congruence.
  exists (e1 ++ e2)%list. split.
  - by rewrite He2, He1, app_assoc.
  - rewrite forallb_app. by rewrite Ha1, Ha2.
Qed.

Lemma quiet_emit allowed e w : allowed e = true → quiet allowed w (emit e w).
Proof. intros He. split; try done. exists [e]. simpl. by rewrite He. Qed.

Lemma skipped_update_statistics_plain status key s :
  key ≠ Some "Skipped Existing" →
  skipped_existing_count (update_statistics status key None None None s)
  = skipped_existing_count s.
Proof.
  intros Hk. unfold update_statistics. simpl.
  rewrite bool_decide_eq_false_2 by done.
  destruct status as [code|]; [destruct (code =? 0)|]; destruct (truthy key); done.
Qed.

Lemma quiet_stats allowed status key w :
  key ≠ Some "Skipped Existing" →
  quiet allowed w (upd_stats (update_statistics status key None None None) w).
Proof.
  intros Hk. split; try done.
  - simpl. by apply skipped_update_statistics_plain.
  - exists []. by rewrite app_nil_r.
Qed.

(** The error keys built in the helpers start with another letter. *)
Ltac not_skipped := let H := fresh in intros H; simpl in H; discriminate H.

Lemma quiet_emit_r allowed e w w' :
  allowed e = true → quiet allowed w w' → quiet allowed w (emit e w').
Proof. intros He Hw. eapply quiet_trans; [exact Hw|by apply quiet_emit]. Qed.

Lemma quiet_stats_r allowed status key w w' :
  key ≠ Some "Skipped Existing" → quiet allowed w w' →
  quiet allowed w (upd_stats (update_statistics status key None None None) w').
Proof. intros Hk Hw. eapply quiet_trans; [exact Hw|by apply quiet_stats]. Qed.

Ltac quiet_tac :=
  unfold log, sleep;
  repeat first
    [ assumption
    | apply quiet_refl
    | apply quiet_emit_r; [reflexivity|]
    | apply quiet_stats_r; [first [done | not_skipped]|] ].

Lemma fetch_hashes_attempt_quiet env page_number attempt response w :
  quiet feed_events w (fetch_hashes_attempt env page_number attempt response w).1.
Proof.
  unfold fetch_hashes_attempt.
  assert (Hfail : ∀ response w', quiet feed_events w w' →
            quiet feed_events w (feed_request_failed page_number attempt response w').1).
  { intros r w' Hw'. unfold feed_request_failed.
    destruct (attempt <? MAX_RETRIES)%nat, r; simpl; quiet_tac. }
  destruct (feed_reply env page_number attempt) as [|status body];
    [apply Hfail; quiet_tac|].
  destruct (raises_for_status status); [apply Hfail; quiet_tac|].
  destruct body as [|hashes_data]; simpl; [quiet_tac|].
  destruct (py_contains "data" hashes_data) as [[|]|]; simpl; [|quiet_tac..].
  destruct (py_getitem "data" hashes_data) as [d|]; simpl; [|quiet_tac].
  destruct (isinstance_list d); simpl; quiet_tac.
Qed.

Lemma fetch_hashes_page_quiet env page_number w :
  quiet feed_events w (fetch_hashes_page env page_number w).1.
Proof.
  unfold fetch_hashes_page.
  apply (retry_loop_ind (quiet feed_events w) (λ w' _, quiet feed_events w w'));
    [|done|apply quiet_refl].
  intros attempt response w' Hw'.
  pose proof (fetch_hashes_attempt_quiet env page_number attempt response w') as H.
  destruct (fetch_hashes_attempt env page_number attempt response w') as [w'' [a|r]];
    simpl in H; by eapply quiet_trans.
Qed.

Lemma get_download_link_attempt_quiet env h attempt response w :
  quiet link_events w (get_download_link_attempt env h attempt response w).1.
Proof.
  unfold get_download_link_attempt.
  assert (Hfail : ∀ response w', quiet link_events w w' →
            quiet link_events w (link_request_failed h attempt response w').1).
  { intros r w' Hw'. unfold link_request_failed.
    destruct (attempt <? MAX_RETRIES)%nat; simpl; quiet_tac. }
  destruct (link_reply env h attempt) as [|status body]; [apply Hfail; quiet_tac|].
  destruct (status =? 404); simpl; [quiet_tac|].
  destruct (raises_for_status status); [apply Hfail; quiet_tac|].
  destruct body as [|j]; simpl.
  - destruct (json_error_is_request_exception env); [apply Hfail; quiet_tac|].
    simpl. quiet_tac.
  - destruct j; simpl; quiet_tac.
Qed.

Lemma get_download_link_quiet env h w :
  quiet link_events w (get_download_link env h w).1.
Proof.
  unfold get_download_link.
  apply (retry_loop_ind (quiet link_events w) (λ w' _, quiet link_events w w'));
    [|done|apply quiet_refl].
  intros attempt response w' Hw'.
  pose proof (get_download_link_attempt_quiet env h attempt response w') as H.
  destruct (get_download_link_attempt env h attempt response w') as [w'' [a|r]];
    simpl in H; by eapply quiet_trans.
Qed.

(** ** Retry loops that return at a known attempt *)

Lemma retry_loop_returns_at {A : Type} (Inv : nat → World → Prop) (Post : World → A → Prop)
    (body : nat → option Z → World → World * attempt_outcome A) (fallthrough : A)
    (before : list nat) (last : nat) (after : list nat) :
  (∀ i attempt response w, before !! i = Some attempt → Inv i w →
     ∃ w' response', body attempt response w = (w', Retry response') ∧ Inv (S i) w') →
  (∀ response w, Inv (length before) w →
     ∃ w' a, body last response w = (w', Return a) ∧ Post w' a) →
  ∀ response w, Inv O w →
    Post (retry_loop body fallthrough (before ++ last :: after) response w).1
         (retry_loop body fallthrough (before ++ last :: after) response w).2.
Proof.
  revert Inv. induction before as [|b before IH]; intros Inv Hretry Hlast response w Hw.
  - simpl. destruct (Hlast response w Hw) as (w' & a & -> & HP). done.
  - simpl. destruct (Hretry O b response w eq_refl Hw) as (w' & r' & -> & Hw').
    apply (IH (λ i, Inv (S i))); [|done|done].
    intros i attempt r w0 Hi Hinv. by apply (Hretry (S i)).
Qed.

Lemma attempts_range_split k :
  (k ≤ MAX_RETRIES)%nat →
  attempts_range = (seq 0 k ++ k :: seq (S k) (MAX_RETRIES - k))%list.
Proof.
  intros Hk. unfold attempts_range.
  replace (MAX_RETRIES + 1)%nat with (k + S (MAX_RETRIES - k))%nat by lia.
  by rewrite seq_app.
Qed.

Lemma lookup_seq_0 k i attempt : seq 0 k !! i = Some attempt → attempt = i ∧ (i < k)%nat.
Proof. intros H. apply lookup_seq in H. simpl in H. done. Qed.

Lemma count_events_app f evs1 evs2 :
  count_events f (evs1 ++ evs2) = (count_events f evs1 + count_events f evs2)%nat.
Proof. unfold count_events. by rewrite filter_app, length_app. Qed.

Lemma count_events_none f allowed evs :
  (∀ e, allowed e = true → f e = false) →
  forallb allowed evs = true → count_events f evs = O.
Proof.
  intros Hf. induction evs as [|e evs IH]; [done|]. simpl.
  intros [He Hevs]%andb_true_iff. unfold count_events.
  rewrite filter_cons_False; [by apply IH|].
  by rewrite (Hf e He).
Qed.

Lemma quiet_count f allowed w w' :
  (∀ e, allowed e = true → f e = false) →
  quiet allowed w w' → count_events f (trace w') = count_events f (trace w).
Proof.
  intros Hf [_ _ _ _ _ (evs & -> & Hall)].
  rewrite count_events_app, (count_events_none f allowed evs); [lia|done..].
Qed.

(** ** What a worker does to the shared state *)

Lemma os_remove_untouched env path attempt w w' :
  os_remove env path attempt w = Some w' → untouched w w'.
Proof.
  unfold os_remove. destruct (remove_fails env path attempt); [done|].
  destruct (files w !! path); [|done]. by intros [= <-].
Qed.

Lemma download_failed_post env name path attempt response w0 w :
  untouched w0 w →
  match download_failed env name path attempt response w with
  | (w', Return ok) => download_post w0 w' ok
  | (w', Retry _) => untouched w0 w'
  end.
Proof.
  intros [Hc Hp]. unfold download_failed.
  set (w1 := if os_path_exists path (log ERROR "Download error" w) then _ else _).
  assert (H1 : untouched w0 w1).
  { subst w1. destruct (os_path_exists _ _); [|done].
    destruct (os_remove _ _ _ _) as [w'|] eqn:Hrm; [|done].
    apply os_remove_untouched in Hrm as [Hc' Hp']. simpl in *. split; congruence. }
  destruct H1 as [Hc1 Hp1].
  destruct (attempt <? MAX_RETRIES)%nat; [done|].
  set (w2 := match response with Some _ => _ | None => _ end).
  assert (H2 : untouched w0 w2).
  { subst w2. destruct response as [status|]; [destruct (status =? 0)|]; done. }
  destruct H2 as [Hc2 Hp2].
  unfold download_post. simpl. rewrite Hc2, Hp2. repeat split; lia.
Qed.

Lemma download_attempt_post env url name path attempt response w0 w :
  untouched w0 w →
  match download_attempt env url name path attempt response w with
  | (w', Return ok) => download_post w0 w' ok
  | (w', Retry _) => untouched w0 w'
  end.
Proof.
  intros Hw. unfold download_attempt.
  destruct url as [| | |url| |]; try (by apply download_failed_post).
  destruct (file_reply env url attempt) as [|status body].
  { by apply download_failed_post. }
  destruct (raises_for_status status).
  { by apply download_failed_post. }
  destruct (disk_faults env path attempt) as [| |size].
  - destruct (broken body).
    { by apply download_failed_post. }
    destruct Hw as [Hc Hp]. unfold download_post. simpl. rewrite Hc, Hp.
    repeat split; lia.
  - destruct Hw as [Hc Hp]. unfold download_post. simpl. by rewrite Hc, Hp.
  - destruct Hw as [Hc Hp]. unfold download_post. simpl. by rewrite Hc, Hp.
Qed.

Lemma download_file_post env url name sha w :
  download_post w (download_file env url name sha w).1 (download_file env url name sha w).2
  ∨ (download_file env url name sha w).2 = Ok true
    ∧ untouched w (download_file env url name sha w).1.
Proof.
  unfold download_file. destruct (os_path_exists _ w); [by right|left].
  apply (retry_loop_ind (untouched w) (download_post w)); [| |done].
  - intros attempt response w' Hw'. by apply download_attempt_post.
  - intros w' [Hc Hp]. unfold download_post. rewrite Hc, Hp. repeat split; lia.
Qed.

(** The [try] block of a task: pending count, stop flag and processed set
    are not touched; downloaded_count grows by at most one. *)
Lemma process_body_counters env entry w :
  let w' := process_body env entry w in
  pending_downloads_count (counters w') = pending_downloads_count (counters w)
  ∧ should_stop (counters w') = should_stop (counters w)
  ∧ processed_hashes w' = processed_hashes w
  ∧ 0 ≤ downloaded_count (counters w') - downloaded_count (counters w) ≤ 1
  ∧ 0 ≤ failed_count (counters w') - failed_count (counters w) ≤ 1.
Proof.
  unfold process_body. destruct (truthy (sha256 entry)); simpl; [|repeat split; lia].
  pose proof (get_download_link_quiet env (default "" (sha256 entry)) w) as [Hc Hp _ _ _ _].
  destruct (get_download_link _ _ w) as [w1 [link|x]]; simpl in *.
  2:{ rewrite Hc, Hp. repeat split; lia. }
  destruct (py_truthy_opt link); simpl.
  2:{ rewrite Hc, Hp. repeat split; lia. }
  pose proof (download_file_post env (default JNull link)
                (default "None" (derive_filename env entry)) (sha256 entry) w1) as Hd.
  destruct (download_file _ _ _ _ w1) as [w2 ok]; simpl in *.
  destruct Hd as [(H1 & H2 & H3 & H4)|[-> [H1 H2]]].
  - destruct ok as [[|]|x]; simpl; rewrite ?H1, ?H2, ?H3, <- ?Hc, <- ?Hp; repeat split; lia.
  - simpl. rewrite H1, H2, Hc, Hp. repeat split; lia.
Qed.

(** ** Steps of the main thread *)

Lemma main_start_counters env w :
  downloaded_count (counters (main_start env w).1) = downloaded_count (counters w)
  ∧ pending_downloads_count (counters (main_start env w).1)
    = pending_downloads_count (counters w)
  ∧ processed_hashes w ⊆ processed_hashes (main_start env w).1.
Proof.
  unfold main_start.
  destruct (String.eqb (API_KEY env) "" || _); [done|].
  unfold load_processed_hashes.
  destruct (log_lines w) as [lines|]; [destruct (log_read_fails env)|]; simpl;
    case_bool_decide; simpl;
    repeat match goal with |- context [if ?b then _ else _] => destruct b end;
    simpl; repeat split; try done; apply union_subseteq_l.
Qed.

(** What [main_page] can lead to.  A batch is the filter applied to the
    records of the page that [fetch_hashes_page] returned. *)
Lemma main_page_spec env page_number w :
  counters (main_page env page_number w).1 = counters w
  ∧ processed_hashes (main_page env page_number w).1 = processed_hashes w
  ∧ match (main_page env page_number w).2 with
    | Submitting n batch futures =>
        n = page_number ∧ futures = [] ∧
        ∃ hashes_data_page entries page st,
          (fetch_hashes_page env page_number w).2 = Ok (Some hashes_data_page)
          ∧ py_getitem "data" hashes_data_page = Ok (JArr entries)
          ∧ as_records entries = Ok (Some page)
          ∧ filter_inv (processed_hashes w) page st
          ∧ batch = page_hash_list_for_submission st
          ∧ batch = PageBatch_spec (processed_hashes w) [] page
    | PageLoop n => n = page_number ∨ n = page_number + 1
    | Debrief | Crashed _ | Untracked => True
    | Start | Waiting _ _ | Exited _ => False
    end.
Proof.
  unfold main_page. destruct (should_stop (counters w)); [done|].
  pose proof (fetch_hashes_page_quiet env page_number w) as [Hc Hp _ _ _ _].
  destruct (fetch_hashes_page env page_number w) as [w1 [[j|]|x]]; simpl in *; try done.
  destruct (if py_truthy j then py_contains "data" j else Ok false) as [[|]|]; simpl;
    [|split; [done|split; [done|by left]]|done].
  destruct (py_getitem "data" j) as [current|] eqn:Hget; simpl; [|done].
  destruct (negb (py_truthy current)); [done|].
  destruct current as [| | | |entries|]; try done.
  destruct (filter_entries (processed_hashes w1) entries (filter_init (stats w1)))
    as [[st|]|] eqn:Hf; [|done..].
  apply filter_entries_records in Hf as (page & Hrec & ->).
  pose proof (build_page_batch_inv (processed_hashes w1) page [] _
                (filter_inv_init _ (stats w1))) as Hinv.
  pose proof (build_page_batch_spec (processed_hashes w1) page [] _
                (filter_inv_init _ (stats w1))) as Hspec.
  simpl in Hinv, Hspec. rewrite Hp in *.
  destruct (page_hash_list_for_submission _) as [|r batch] eqn:Hb; simpl.
  - split; [done|]. split; [done|]. by right.
  - destruct (NUM_THREADS env <=? 0); [done|]. simpl.
    split; [done|]. split; [done|]. split; [done|]. split; [done|].
    eexists j, entries, page, _. split; [done|]. split; [done|]. split; [done|].
    split; [exact Hinv|]. rewrite Hb. done.
Qed.

(** ** Bookkeeping over the task list *)

Lemma sumZ_app g ts1 ts2 : sumZ g (ts1 ++ ts2) = sumZ g ts1 + sumZ g ts2.
Proof. induction ts1 as [|t ts1 IH]; simpl; [done|]. rewrite IH. lia. Qed.

Lemma sumZ_insert g ts : ∀ i t t',
  ts !! i = Some t → sumZ g (<[i := t']> ts) = sumZ g ts - g t + g t'.
Proof.
  induction ts as [|t0 ts IH]; intros i t t' Hi; [done|].
  destruct i as [|i]; simpl in *.
  - injection Hi as ->. lia.
  - rewrite (IH i t t' Hi). lia.
Qed.

Lemma sumZ_le g1 g2 ts :
  Forall (λ t, g1 t ≤ g2 t) ts → sumZ g1 ts ≤ sumZ g2 ts.
Proof. induction 1; simpl; lia. Qed.

Lemma sumZ_lookup_le g ts i t :
  Forall (λ t, 0 ≤ g t) ts → ts !! i = Some t → g t ≤ sumZ g ts.
Proof.
  intros Hall. revert i. induction Hall as [|t0 ts H0 Hall IH]; intros i Hi; [done|].
  assert (0 ≤ sumZ g ts) by (clear -Hall; induction Hall; simpl; lia).
  destruct i as [|i]; simpl in *.
  - injection Hi as ->. lia.
  - specialize (IH i Hi). lia.
Qed.

Lemma sumZ_zero g ts : Forall (λ t, g t = 0) ts → sumZ g ts = 0.
Proof. induction 1; simpl; lia. Qed.

(** ** The accounting invariant of a run *)

Lemma accounting_init env : accounting env (init env).
Proof. split; simpl; done. Qed.

Lemma accounting_main env s s' :
  accounting env s → step_main env s = Some s' → accounting env s'.
Proof.
  intros [Ht Htodo Hp Hl]. unfold step_main.
  destruct (main s) as [|n|n [|entry rest] futures|n futures| | | |] eqn:Hm; try done.
  - (* the main block *)
    intros [= <-]. pose proof (main_start_counters env (world s)) as (Hd & Hpe & _).
    assert (Hpc : match (main_start env (world s)).2 with
                  | Submitting _ _ _ => False | _ => True end).
    { unfold main_start. repeat match goal with
        |- context [if ?b then _ else _] => destruct b
      | |- context [let '(_, _) := ?x in _] => destruct x
      end; done. }
    split; simpl; [done| |congruence|].
    + by destruct ((main_start env (world s)).2).
    + intros limit HL H0. rewrite Hd, Hpe. by apply Hl.
  - (* one page *)
    intros [= <-]. pose proof (main_page_spec env n (world s)) as (Hc & _ & Hpc).
    split; simpl; [done| |by rewrite Hc|].
    + destruct ((main_page env n (world s)).2) as [| | m batch futs | | | | |]; try done.
      destruct Hpc as (_ & _ & j & entries & page & st & _ & _ & _ & Hinv & -> & _).
      by destruct Hinv.
    + intros limit HL H0. rewrite Hc. by apply Hl.
  - (* submission loop over *)
    intros [= <-]. by split.
  - (* one admission *)
    intros [= <-]. unfold main_submit.
    apply Forall_cons in Htodo as [Hentry Hrest].
    destruct (try_admit_cases (MAX_DOWNLOAD env) (counters (world s)))
      as [(Hs & ->)|[(Hs & (m & Hm' & Hge) & ->)|(Hs & Hlt & ->)]]; simpl.
    + rewrite Hs. by split.
    + by split.
    + rewrite Hs. split; simpl.
      * apply Forall_app. split; [done|]. constructor; [|done]. split; [done|].
        unfold recorded_w, active_w. simpl. lia.
      * done.
      * unfold in_flight_tasks in *. rewrite sumZ_app. simpl.
        unfold active_w at 2. simpl. lia.
      * intros limit HL H0. unfold unreleased_successes in *. rewrite sumZ_app. simpl.
        unfold recorded_w at 2. simpl.
        assert (0 ≤ sumZ recorded_w (tasks s) ≤ sumZ active_w (tasks s)) as Hrs.
        { split.
          - clear -Ht. induction Ht as [|t ts [_ ?] _ IH]; simpl; lia.
          - apply sumZ_le. eapply Forall_impl; [exact Ht|]. intros t [_ ?]. lia. }
        destruct Hlt as [Hnone|(m & Hm' & Hlt)]; [congruence|].
        assert (m = limit) as -> by congruence.
        specialize (Hl limit HL H0). lia.
  - (* the page's futures have completed *)
    destruct (forallb _ _); [|done]. intros [= <-]. unfold main_after_page.
    destruct (should_stop _); by split.
  - (* the report *)
    intros [= <-]. by split.
Qed.

Lemma accounting_task env i s s' :
  accounting env s → step_task env i s = Some s' → accounting env s'.
Proof.
  intros [Ht Htodo Hp Hl]. unfold step_task.
  destruct (tasks s !! i) as [[entry [|recorded|]]|] eqn:Hi; try done.
  - (* the try block *)
    intros [= <-].
    pose proof (process_body_counters env entry (world s)) as (Hpe & Hst & _ & Hd & _).
    simpl in Hpe, Hst, Hd.
    pose proof (Forall_lookup_1 _ _ _ _ Ht Hi) as [Htr _]. simpl in Htr.
    split; simpl.
    + apply Forall_insert; [done|]. split; [done|]. unfold recorded_w, active_w. simpl. lia.
    + done.
    + unfold in_flight_tasks in *. rewrite (sumZ_insert _ _ _ _ _ Hi), Hpe, Hp.
      unfold active_w. simpl. lia.
    + intros limit HL H0. unfold unreleased_successes in *.
      rewrite (sumZ_insert _ _ _ _ _ Hi), Hpe. unfold recorded_w at 2 3. simpl.
      specialize (Hl limit HL H0). lia.
  - (* the finally block *)
    intros [= <-].
    pose proof (Forall_lookup_1 _ _ _ _ Ht Hi) as [Htr Hrec]. simpl in Htr.
    unfold recorded_w, active_w in Hrec. simpl in Hrec.
    assert (1 ≤ pending_downloads_count (counters (world s))) as Hpos.
    { rewrite Hp. unfold in_flight_tasks.
      change 1 with (active_w (mkTask entry (Finishing recorded))).
      apply (sumZ_lookup_le _ _ i); [|done].
      apply Forall_forall. intros t _. unfold active_w. destruct (t_phase t); lia. }
    unfold process_finally. rewrite Htr.
    destruct (Z.ltb_spec 0 (pending_downloads_count (counters (world s)))); [|lia].
    split; simpl.
    + apply Forall_insert; [done|]. split; [done|]. unfold recorded_w, active_w. simpl. lia.
    + done.
    + unfold in_flight_tasks in *. rewrite (sumZ_insert _ _ _ _ _ Hi), Hp.
      unfold active_w. simpl. lia.
    + intros limit HL H0. unfold unreleased_successes in *.
      rewrite (sumZ_insert _ _ _ _ _ Hi). unfold recorded_w at 2 3. simpl.
      specialize (Hl limit HL H0). lia.
Qed.

Lemma accounting_step env l s s' :
  accounting env s → step env l s = Some s' → accounting env s'.
Proof. destruct l; [apply accounting_main|apply accounting_task]. Qed.

(** Any property kept by every step holds along every schedule. *)
Lemma run_invariant env (P : State → Prop) :
  (∀ l s s', P s → step env l s = Some s' → P s') →
  ∀ sched s s', P s → run env sched s = Some s' → P s'.
Proof.
  intros Hstep sched. induction sched as [|l sched IH]; intros s s' Hs; simpl.
  - by intros [= <-].
  - destruct (step env l s) as [s1|] eqn:H1; [|done].
    apply IH. by eapply Hstep.
Qed.

Lemma accounting_reachable env s : reachable env s → accounting env s.
Proof.
  intros [sched Hrun].
  eapply (run_invariant env (accounting env)); [apply accounting_step| |exact Hrun].
  apply accounting_init.
Qed.

(** ** The de-duplication invariant of a run *)

Lemma dedup_init env : dedup env (init env).
Proof.
  split; simpl; try done.
  - intros h Hh. by apply elem_of_nil in Hh.
  - intros h Hh. by apply elem_of_nil in Hh.
  - constructor.
Qed.

Lemma main_start_loaded env :
  paginating (main_start env (world0 env)).2 →
  loaded_set env ⊆ processed_hashes (main_start env (world0 env)).1.
Proof.
  unfold main_start, loaded_set.
  destruct (String.eqb (API_KEY env) "" || _); [done|].
  destruct (makedirs_fails env); [done|].
  destruct (load_processed_hashes env (world0 env)) as [w loaded] eqn:Hl. simpl.
  intros _.
  assert (loaded ⊆ processed_hashes
            (set_processed (processed_hashes w ∪ loaded) w)) as Hsub
    by apply union_subseteq_r.
  repeat match goal with |- context [if ?b then _ else _] => destruct b end; exact Hsub.
Qed.

Lemma task_hashes_insert ts i entry ph ph' :
  ts !! i = Some (mkTask entry ph) →
  task_hashes (<[i := mkTask entry ph']> ts) = task_hashes ts.
Proof.
  intros Hi. unfold task_hashes. rewrite list_fmap_insert. simpl.
  apply list_insert_id. rewrite list_lookup_fmap, Hi. done.
Qed.

Lemma process_finally_processed entry w :
  processed_hashes (process_finally entry w) = processed_hashes w.
Proof.
  unfold process_finally.
  repeat match goal with |- context [if ?b then _ else _] => destruct b end; done.
Qed.

Lemma dedup_task env i s s' :
  dedup env s → step_task env i s = Some s' → dedup env s'.
Proof.
  intros [Hst Hl Hp Hf Hn Ht]. unfold step_task.
  destruct (tasks s !! i) as [[entry [|recorded|]]|] eqn:Hi; try done; intros [= <-].
  - pose proof (process_body_counters env entry (world s)) as (_ & _ & Hpr & _).
    simpl in Hpr.
    split; simpl; rewrite ?(task_hashes_insert _ _ _ _ _ Hi), ?Hpr; try done.
    intros Hm. destruct (Hst Hm) as [_ Hts]. by rewrite Hts in Hi.
  - split; simpl;
      rewrite ?(task_hashes_insert _ _ _ _ _ Hi), ?process_finally_processed; try done.
    intros Hm. destruct (Hst Hm) as [_ Hts]. by rewrite Hts in Hi.
Qed.

Lemma dedup_main env s s' :
  dedup env s → step_main env s = Some s' → dedup env s'.
Proof.
  intros [Hst Hl Hp Hf Hn Ht]. unfold step_main.
  destruct (main s) as [|n|n [|entry rest] futures|n futures| | | |] eqn:Hm; try done.
  - (* the main block *)
    intros [= <-]. destruct (Hst eq_refl) as [Hw0 Hts]. rewrite Hw0 in *.
    pose proof (main_start_counters env (world0 env)) as (_ & _ & Hsub).
    assert (Hpc : match (main_start env (world0 env)).2 with
                  | Submitting _ _ _ | Start => False | _ => True end).
    { unfold main_start. repeat match goal with
        |- context [if ?b then _ else _] => destruct b
      | |- context [let '(_, _) := ?x in _] => destruct x
      end; done. }
    split; simpl; try done.
    + intros Heq. by rewrite Heq in Hpc.
    + apply main_start_loaded.
    + intros h Hh. apply Hsub. by apply Hp.
    + by destruct ((main_start env (world0 env)).2).
  - (* one page *)
    intros [= <-]. pose proof (main_page_spec env n (world s)) as (_ & Hpr & Hpc).
    split; simpl; rewrite ?Hpr; try done.
    + intros Heq. by rewrite Heq in Hpc.
    + intros _. by apply Hl.
    + destruct ((main_page env n (world s)).2) as [| | m batch futs | | | | |]; try done.
      destruct Hpc as (_ & _ & j & entries & page & st & _ & _ & _ & Hinv & -> & _). split.
      * by destruct Hinv.
      * intros r Hr. apply (fi_batch_seen _ _ _ Hinv) in Hr.
        by apply (fi_seen _ _ _ Hinv) in Hr as (? & _).
  - (* submission loop over *)
    intros [= <-]. by split.
  - (* one admission *)
    intros [= <-]. unfold main_submit. simpl in Hl.
    destruct Ht as [Hnd Hnew].
    rewrite fmap_cons in Hnd. apply NoDup_cons in Hnd as [Hentry Hnd].
    assert (Hfresh : hash_of entry ∉ processed_hashes (world s)).
    { apply Hnew. by left. }
    destruct (try_admit (MAX_DOWNLOAD env) (counters (world s))) as [c admitted]. simpl.
    destruct (should_stop c); [by split|].
    destruct admitted; split; simpl; try done.
    + intros _. etrans; [by apply Hl|]. apply union_subseteq_r.
    + intros h. unfold task_hashes. rewrite fmap_app, elem_of_app. simpl.
      rewrite list_elem_of_singleton. intros [Hh| ->].
      * apply elem_of_union_r. by apply Hp.
      * apply elem_of_union_l. by apply elem_of_singleton.
    + intros h. unfold task_hashes. rewrite fmap_app, elem_of_app. simpl.
      rewrite list_elem_of_singleton. intros [Hh| ->]; [by apply Hf|].
      intros Hin. apply Hfresh. by apply Hl.
    + unfold task_hashes. rewrite fmap_app. simpl. apply NoDup_app.
      split; [done|]. split; [|apply NoDup_singleton].
      intros h Hh ->%list_elem_of_singleton. apply Hfresh. by apply Hp.
    + split; [done|]. intros r Hr.
      rewrite elem_of_union, elem_of_singleton. intros [Heq|Hin].
      * apply Hentry. apply list_elem_of_fmap. exists r. split; [by symmetry|done].
      * apply (Hnew r); [by right|done].
    + split; [done|]. intros r Hr. apply Hnew. by right.
  - (* the page's futures have completed *)
    destruct (forallb _ _); [|done]. intros [= <-]. unfold main_after_page.
    destruct (should_stop _); by split.
  - (* the report *)
    intros [= <-]. by split.
Qed.

Lemma dedup_reachable env s : reachable env s → dedup env s.
Proof.
  intros [sched Hrun].
  eapply (run_invariant env (dedup env)); [| |exact Hrun].
  - intros [|i]; [apply dedup_main|apply dedup_task].
  - apply dedup_init.
Qed.

(** ** One feed page: what each kind of reply leads to *)

Lemma fetch_attempt_retried env page_number attempt response w :
  feed_attempt_fails env page_number attempt = true → (attempt < MAX_RETRIES)%nat →
  ∃ w' response',
    fetch_hashes_attempt env page_number attempt response w = (w', Retry response')
    ∧ quiet feed_events w w'
    ∧ error_counts (stats w') = error_counts (stats w)
    ∧ trace w' = (trace w ++ feed_retry_events page_number)%list.
Proof.
  assert (Hec : ∀ status s,
            error_counts (update_statistics (Some status) None None None None s)
            = error_counts s).
  { intros status s. unfold update_statistics. simpl. by destruct (status =? 0). }
  intros Hf Hlt.
  pose proof (fetch_hashes_attempt_quiet env page_number attempt response w) as Hq.
  revert Hq. unfold feed_attempt_fails in Hf. unfold fetch_hashes_attempt.
  apply Nat.ltb_lt in Hlt.
  destruct (feed_reply env page_number attempt) as [|status body].
  - unfold feed_request_failed. rewrite Hlt. intros Hq. eexists _, _. split; [done|].
    split; [exact Hq|]. simpl. destruct response; simpl; rewrite ?Hec, <- !app_assoc; done.
  - rewrite Hf. unfold feed_request_failed. rewrite Hlt. intros Hq. eexists _, _.
    split; [done|]. split; [exact Hq|]. simpl. rewrite !Hec, <- !app_assoc. done.
Qed.

Lemma fetch_attempt_undecodable env page_number attempt response status w :
  feed_reply env page_number attempt = Response status Undecodable →
  raises_for_status status = false →
  ∃ w', fetch_hashes_attempt env page_number attempt response w = (w', Return (Ok None))
        ∧ quiet feed_events w w'
        ∧ trace w' = (trace w ++ [EvFeedRequest page_number;
                                  EvLog ERROR "JSONDecodeError on hash feed page"])%list.
Proof.
  intros Hr Hs.
  pose proof (fetch_hashes_attempt_quiet env page_number attempt response w) as Hq.
  revert Hq. unfold fetch_hashes_attempt. rewrite Hr, Hs. intros Hq.
  eexists. split; [done|]. split; [exact Hq|]. simpl. by rewrite <- !app_assoc.
Qed.

Lemma fetch_attempt_decoded env page_number attempt response status j w :
  feed_reply env page_number attempt = Response status (Decoded j) →
  raises_for_status status = false →
  ∃ w', quiet feed_events w w' ∧
    match has_data_list j with
    | Raise e =>
        fetch_hashes_attempt env page_number attempt response w = (w', Return (Raise e))
        ∧ trace w' = (trace w ++ [EvFeedRequest page_number])%list
    | Ok true =>
        fetch_hashes_attempt env page_number attempt response w = (w', Return (Ok (Some j)))
        ∧ trace w' = (trace w ++ [EvFeedRequest page_number])%list
    | Ok false =>
        fetch_hashes_attempt env page_number attempt response w
          = (w', Return (Ok (Some empty_page)))
        ∧ trace w' = (trace w ++ [EvFeedRequest page_number;
                         EvLog WARNING "Page returned malformed data structure"])%list
        ∧ error_counts (stats w') = error_counts (stats w)
    end.
Proof.
  intros Hr Hs.
  pose proof (fetch_hashes_attempt_quiet env page_number attempt response w) as Hq.
  revert Hq. unfold fetch_hashes_attempt, has_data_list. rewrite Hr, Hs.
  assert (Hec : ∀ s, error_counts (update_statistics (Some status) None None None None s)
                     = error_counts s).
  { intros s. unfold update_statistics. simpl. by destruct (status =? 0). }
  destruct (py_contains "data" j) as [[|]|e]; simpl.
  - destruct (py_getitem "data" j) as [d|e]; simpl.
    + destruct (isinstance_list d); simpl; intros Hq; eexists; (split; [exact Hq|]);
        simpl; rewrite <- ?app_assoc, ?Hec; done.
    + intros Hq; eexists; (split; [exact Hq|]); done.
  - intros Hq; eexists; (split; [exact Hq|]); simpl; rewrite <- ?app_assoc, ?Hec; done.
  - intros Hq; eexists; (split; [exact Hq|]); done.
Qed.

Lemma after_retries_S retry k w0 :
  (after_retries retry k w0 ++ retry)%list = after_retries retry (S k) w0.
Proof.
  unfold after_retries. rewrite <- app_assoc. f_equal.
  induction k as [|k IH]; simpl; [by rewrite app_nil_r|].
  rewrite <- app_assoc. f_equal. exact IH.
Qed.

(** [fetch_hashes_page] when the first [k] attempts fail and attempt [k] gets a
    reply that does not: the loop returns what that attempt returns. *)
Lemma fetch_hashes_page_at env page_number k w
    (Post : World → result (option json) → Prop) :
  (k ≤ MAX_RETRIES)%nat →
  (∀ j, (j < k)%nat → feed_attempt_fails env page_number j = true) →
  (∀ response w', quiet feed_events w w' →
     error_counts (stats w') = error_counts (stats w) →
     trace w' = after_retries (feed_retry_events page_number) k w →
     ∃ w'' a, fetch_hashes_attempt env page_number k response w' = (w'', Return a)
              ∧ Post w'' a) →
  Post (fetch_hashes_page env page_number w).1 (fetch_hashes_page env page_number w).2.
Proof.
  intros Hk Hfail Hlast. unfold fetch_hashes_page. rewrite (attempts_range_split k Hk).
  apply (retry_loop_returns_at
           (λ i w', quiet feed_events w w'
                    ∧ error_counts (stats w') = error_counts (stats w)
                    ∧ trace w' = after_retries (feed_retry_events page_number) i w)).
  - intros i attempt response w' Hi (Hq & He & Ht).
    apply lookup_seq_0 in Hi as [-> Hi].
    destruct (fetch_attempt_retried env page_number i response w')
      as (w'' & r' & -> & Hq' & He' & Ht'); [by apply Hfail|lia|].
    eexists _, _. split; [done|]. split; [by eapply quiet_trans|].
    split; [congruence|]. by rewrite Ht', Ht, after_retries_S.
  - rewrite length_seq. intros response w' (Hq & He & Ht). by apply Hlast.
  - split; [apply quiet_refl|]. split; [done|].
    unfold after_retries. simpl. by rewrite app_nil_r.
Qed.

Lemma count_events_retries f retry k :
  count_events f (mjoin (replicate k retry)) = (k * count_events f retry)%nat.
Proof.
  induction k as [|k IH]; simpl; [done|]. by rewrite count_events_app, IH.
Qed.

(** ** Link resolution: what each kind of reply leads to *)

Lemma link_attempt_retried env h attempt response w :
  link_attempt_fails env h attempt = true → (attempt < MAX_RETRIES)%nat →
  ∃ w' response',
    get_download_link_attempt env h attempt response w = (w', Retry response')
    ∧ quiet link_events w w'
    ∧ trace w' = (trace w ++ link_retry_events h)%list.
Proof.
  intros Hf Hlt.
  pose proof (get_download_link_attempt_quiet env h attempt response w) as Hq.
  revert Hq. unfold link_attempt_fails in Hf. unfold get_download_link_attempt.
  apply Nat.ltb_lt in Hlt.
  destruct (link_reply env h attempt) as [|status body].
  - unfold link_request_failed. rewrite Hlt. intros Hq. eexists _, _. split; [done|].
    split; [exact Hq|]. simpl. by rewrite <- !app_assoc.
  - apply andb_true_iff in Hf as [H404 Hf]. apply negb_true_iff in H404. rewrite H404.
    destruct (raises_for_status status); simpl in Hf.
    + unfold link_request_failed. rewrite Hlt. intros Hq. eexists _, _.
      split; [done|]. split; [exact Hq|]. simpl. by rewrite <- !app_assoc.
    + destruct body as [|j]; [|done]. rewrite Hf.
      unfold link_request_failed. rewrite Hlt. intros Hq. eexists _, _.
      split; [done|]. split; [exact Hq|]. simpl. by rewrite <- !app_assoc.
Qed.

Lemma link_attempt_not_found env h attempt response body w :
  link_reply env h attempt = Response 404 body →
  ∃ w', get_download_link_attempt env h attempt response w = (w', Return (Ok None))
        ∧ quiet link_events w w'
        ∧ trace w' = (trace w ++ [EvLinkRequest h;
                                  EvLog WARNING "Download link not found (404)"])%list
        ∧ http_status_counts (stats w') = bump 404 (http_status_counts (stats w)).
Proof.
  intros Hr.
  pose proof (get_download_link_attempt_quiet env h attempt response w) as Hq.
  revert Hq. unfold get_download_link_attempt. rewrite Hr. simpl. intros Hq.
  eexists. split; [done|]. split; [exact Hq|]. simpl. by rewrite <- !app_assoc.
Qed.

Lemma get_download_link_at env h k w (Post : World → result (option json) → Prop) :
  (k ≤ MAX_RETRIES)%nat →
  (∀ j, (j < k)%nat → link_attempt_fails env h j = true) →
  (∀ response w', quiet link_events w w' →
     trace w' = after_retries (link_retry_events h) k w →
     ∃ w'' a, get_download_link_attempt env h k response w' = (w'', Return a)
              ∧ Post w'' a) →
  Post (get_download_link env h w).1 (get_download_link env h w).2.
Proof.
  intros Hk Hfail Hlast. unfold get_download_link. rewrite (attempts_range_split k Hk).
  apply (retry_loop_returns_at
           (λ i w', quiet link_events w w'
                    ∧ trace w' = after_retries (link_retry_events h) i w)).
  - intros i attempt response w' Hi [Hq Ht].
    apply lookup_seq_0 in Hi as [-> Hi].
    destruct (link_attempt_retried env h i response w') as (w'' & r' & -> & Hq' & Ht');
      [by apply Hfail|lia|].
    eexists _, _. split; [done|]. split; [by eapply quiet_trans|].
    by rewrite Ht', Ht, after_retries_S.
  - rewrite length_seq. intros response w' [Hq Ht]. by apply Hlast.
  - split; [apply quiet_refl|]. unfold after_retries. simpl. by rewrite app_nil_r.
Qed.

(** The finally block of an admitted task: one decrement. *)
Lemma process_finally_admitted entry w :
  truthy (sha256 entry) = true → 0 < pending_downloads_count (counters w) →
  process_finally entry w
  = upd_counters (λ c, set_pending (pending_downloads_count c - 1) c) w.
Proof.
  intros Ht Hp. unfold process_finally. rewrite Ht.
  by destruct (Z.ltb_spec 0 (pending_downloads_count (counters w))); [|lia].
Qed.

(** ** The byte fetch: what each kind of reply leads to *)

Lemma between_refl w : between_attempts w w.
Proof. by split. Qed.

(** The cleanup of lines 257-259 after a failed attempt. *)
Lemma download_cleanup env url name path attempt w0 w wf :
  files w0 !! path = None → between_attempts w0 w →
  file_attempt_fails env url attempt = true →
  remove_fails env path attempt = false →
  wf = (let w1 := emit (EvFileRequest url) w in
        match file_reply env url attempt with
        | NetError => w1
        | Response status body =>
            let w2 := upd_stats (update_statistics (Some status) None None None None) w1 in
            if raises_for_status status then w2
            else set_files (<[path := total_size (chunks body)]> (files w2)) w2
        end) →
  ∃ w', between_attempts w0 w'
    ∧ trace w' = (trace w ++ download_failure_events env url path attempt)%list
    ∧ ∀ r, download_failed env name path attempt r wf
           = if (attempt <? MAX_RETRIES)%nat
             then (sleep RETRY_DELAY w', Retry r)
             else
               let w1 := log ERROR "FINAL FAILED download" w' in
               let key := "Download Error Final (" +:+ name +:+ ")" in
               let w2 := upd_stats (λ s, set_error_counts (bump key (error_counts s)) s) w1 in
               let w3 := match r with
                         | Some status =>
                             if status =? 0 then w2
                             else upd_stats (λ s, set_http_status_counts
                                                    (bump status (http_status_counts s)) s) w2
                         | None => w2
                         end in
               (upd_counters (λ c, set_failed (failed_count c + 1) c) w3,
                Return (Ok false)).
Proof.
  intros Hfresh [Hc Hp Hf Hl] Hfail Hrm ->.
  unfold file_attempt_fails in Hfail.
  unfold download_failure_events, file_breaks_midstream, download_failed.
  assert (Hnone : files w !! path = None) by (by rewrite Hf).
  destruct (file_reply env url attempt) as [|status body]; simpl.
  - unfold os_path_exists. simpl. rewrite Hnone. simpl.
    eexists. split; [|split; [|intros r; reflexivity]].
    + by split.
    + simpl. by rewrite <- !app_assoc.
  - destruct (raises_for_status status); simpl in *.
    + unfold os_path_exists. simpl. rewrite Hnone. simpl.
      eexists. split; [|split; [|intros r; reflexivity]].
      * by split.
      * simpl. by rewrite <- !app_assoc.
    + rewrite Hfail. unfold os_path_exists, os_remove. rewrite Hrm. simpl.
      rewrite lookup_insert_eq. simpl.
      eexists. split; [|split; [|intros r; reflexivity]].
      * split; simpl; try done. rewrite delete_insert_eq. rewrite <- Hf.
        by apply delete_id.
      * simpl. by rewrite <- !app_assoc.
Qed.

Lemma download_attempt_fails_spec env url name path attempt response w0 w :
  files w0 !! path = None → between_attempts w0 w →
  file_attempt_fails env url attempt = true →
  disk_faults env path attempt = NoFault →
  remove_fails env path attempt = false →
  ∃ w' r, between_attempts w0 w'
    ∧ trace w' = (trace w ++ download_failure_events env url path attempt)%list
    ∧ download_attempt env (JStr url) name path attempt response w
      = if (attempt <? MAX_RETRIES)%nat
        then (sleep RETRY_DELAY w', Retry r)
        else
          let w1 := log ERROR "FINAL FAILED download" w' in
          let key := "Download Error Final (" +:+ name +:+ ")" in
          let w2 := upd_stats (λ s, set_error_counts (bump key (error_counts s)) s) w1 in
          let w3 := match r with
                    | Some status =>
                        if status =? 0 then w2
                        else upd_stats (λ s, set_http_status_counts
                                               (bump status (http_status_counts s)) s) w2
                    | None => w2
                    end in
          (upd_counters (λ c, set_failed (failed_count c + 1) c) w3, Return (Ok false)).
Proof.
  intros Hfresh Hb Hfail Hdisk Hrm.
  destruct (download_cleanup env url name path attempt w0 w _ Hfresh Hb Hfail Hrm eq_refl)
    as (w' & Hb' & Ht & Hd).
  unfold download_attempt. unfold file_attempt_fails in Hfail.
  destruct (file_reply env url attempt) as [|status body].
  - exists w', response. split; [done|]. split; [done|]. apply Hd.
  - exists w', (Some status). split; [done|]. split; [done|].
    destruct (raises_for_status status); [apply Hd|].
    rewrite Hdisk. simpl in Hfail. rewrite Hfail. apply Hd.
Qed.

Lemma download_attempt_succeeds_spec env url name path attempt response status body w :
  file_reply env url attempt = Response status body →
  raises_for_status status = false → broken body = false →
  disk_faults env path attempt = NoFault →
  ∃ w', download_attempt env (JStr url) name path attempt response w
        = (w', Return (Ok true))
    ∧ counters w' = set_downloaded (downloaded_count (counters w) + 1) (counters w)
    ∧ processed_hashes w' = processed_hashes w
    ∧ files w' = <[path := total_size (chunks body)]> (files w)
    ∧ log_lines w' = log_lines w
    ∧ trace w' = (trace w ++ [EvFileRequest url])%list.
Proof.
  intros Hr Hs Hb Hdisk. unfold download_attempt. rewrite Hr, Hs, Hdisk, Hb.
  eexists. split; [done|]. by repeat split.
Qed.

Lemma disk_ok_spec env path attempt :
  disk_ok env path attempt = true →
  disk_faults env path attempt = NoFault ∧ remove_fails env path attempt = false.
Proof.
  unfold disk_ok. destruct (disk_faults env path attempt); [|done..].
  by intros ->%negb_true_iff.
Qed.

Lemma download_retries_S env url path k :
  download_retries env url path (S k)
  = (download_retries env url path k ++ download_retry_events env url path k)%list.
Proof.
  unfold download_retries. rewrite seq_S, fmap_app, join_app. simpl.
  by rewrite app_nil_r.
Qed.

Lemma download_retries_counts env url path k :
  count_events is_remove (download_retries env url path k) = midstream_failures env url k
  ∧ count_events is_file_request (download_retries env url path k) = k.
Proof.
  induction k as [|k [IH1 IH2]]; [done|].
  rewrite download_retries_S, !count_events_app, IH1, IH2.
  unfold midstream_failures. rewrite seq_S, filter_app, length_app. simpl.
  unfold download_retry_events, download_failure_events.
  destruct (file_breaks_midstream env url k) eqn:Hm.
  - rewrite filter_cons_True by done. simpl. split; [done|]. unfold count_events. simpl. lia.
  - rewrite filter_cons_False by (by rewrite Hm). split; [done|].
    unfold count_events. simpl. lia.
Qed.

(** [download_file] on a fresh path when the first [k] attempts fail: the
    loop reaches attempt [k] with the path still free. *)
Lemma download_file_at env url name sha k w (Post : World → result bool → Prop) :
  files w !! download_path name sha = None →
  (k ≤ MAX_RETRIES)%nat →
  (∀ j, (j < k)%nat → file_attempt_fails env url j = true) →
  (∀ j, (j < k)%nat → disk_ok env (download_path name sha) j = true) →
  (∀ response w', between_attempts w w' →
     trace w' = (trace w ++ download_retries env url (download_path name sha) k)%list →
     ∃ w'' a, download_attempt env (JStr url) name (download_path name sha) k response w'
              = (w'', Return a) ∧ Post w'' a) →
  Post (download_file env (JStr url) name sha w).1
       (download_file env (JStr url) name sha w).2.
Proof.
  intros Hfresh Hk Hfail Hdisk Hlast. unfold download_file, os_path_exists.
  rewrite Hfresh, bool_decide_eq_false_2 by (by intros [??]).
  rewrite (attempts_range_split k Hk).
  set (path := download_path name sha) in *.
  apply (retry_loop_returns_at
           (λ i w', between_attempts w w'
                    ∧ trace w' = (trace w ++ download_retries env url path i)%list)).
  - intros i attempt response w' Hi [Hb Ht].
    apply lookup_seq_0 in Hi as [-> Hi].
    destruct (disk_ok_spec env path i (Hdisk i Hi)) as [Hnf Hrm].
    destruct (download_attempt_fails_spec env url name path i response w w' Hfresh Hb)
      as (w'' & r & Hb' & Ht' & ->); [by apply Hfail|done|done|].
    assert ((i <? MAX_RETRIES)%nat = true) as -> by (apply Nat.ltb_lt; lia).
    eexists _, _. split; [done|]. split; [by destruct Hb'|].
    simpl. rewrite Ht', Ht, download_retries_S. unfold download_retry_events.
    by rewrite <- !app_assoc.
  - rewrite length_seq. intros response w' [Hb Ht]. by apply Hlast.
  - split; [apply between_refl|]. unfold download_retries. simpl. by rewrite app_nil_r.
Qed.

(** ** Claims about admission and the in-flight count *)

Lemma try_admit_iff limit c : (try_admit limit c).2 = true ↔ has_room limit c.
Proof.
  unfold has_room.
  destruct (try_admit_cases limit c)
    as [(Hs & ->)|[(Hs & (m & -> & Hge) & ->)|(Hs & Hlt & ->)]]; simpl.
  - split; [done|]. intros [? _]. congruence.
  - split; [done|]. intros [_ [?|(m' & [= <-] & ?)]]; [done|lia].
  - done.
Qed.

Lemma main_submit_spec env page_number entry rest futures s :
  counters (world (main_submit env page_number entry rest futures s))
  = (try_admit (MAX_DOWNLOAD env) (counters (world s))).1
  ∧ tasks (main_submit env page_number entry rest futures s)
    = if (try_admit (MAX_DOWNLOAD env) (counters (world s))).2
      then (tasks s ++ [mkTask entry Queued])%list
      else tasks s.
Proof.
  unfold main_submit.
  destruct (try_admit_cases (MAX_DOWNLOAD env) (counters (world s)))
    as [(Hs & ->)|[(Hs & _ & ->)|(Hs & _ & ->)]]; simpl.
  - rewrite Hs. done.
  - done.
  - rewrite Hs. done.
Qed.

(** C2.  The admission decision: one step of the main thread, taken on the
    counters as they are at that moment.  It refuses when the stop flag is
    set; else, with a limit that downloaded + pending has reached, it sets the
    flag and refuses; else it increments pending and admits.  The entry is
    submitted exactly when there was room. *)
Theorem admission_is_one_atomic_decision
    (env : Env) (w : World) (page_number : Z) (entry : HashRecord)
    (rest : list HashRecord) (futures : list nat) (ts : list task) :
  let s := mkState w (Submitting page_number (entry :: rest) futures) ts in
  let c := counters w in
  let limit := MAX_DOWNLOAD env in
  ((try_admit limit c).2 = true ↔ has_room limit c)
  ∧ (should_stop c = true → try_admit limit c = (c, false))
  ∧ (should_stop c = false →
     (∃ m, limit = Some m ∧ m ≤ downloaded_count c + pending_downloads_count c) →
     try_admit limit c = (set_stop true c, false))
  ∧ (has_room limit c →
     try_admit limit c = (set_pending (pending_downloads_count c + 1) c, true))
  ∧ ∃ s', step env LMain s = Some s'
          ∧ counters (world s') = (try_admit limit c).1
          ∧ (has_room limit c → tasks s' = (ts ++ [mkTask entry Queued])%list)
          ∧ (¬ has_room limit c → tasks s' = ts).
Proof.
  intros s c limit.
  pose proof (try_admit_iff limit c) as Hiff.
  split; [exact Hiff|].
  assert (Hcases := try_admit_cases limit c).
  split; [|split; [|split]].
  - intros Hs. destruct Hcases as [(_ & Heq)|[(Hs' & _)|(Hs' & _)]]; [done|congruence..].
  - intros Hs (m & Hm & Hge).
    destruct Hcases as [(Hs' & _)|[(_ & _ & Heq)|(_ & Hlt & _)]]; [congruence|done|].
    destruct Hlt as [?|(m' & ? & ?)]; [congruence|].
    assert (m' = m) by congruence. lia.
  - intros Hroom%Hiff.
    destruct Hcases as [(_ & Heq)|[(_ & _ & Heq)|(_ & _ & Heq)]];
      rewrite Heq in Hroom; simpl in Hroom; done.
  - exists (main_submit env page_number entry rest futures s).
    split; [reflexivity|].
    destruct (main_submit_spec env page_number entry rest futures s) as [Hc Ht].
    split; [exact Hc|]. rewrite Ht. clear Hc Ht. subst s. simpl. fold c limit. split.
    + intros Hroom%Hiff. by rewrite Hroom.
    + intros Hno. destruct ((try_admit limit c).2) eqn:Ha; [|done].
      exfalso. apply Hno. by apply (try_admit_iff limit c).
Qed.

Lemma in_flight_nonneg ts : 0 ≤ in_flight_tasks ts.
Proof.
  unfold in_flight_tasks. induction ts as [|t ts IH]; simpl; [done|].
  unfold active_w at 1. destruct (t_phase t); lia.
Qed.

Lemma in_flight_all_done ts :
  Forall (λ t, t_phase t = Done) ts → in_flight_tasks ts = 0.
Proof.
  intros H. apply sumZ_zero. eapply Forall_impl; [exact H|].
  intros t Ht. unfold active_w. by rewrite Ht.
Qed.

Lemma step_main_pending env s s' :
  step_main env s = Some s' →
  (pending_downloads_count (counters (world s'))
     = pending_downloads_count (counters (world s)) ∧ tasks s' = tasks s)
  ∨ (pending_downloads_count (counters (world s'))
       = pending_downloads_count (counters (world s)) + 1
     ∧ ∃ entry, tasks s' = (tasks s ++ [mkTask entry Queued])%list).
Proof.
  unfold step_main.
  destruct (main s) as [|n|n [|entry rest] futures|n futures| | | |] eqn:Hm; try done.
  - intros [= <-]. left. simpl.
    by destruct (main_start_counters env (world s)) as (_ & -> & _).
  - intros [= <-]. left. simpl.
    by destruct (main_page_spec env n (world s)) as (-> & _).
  - intros [= <-]. by left.
  - intros [= <-]. unfold main_submit.
    destruct (try_admit_cases (MAX_DOWNLOAD env) (counters (world s)))
      as [(Hs & ->)|[(Hs & _ & ->)|(Hs & _ & ->)]]; simpl.
    + rewrite Hs. by left.
    + by left.
    + rewrite Hs. right. simpl. split; [done|]. by exists entry.
  - destruct (forallb _ _); [|done]. intros [= <-]. left. unfold main_after_page.
    by destruct (should_stop _).
  - intros [= <-]. by left.
Qed.

(** C9.  In every state a run can reach, pending_downloads_count is the
    number of submitted tasks whose finally block has not run yet, hence
    never negative, and zero once every task is done.  A step of the main
    thread leaves it alone or adds one together with a new queued task (the
    admission); the try block of a task leaves it alone; the finally block of
    a task takes exactly one off (the guard passes). *)
Theorem pending_count_never_negative (env : Env) (s : State) :
  reachable env s →
  0 ≤ pending_downloads_count (counters (world s))
  ∧ pending_downloads_count (counters (world s)) = in_flight_tasks (tasks s)
  ∧ (Forall (λ t, t_phase t = Done) (tasks s) →
     pending_downloads_count (counters (world s)) = 0)
  ∧ (∀ s', step env LMain s = Some s' →
       (pending_downloads_count (counters (world s'))
          = pending_downloads_count (counters (world s)) ∧ tasks s' = tasks s)
       ∨ (pending_downloads_count (counters (world s'))
            = pending_downloads_count (counters (world s)) + 1
          ∧ ∃ entry, tasks s' = (tasks s ++ [mkTask entry Queued])%list))
  ∧ (∀ i s', step env (LTask i) s = Some s' →
       ∃ entry,
         (tasks s !! i = Some (mkTask entry Queued)
          ∧ (∃ recorded, tasks s' !! i = Some (mkTask entry (Finishing recorded)))
          ∧ pending_downloads_count (counters (world s'))
            = pending_downloads_count (counters (world s)))
         ∨ (∃ recorded, tasks s !! i = Some (mkTask entry (Finishing recorded)))
           ∧ tasks s' !! i = Some (mkTask entry Done)
           ∧ pending_downloads_count (counters (world s'))
             = pending_downloads_count (counters (world s)) - 1).
Proof.
  intros Hreach. pose proof (accounting_reachable env s Hreach) as [Ht _ Hp _].
  split; [rewrite Hp; apply in_flight_nonneg|].
  split; [done|].
  split; [intros Hdone; rewrite Hp; by apply in_flight_all_done|].
  split; [intros s'; apply step_main_pending|].
  intros i s'. simpl. unfold step_task.
  destruct (tasks s !! i) as [[entry [|recorded|]]|] eqn:Hi; try done; intros [= <-].
  - exists entry. left. split; [done|]. simpl. split.
    + eexists. apply list_lookup_insert_eq. by eapply lookup_lt_Some.
    + by destruct (process_body_counters env entry (world s)) as (-> & _).
  - exists entry. right. split; [by eexists|]. simpl. split.
    + apply list_lookup_insert_eq. by eapply lookup_lt_Some.
    + pose proof (Forall_lookup_1 _ _ _ _ Ht Hi) as [Htr _]. simpl in Htr.
      rewrite process_finally_admitted; [done|done|].
      rewrite Hp. unfold in_flight_tasks.
      assert (active_w (mkTask entry (Finishing recorded)) ≤ sumZ active_w (tasks s)).
      { apply (sumZ_lookup_le _ _ i); [|done].
        apply Forall_forall. intros t _. unfold active_w. destruct (t_phase t); lia. }
      unfold active_w in H at 1. simpl in H. lia.
Qed.

(** C9 on a concrete run: the run of [mixed_page_env] after both admitted
    tasks have finished. *)
Lemma pending_count_never_negative_witness :
  0 ≤ pending_downloads_count
        (counters (world (state_after mixed_page_env mixed_page_sched)))
  ∧ pending_downloads_count
        (counters (world (state_after mixed_page_env mixed_page_sched)))
    = in_flight_tasks (tasks (state_after mixed_page_env mixed_page_sched)).
Proof.
  destruct (pending_count_never_negative mixed_page_env
              (state_after mixed_page_env mixed_page_sched)) as (H1 & H2 & _).
  - exists mixed_page_sched. vm_compute. reflexivity.
  - exact (conj H1 H2).
Defined.

(** ** Claims about the limit *)

Lemma unreleased_bounds ts :
  Forall task_ok ts → 0 ≤ unreleased_successes ts ≤ in_flight_tasks ts.
Proof.
  intros Ht. unfold unreleased_successes, in_flight_tasks. split.
  - induction Ht as [|t ts [_ ?] _ IH]; simpl; lia.
  - apply sumZ_le. eapply Forall_impl; [exact Ht|]. intros t [_ ?]. lia.
Qed.

(** C1, counterexample.  With limit 1 and one sample, after the task has
    counted its success (line 252) and before its finally block has run, the
    state is reachable and the sum is 2. *)
Lemma sum_exceeds_limit_before_release :
  reachable one_sample_env (state_after one_sample_env one_sample_sched)
  ∧ ¬ sum_within_limit one_sample_env (state_after one_sample_env one_sample_sched).
Proof.
  split.
  - exists one_sample_sched. vm_compute. reflexivity.
  - intros H. specialize (H 1 eq_refl). vm_compute in H. by apply H.
Qed.

(** C1, amended.  With a limit that is not negative, in every reachable
    state the sum of downloaded_count and pending_downloads_count exceeds the
    limit by at most the successes that tasks still in flight have already
    counted; so downloaded_count alone never exceeds the limit, and the sum
    is within the limit whenever no task stands between counting its success
    and its finally block. *)
Theorem sum_within_limit_up_to_unreleased (env : Env) (s : State) (limit : Z) :
  reachable env s → MAX_DOWNLOAD env = Some limit → 0 ≤ limit →
  downloaded_count (counters (world s)) + pending_downloads_count (counters (world s))
    - unreleased_successes (tasks s) ≤ limit
  ∧ 0 ≤ unreleased_successes (tasks s) ≤ pending_downloads_count (counters (world s))
  ∧ downloaded_count (counters (world s)) ≤ limit
  ∧ (unreleased_successes (tasks s) = 0 → sum_within_limit env s).
Proof.
  intros Hreach Hlimit Hpos.
  pose proof (accounting_reachable env s Hreach) as [Ht _ Hp Hl].
  specialize (Hl limit Hlimit Hpos).
  pose proof (unreleased_bounds (tasks s) Ht) as Hu. rewrite <- Hp in Hu.
  split; [done|]. split; [done|]. split; [lia|].
  intros H0 limit' Hlimit'. assert (limit' = limit) as -> by congruence. lia.
Qed.

(** The amended bound at the state of the counterexample: 1 + 1 - 1 ≤ 1. *)
Lemma sum_within_limit_up_to_unreleased_witness :
  downloaded_count (counters (world (state_after one_sample_env one_sample_sched)))
    + pending_downloads_count (counters (world (state_after one_sample_env one_sample_sched)))
    - unreleased_successes (tasks (state_after one_sample_env one_sample_sched)) ≤ 1
  ∧ downloaded_count (counters (world (state_after one_sample_env one_sample_sched))) ≤ 1.
Proof.
  destruct (sum_within_limit_up_to_unreleased one_sample_env
              (state_after one_sample_env one_sample_sched) 1) as (H1 & _ & H2 & _).
  - exists one_sample_sched. vm_compute. reflexivity.
  - reflexivity.
  - lia.
  - exact (conj H1 H2).
Defined.

(** ** Claim about the page batch *)

Lemma loaded_set_spec env lines :
  initial_log env = Some lines → log_read_fails env = false →
  ∀ h, h ∈ loaded_set env ↔ h ≠ "" ∧ ∃ l, l ∈ lines ∧ strip l = h.
Proof.
  intros Hlog Hread h. unfold loaded_set, load_processed_hashes. simpl.
  rewrite Hlog, Hread. simpl.
  rewrite elem_of_list_to_set, list_elem_of_filter, list_elem_of_fmap.
  split.
  - intros [Hne (l & -> & Hl)]. split; [done|]. by exists l.
  - intros [Hne (l & Hl & <-)]. split; [done|]. by exists l.
Qed.




(** The batch of the page of [mixed_page_env]: the log lists "bb", the page
    repeats "aa" and has an entry without hash. *)
Example mixed_page_batch :
  (main_page mixed_page_env 1 (main_start mixed_page_env (world0 mixed_page_env)).1).2
  = Submitting 1
      [mkRecord (Some "aa") (Some "https://feed.example/samples/aa") None None;
       mkRecord (Some "cc") (Some "https://feed.example/samples/cc") None None] [].
Proof. vm_compute. reflexivity. Qed.

(** The membership test of line 356 on a list raises TypeError, which
    nothing in [fetch_and_process_hashes] or in the main block handles. *)
Example unhashable_hash_crashes_the_run :
  (main_page list_hash_env 1 (main_start list_hash_env (world0 list_hash_env)).1).2
  = Crashed TypeError.
Proof. vm_compute. reflexivity. Qed.

(** A number under 'sha256' takes the run out of the data model: the state
    is marked and has no successor. *)
Example number_hash_leaves_the_data_model :
  (main_page number_hash_env 1 (main_start number_hash_env (world0 number_hash_env)).1).2
  = Untracked
  ∧ ∀ s, main s = Untracked → step_main number_hash_env s = None.
Proof. split; [vm_compute; reflexivity|]. intros s Hm. unfold step_main. by rewrite Hm. Qed.

(** ** Claim about a limit of zero *)

Lemma main_start_zero_limit env :
  MAX_DOWNLOAD env = Some 0 → api_key_set env → makedirs_fails env = false →
  (main_start env (world0 env)).2 = Debrief
  ∧ should_stop (counters (main_start env (world0 env)).1) = true
  ∧ forallb no_request (trace (main_start env (world0 env)).1) = true
  ∧ count_events is_report (trace (main_start env (world0 env)).1) = 0%nat.
Proof.
  intros Hlimit [Hk1 Hk2] Hmk. unfold main_start.
  destruct (String.eqb_spec (API_KEY env) ""); [done|].
  destruct (String.eqb_spec (API_KEY env) "PUT_YOUR_METADEFENDER_API_KEY_HERE"); [done|].
  simpl. rewrite Hmk, Hlimit. unfold load_processed_hashes. simpl.
  destruct (initial_log env) as [lines|]; [destruct (log_read_fails env)|]; done.
Qed.

Lemma zero_limit_step env l s s' :
  MAX_DOWNLOAD env = Some 0 → api_key_set env → makedirs_fails env = false →
  zero_limit_state env s → step env l s = Some s' → zero_limit_state env s'.
Proof.
  intros Hlimit Hkey Hmk (Hts & Htr & Hcase).
  destruct l as [|i]; simpl.
  2:{ unfold step_task. by rewrite Hts. }
  unfold step_main.
  destruct Hcase as [->|[Hstop [[Hm Hr]|[Hm Hr]]]]; [|rewrite Hm..]; simpl; [| |done].
  - intros [= <-]. simpl.
    destruct (main_start_zero_limit env Hlimit Hkey Hmk) as (Hpc & Hs & Hall & Hrep).
    split; [done|]. split; [done|]. right. split; [done|]. by left.
  - intros [= <-]. simpl. split; [done|]. split.
    + cbn [world trace emit main_report fst]. rewrite forallb_app, Htr. done.
    + right. split; [done|]. right. split; [done|].
      cbn [world trace emit main_report fst]. rewrite count_events_app, Hr. done.
Qed.

Lemma no_request_counts evs :
  forallb no_request evs = true →
  count_events is_feed_request evs = 0%nat ∧ count_events is_submit evs = 0%nat.
Proof.
  intros H. split; apply (count_events_none _ no_request); try done;
    intros [] He; done.
Qed.

(** C6, counterexample.  With the API key as shipped and a limit of 0, the
    run ends after one step of the main thread, at the [exit(1)] of
    line 443: the stop flag is not set and no report is written. *)
Lemma zero_limit_without_key_makes_no_report :
  ¬ zero_limit_short_circuits shipped_key_env.
Proof.
  intros H.
  destruct (H eq_refl [LMain] (state_after shipped_key_env [LMain])) as (Hs & _).
  - vm_compute. reflexivity.
  - intros [|i]; vm_compute; reflexivity.
  - vm_compute in Hs. discriminate.
Qed.

(** C6, amended.  With a limit of exactly 0, the API key set (without it
    the main block exits at line 443) and the download directory created
    (line 445): the first step of the main thread sets the stop flag and goes
    straight to the report, the second writes the report and ends the run;
    and along every schedule no feed page is requested, no task is submitted,
    and the stop flag is set from the first step on. *)
Theorem zero_limit_submits_nothing (env : Env) :
  MAX_DOWNLOAD env = Some 0 → api_key_set env → makedirs_fails env = false →
  (∃ s1 s2,
     step env LMain (init env) = Some s1
     ∧ main s1 = Debrief ∧ should_stop (counters (world s1)) = true
     ∧ count_events is_feed_request (trace (world s1)) = 0%nat
     ∧ step env LMain s1 = Some s2
     ∧ main s2 = Exited 0
     ∧ last (trace (world s2)) = Some (EvReport 0 0))
  ∧ ∀ sched s, run env sched (init env) = Some s →
      tasks s = []
      ∧ count_events is_feed_request (trace (world s)) = 0%nat
      ∧ count_events is_submit (trace (world s)) = 0%nat
      ∧ (s = init env
         ∨ should_stop (counters (world s)) = true
           ∧ (main s = Debrief ∨ main s = Exited 0))
      ∧ ((∀ l, step env l s = None) →
         should_stop (counters (world s)) = true
         ∧ count_events is_report (trace (world s)) = 1%nat).
Proof.
  intros Hlimit Hkey Hmk.
  destruct (main_start_zero_limit env Hlimit Hkey Hmk) as (Hpc & Hs & Hall & Hrep).
  pose proof (main_start_counters env (world0 env)) as (Hd & _).
  assert (Hf : failed_count (counters (main_start env (world0 env)).1) = 0).
  { clear. unfold main_start.
    repeat match goal with
    | |- context [if ?b then _ else _] => destruct b
    | |- context [let '(_, _) := ?x in _] => destruct x eqn:?
    end; simpl; try done;
    unfold load_processed_hashes in *; simpl in *;
    repeat match goal with
    | H : context [match ?x with _ => _ end] |- _ => destruct x
    end; simplify_eq; done. }
  split.
  - eexists _, _. split; [reflexivity|]. simpl. split; [done|]. split; [done|].
    split; [by apply no_request_counts|].
    unfold step_main. simpl. rewrite Hpc. split; [reflexivity|]. simpl.
    split; [done|]. rewrite last_snoc. simpl in Hd. by rewrite Hd, Hf.
  - intros sched s Hrun.
    assert (zero_limit_state env s) as (Hts & Htr & Hcase).
    { eapply (run_invariant env (zero_limit_state env)); [| |exact Hrun].
      - intros l s0 s'. by apply zero_limit_step.
      - split; [done|]. split; [done|]. by left. }
    destruct (no_request_counts _ Htr).
    split; [done|]. split; [done|]. split; [done|]. split.
    + destruct Hcase as [->|[Hstop [[Hm _]|[Hm _]]]]; [by left|right..]; split; eauto.
    + intros Hend. destruct Hcase as [->|[Hstop [[Hm _]|[Hm Hr]]]]; [| |done].
      * by specialize (Hend LMain).
      * specialize (Hend LMain). simpl in Hend. unfold step_main in Hend.
        by rewrite Hm in Hend.
Qed.

(** The run of [zero_limit_env]: two steps of the main thread. *)
Lemma zero_limit_submits_nothing_witness :
  ∃ s1 s2,
    step zero_limit_env LMain (init zero_limit_env) = Some s1
    ∧ main s1 = Debrief ∧ should_stop (counters (world s1)) = true
    ∧ count_events is_feed_request (trace (world s1)) = 0%nat
    ∧ step zero_limit_env LMain s1 = Some s2
    ∧ main s2 = Exited 0
    ∧ last (trace (world s2)) = Some (EvReport 0 0).
Proof.
  apply (zero_limit_submits_nothing zero_limit_env).
  - reflexivity.
  - split; vm_compute; discriminate.
  - reflexivity.
Defined.

(** Without the API key the main block exits with status 1 before anything
    else, whatever the limit. *)
Lemma missing_api_key_exits env :
  API_KEY env = "" →
  ∃ s, step env LMain (init env) = Some s ∧ main s = Exited 1 ∧ step env LMain s = None.
Proof.
  intros Hk.
  assert (Hs : main_start env (world0 env)
               = (log CRITICAL "API_KEY is not set or is the placeholder" (world0 env),
                  Exited 1)).
  { unfold main_start. by rewrite Hk. }
  eexists. split; [reflexivity|]. unfold step_main. simpl. rewrite Hs. done.
Qed.

(** ** Claims about the replies of the feed *)

Lemma main_page_of_fetch env page_number w :
  should_stop (counters w) = false →
  match (fetch_hashes_page env page_number w).2 with
  | Raise e =>
      main_page env page_number w = ((fetch_hashes_page env page_number w).1, Crashed e)
  | Ok None =>
      main_page env page_number w
      = (log ERROR "Failed to fetch page or API feed exhausted. Stopping."
           (fetch_hashes_page env page_number w).1, Debrief)
  | Ok (Some j) =>
      j = empty_page →
      main_page env page_number w = ((fetch_hashes_page env page_number w).1, Debrief)
  end.
Proof.
  intros Hs. unfold main_page. rewrite Hs.
  destruct (fetch_hashes_page env page_number w) as [w1 [[j|]|e]]; simpl; try done.
  by intros ->.
Qed.

Lemma count_after_retries_feed page_number k w :
  count_events is_feed_request (after_retries (feed_retry_events page_number) k w)
  = (count_events is_feed_request (trace w) + k)%nat.
Proof.
  unfold after_retries. rewrite count_events_app, count_events_retries.
  replace (count_events is_feed_request (feed_retry_events page_number)) with 1%nat
    by reflexivity.
  lia.
Qed.

(** C7, counterexample.  A feed that answers every request with an
    undecodable body: the fetch gives up after one request. *)
Lemma malformed_payload_not_retried :
  ¬ malformed_payload_is_retried garbled_feed_env 1 (world0 garbled_feed_env).
Proof.
  intros H. destruct H as [_ H]; [done|].
  vm_compute in H. discriminate H.
Qed.

(** C7, amended.  A feed reply whose body cannot be parsed is logged and
    ends the fetch of that page at once with a definitive failure: no request
    follows it, whatever is left of the retry budget (the budget is spent on
    request errors only), and the paginator stops. *)
Theorem malformed_payload_ends_the_fetch
    (env : Env) (page_number : Z) (k : nat) (status : Z) (w : World) :
  (k ≤ MAX_RETRIES)%nat →
  (∀ j, (j < k)%nat → feed_attempt_fails env page_number j = true) →
  feed_reply env page_number k = Response status Undecodable →
  raises_for_status status = false →
  (fetch_hashes_page env page_number w).2 = Ok None
  ∧ trace (fetch_hashes_page env page_number w).1
    = (after_retries (feed_retry_events page_number) k w
       ++ [EvFeedRequest page_number; EvLog ERROR "JSONDecodeError on hash feed page"])%list
  ∧ count_events is_feed_request (trace (fetch_hashes_page env page_number w).1)
    = (count_events is_feed_request (trace w) + S k)%nat
  ∧ (should_stop (counters w) = false → (main_page env page_number w).2 = Debrief).
Proof.
  intros Hk Hfail Hreply Hstatus.
  assert (H : (fetch_hashes_page env page_number w).2 = Ok None
              ∧ trace (fetch_hashes_page env page_number w).1
                = (after_retries (feed_retry_events page_number) k w
                   ++ [EvFeedRequest page_number;
                       EvLog ERROR "JSONDecodeError on hash feed page"])%list).
  { apply (fetch_hashes_page_at env page_number k w
             (λ w' a, a = Ok None ∧ trace w' = _)); [done|done|].
    intros response w' _ _ Ht.
    destruct (fetch_attempt_undecodable env page_number k response status w' Hreply Hstatus)
      as (w'' & -> & _ & Ht').
    eexists _, _. split; [done|]. split; [done|]. by rewrite Ht', Ht. }
  destruct H as [Hres Htrace]. split; [done|]. split; [done|]. split.
  - rewrite Htrace, count_events_app, count_after_retries_feed.
    replace (count_events is_feed_request [_; _]) with 1%nat by reflexivity.
    lia.
  - intros Hs. pose proof (main_page_of_fetch env page_number w Hs) as Hm.
    rewrite Hres in Hm. by rewrite Hm.
Qed.

(** On [garbled_feed_env] the first reply is the undecodable one: one request. *)
Lemma malformed_payload_ends_the_fetch_witness :
  (fetch_hashes_page garbled_feed_env 1 (world0 garbled_feed_env)).2 = Ok None
  ∧ count_events is_feed_request
      (trace (fetch_hashes_page garbled_feed_env 1 (world0 garbled_feed_env)).1) = 1%nat.
Proof.
  destruct (malformed_payload_ends_the_fetch garbled_feed_env 1 0 200
              (world0 garbled_feed_env)) as (H1 & _ & H2 & _).
  - unfold MAX_RETRIES. lia.
  - intros j Hj. lia.
  - reflexivity.
  - reflexivity.
  - exact (conj H1 H2).
Defined.

(** A decoded body that is an object without a data list (or any value on
    which the test of line 175 is false): the fetch returns the empty page, the
    paginator takes it for the end of the feed; no request follows, and no
    error is counted. *)
Lemma page_without_data_list_is_empty_page env page_number k status j w :
  (k ≤ MAX_RETRIES)%nat →
  (∀ i, (i < k)%nat → feed_attempt_fails env page_number i = true) →
  feed_reply env page_number k = Response status (Decoded j) →
  raises_for_status status = false →
  has_data_list j = Ok false →
  (fetch_hashes_page env page_number w).2 = Ok (Some empty_page)
  ∧ trace (fetch_hashes_page env page_number w).1
    = (after_retries (feed_retry_events page_number) k w
       ++ [EvFeedRequest page_number;
           EvLog WARNING "Page returned malformed data structure"])%list
  ∧ error_counts (stats (fetch_hashes_page env page_number w).1) = error_counts (stats w)
  ∧ (should_stop (counters w) = false →
     main_page env page_number w = ((fetch_hashes_page env page_number w).1, Debrief)).
Proof.
  intros Hk Hfail Hreply Hstatus Hdata.
  assert (H : (fetch_hashes_page env page_number w).2 = Ok (Some empty_page)
              ∧ trace (fetch_hashes_page env page_number w).1
                = (after_retries (feed_retry_events page_number) k w
                   ++ [EvFeedRequest page_number;
                       EvLog WARNING "Page returned malformed data structure"])%list
              ∧ error_counts (stats (fetch_hashes_page env page_number w).1)
                = error_counts (stats w)).
  { apply (fetch_hashes_page_at env page_number k w
             (λ w' a, a = Ok (Some empty_page) ∧ trace w' = _
                      ∧ error_counts (stats w') = _)); [done|done|].
    intros response w' _ He Ht.
    destruct (fetch_attempt_decoded env page_number k response status j w' Hreply Hstatus)
      as (w'' & _ & Hcase).
    rewrite Hdata in Hcase. destruct Hcase as (-> & Ht' & He').
    eexists _, _. split; [done|]. split; [done|]. split; [by rewrite Ht', Ht|congruence]. }
  destruct H as (Hres & Htrace & Herr). repeat split; try done.
  intros Hs. pose proof (main_page_of_fetch env page_number w Hs) as Hm.
  rewrite Hres in Hm. by apply Hm.
Qed.

Lemma object_without_data_list fields :
  (∀ items, obj_get "data" fields ≠ Some (JArr items)) →
  has_data_list (JObj fields) = Ok false.
Proof.
  intros Hno. unfold has_data_list. simpl.
  destruct (obj_get "data" fields) as [d|] eqn:Hd; simpl; [|done].
  destruct d; try done. by destruct (Hno items).
Qed.

(** C10 at the failing inputs.  A feed reply that decodes to [null], to a
    boolean or to a number makes the structure test of line 175 raise
    TypeError; no handler of [fetch_hashes_page] or of the paginator catches
    it, so the main thread dies at that point and can take no further step:
    no empty page is returned, and no report is written. *)
Theorem scalar_feed_body_crashes_the_run
    (env : Env) (page_number : Z) (k : nat) (status : Z) (j : json) (w : World) :
  (k ≤ MAX_RETRIES)%nat →
  (∀ i, (i < k)%nat → feed_attempt_fails env page_number i = true) →
  feed_reply env page_number k = Response status (Decoded j) →
  raises_for_status status = false →
  py_contains "data" j = Raise TypeError →
  should_stop (counters w) = false →
  (fetch_hashes_page env page_number w).2 = Raise TypeError
  ∧ (main_page env page_number w).2 = Crashed TypeError
  ∧ (∀ ts, step env LMain (mkState (main_page env page_number w).1
                             (main_page env page_number w).2 ts) = None)
  ∧ count_events is_report (trace (main_page env page_number w).1)
    = count_events is_report (trace w)
  ∧ (∀ b n, py_contains "data" JNull = Raise TypeError
            ∧ py_contains "data" (JBool b) = Raise TypeError
            ∧ py_contains "data" (JNum n) = Raise TypeError).
Proof.
  intros Hk Hfail Hreply Hstatus Hj Hs.
  assert (Hdata : has_data_list j = Raise TypeError).
  { unfold has_data_list. by rewrite Hj. }
  assert (H : (fetch_hashes_page env page_number w).2 = Raise TypeError).
  { apply (fetch_hashes_page_at env page_number k w (λ w' a, a = Raise TypeError));
      [done|done|].
    intros response w' _ _ _.
    destruct (fetch_attempt_decoded env page_number k response status j w' Hreply Hstatus)
      as (w'' & _ & Hcase).
    rewrite Hdata in Hcase. destruct Hcase as (-> & _). by eexists _, _. }
  pose proof (main_page_of_fetch env page_number w Hs) as Hm. rewrite H in Hm.
  rewrite Hm. simpl. repeat split; try done.
  apply (quiet_count _ feed_events); [by intros []|apply fetch_hashes_page_quiet].
Qed.

(** On [null_feed_env] the first reply decodes to [null]. *)
Lemma scalar_feed_body_crashes_the_run_witness :
  (fetch_hashes_page null_feed_env 1 (world0 null_feed_env)).2 = Raise TypeError
  ∧ (main_page null_feed_env 1 (world0 null_feed_env)).2 = Crashed TypeError.
Proof.
  destruct (scalar_feed_body_crashes_the_run null_feed_env 1 0 200 JNull
              (world0 null_feed_env)) as (H1 & H2 & _).
  - unfold MAX_RETRIES. lia.
  - intros i Hi. lia.
  - reflexivity.
  - reflexivity.
  - reflexivity.
  - reflexivity.
  - exact (conj H1 H2).
Defined.

(** The run of [null_feed_env]: the main block, then the first page. *)
Example null_feed_run :
  main <$> run null_feed_env [LMain; LMain] (init null_feed_env) = Some (Crashed TypeError)
  ∧ run null_feed_env [LMain; LMain; LMain] (init null_feed_env) = None.
Proof. split; vm_compute; reflexivity. Qed.

(** The run of [no_data_feed_env] ends with the report. *)
Example no_data_feed_run :
  (λ s, (main s, trace (world s)))
    <$> run no_data_feed_env [LMain; LMain; LMain] (init no_data_feed_env)
  = Some (Exited 0,
          [EvFeedRequest 1; EvLog WARNING "Page returned malformed data structure";
           EvReport 0 0]).
Proof. vm_compute. reflexivity. Qed.

(** ** Claims about one worker task *)

Lemma process_body_of_link env entry w :
  truthy (sha256 entry) = true →
  process_body env entry w
  = match get_download_link env (hash_of entry) w with
    | (w1, Raise _) => log ERROR "Unexpected error in process_hash_entry" w1
    | (w1, Ok download_link) =>
        if py_truthy_opt download_link
        then
          match download_file env (default JNull download_link)
                  (default "None" (derive_filename env entry)) (sha256 entry) w1 with
          | (w2, Ok true) => save_processed_hash (hash_of entry) w2
          | (w2, Ok false) => w2
          | (w2, Raise _) => log ERROR "Unexpected error in process_hash_entry" w2
          end
        else log WARNING "No download link. Download attempt aborted." w1
    end.
Proof. intros Ht. unfold process_body. by rewrite Ht. Qed.

Lemma count_after_retries_link f h k w :
  count_events f (after_retries (link_retry_events h) k w)
  = (count_events f (trace w) + k * count_events f (link_retry_events h))%nat.
Proof. unfold after_retries. by rewrite count_events_app, count_events_retries. Qed.

(** C4, counterexample.  Link resolution answers 404 for an admitted
    task: after the task, failed_count is still 0. *)
Lemma not_found_is_not_counted_as_failed :
  ¬ not_found_recorded_as_failure not_found_env ex_entry (admitted_world not_found_env).
Proof.
  intros H. unfold not_found_recorded_as_failure in H.
  assert (H' := H (λ _, ex_intro _ Undecodable eq_refl)). vm_compute in H'. discriminate H'.
Qed.

(** C4, amended.  When link resolution answers 404 (after [k] attempts
    that failed with request errors), the resolution stops there: no further
    link request, no byte fetch, no file or log change; the in-flight count
    goes down by one; failed_count and downloaded_count stay as they are (the
    404 is counted among the HTTP status codes only). *)
Theorem link_not_found_is_terminal
    (env : Env) (entry : HashRecord) (k : nat) (body : decoded) (w : World) :
  truthy (sha256 entry) = true →
  (k ≤ MAX_RETRIES)%nat →
  (∀ j, (j < k)%nat → link_attempt_fails env (hash_of entry) j = true) →
  link_reply env (hash_of entry) k = Response 404 body →
  0 < pending_downloads_count (counters w) →
  let w' := process_hash_entry env entry w in
  trace w'
  = (after_retries (link_retry_events (hash_of entry)) k w
     ++ [EvLinkRequest (hash_of entry);
         EvLog WARNING "Download link not found (404)";
         EvLog WARNING "No download link. Download attempt aborted."])%list
  ∧ count_events is_link_request (trace w')
    = (count_events is_link_request (trace w) + S k)%nat
  ∧ count_events is_file_request (trace w') = count_events is_file_request (trace w)
  ∧ failed_count (counters w') = failed_count (counters w)
  ∧ downloaded_count (counters w') = downloaded_count (counters w)
  ∧ pending_downloads_count (counters w') = pending_downloads_count (counters w) - 1
  ∧ files w' = files w
  ∧ log_lines w' = log_lines w.
Proof.
  intros Ht Hk Hfail Hreply Hpos w'.
  assert (H : (get_download_link env (hash_of entry) w).2 = Ok None
              ∧ quiet link_events w (get_download_link env (hash_of entry) w).1
              ∧ trace (get_download_link env (hash_of entry) w).1
                = (after_retries (link_retry_events (hash_of entry)) k w
                   ++ [EvLinkRequest (hash_of entry);
                       EvLog WARNING "Download link not found (404)"])%list).
  { apply (get_download_link_at env (hash_of entry) k w
             (λ w1 a, a = Ok None ∧ quiet link_events w w1 ∧ trace w1 = _)); [done|done|].
    intros response w1 Hq Htr.
    destruct (link_attempt_not_found env (hash_of entry) k response body w1 Hreply)
      as (w2 & -> & Hq' & Htr' & _).
    eexists _, _. split; [done|]. split; [done|]. split; [by eapply quiet_trans|].
    by rewrite Htr', Htr. }
  destruct H as (Hres & [Hc Hp Hf Hl _ _] & Htrace).
  assert (Hbody : process_body env entry w
                  = log WARNING "No download link. Download attempt aborted."
                      (get_download_link env (hash_of entry) w).1).
  { rewrite (process_body_of_link env entry w Ht).
    destruct (get_download_link env (hash_of entry) w) as [w1 r]. simpl in *. by subst r. }
  subst w'. unfold process_hash_entry.
  rewrite process_finally_admitted; [|done|by rewrite Hbody; simpl; rewrite Hc].
  rewrite Hbody. simpl. rewrite Hc, Hf, Hl, Htrace.
  split; [by rewrite <- !app_assoc|].
  rewrite !count_events_app, !count_after_retries_link.
  replace (count_events is_link_request (link_retry_events (hash_of entry))) with 1%nat
    by reflexivity.
  replace (count_events is_file_request (link_retry_events (hash_of entry))) with 0%nat
    by reflexivity.
  replace (count_events is_link_request [_; _]) with 1%nat by reflexivity.
  replace (count_events is_file_request [_; _]) with 0%nat by reflexivity.
  replace (count_events is_link_request [_]) with 0%nat by reflexivity.
  replace (count_events is_file_request [_]) with 0%nat by reflexivity.
  repeat split; lia.
Qed.

(** On [not_found_env]: one link request, nothing counted as failed. *)
Lemma link_not_found_is_terminal_witness :
  count_events is_link_request
    (trace (process_hash_entry not_found_env ex_entry (admitted_world not_found_env)))
  = 1%nat
  ∧ failed_count
      (counters (process_hash_entry not_found_env ex_entry (admitted_world not_found_env)))
    = 0.
Proof.
  destruct (link_not_found_is_terminal not_found_env ex_entry 0 Undecodable
              (admitted_world not_found_env)) as (_ & H1 & _ & H2 & _).
  - reflexivity.
  - unfold MAX_RETRIES. lia.
  - intros j Hj. lia.
  - reflexivity.
  - simpl. lia.
  - exact (conj H1 H2).
Defined.

Lemma download_path_of_hash name entry :
  truthy (sha256 entry) = true →
  download_path name (sha256 entry) = path_join DOWNLOAD_DIR (hash_of entry).
Proof. intros Ht. unfold download_path. by rewrite Ht. Qed.

Lemma download_file_present env url name sha w :
  os_path_exists (download_path name sha) w = true →
  download_file env url name sha w
  = (upd_stats (update_statistics None (Some "Skipped Existing") None None None) w,
     Ok true).
Proof. intros He. unfold download_file. by rewrite He. Qed.

(** C3, counterexample.  The file of "aa" is in the download directory and
    link resolution succeeds: after the task, downloaded_count is still 0. *)
Lemma already_present_is_not_counted :
  ¬ already_present_counts_as_success present_env ex_entry (admitted_world present_env).
Proof.
  intros H. unfold already_present_counts_as_success in H.
  assert (H' := H eq_refl). vm_compute in H'. discriminate H'.
Qed.

(** C3, amended.  For an admitted task whose destination file is already on
    disk, no byte fetch is made and no file changes; the in-flight count goes
    down by one; downloaded_count and failed_count stay as they are, so the
    file takes a unit of the limit only while the task is in flight.  When
    link resolution yields a link, the skip is counted in
    skipped_existing_count and the hash is appended to the processed log. *)
Theorem already_present_is_skipped (env : Env) (entry : HashRecord) (w : World) :
  truthy (sha256 entry) = true →
  os_path_exists (path_join DOWNLOAD_DIR (hash_of entry)) w = true →
  0 < pending_downloads_count (counters w) →
  let w' := process_hash_entry env entry w in
  count_events is_file_request (trace w') = count_events is_file_request (trace w)
  ∧ files w' = files w
  ∧ downloaded_count (counters w') = downloaded_count (counters w)
  ∧ failed_count (counters w') = failed_count (counters w)
  ∧ pending_downloads_count (counters w') = pending_downloads_count (counters w) - 1
  ∧ (∀ link, (get_download_link env (hash_of entry) w).2 = Ok link →
       py_truthy_opt link = true →
       skipped_existing_count (stats w') = skipped_existing_count (stats w) + 1
       ∧ log_lines w' = Some (default [] (log_lines w) ++ [hash_of entry])%list).
Proof.
  intros Ht Hex Hpos w'.
  pose proof (get_download_link_quiet env (hash_of entry) w) as Hq.
  pose proof (quiet_count is_file_request link_events _ _
                ltac:(by intros []) Hq) as Hcount.
  destruct Hq as [Hc Hp Hf Hl Hsk _].
  assert (Hbody : ∃ wb,
            process_body env entry w = wb
            ∧ counters wb = counters w ∧ files wb = files w
            ∧ count_events is_file_request (trace wb) = count_events is_file_request (trace w)
            ∧ (∀ link, (get_download_link env (hash_of entry) w).2 = Ok link →
                 py_truthy_opt link = true →
                 skipped_existing_count (stats wb) = skipped_existing_count (stats w) + 1
                 ∧ log_lines wb = Some (default [] (log_lines w) ++ [hash_of entry])%list)).
  { eexists. split; [reflexivity|]. rewrite (process_body_of_link env entry w Ht).
    destruct (get_download_link env (hash_of entry) w) as [w1 [link|e]]; simpl in *.
    - destruct (py_truthy_opt link) eqn:Hlink.
      + rewrite download_file_present.
        2:{ rewrite (download_path_of_hash _ entry Ht). unfold os_path_exists in *.
            by rewrite Hf. }
        simpl. rewrite Hc, Hf, Hcount. split; [done|]. split; [done|]. split; [done|].
        intros link' _ _. by rewrite Hsk, Hl.
      + simpl. rewrite Hc, Hf, count_events_app, Hcount.
        split; [done|]. split; [done|]. split; [done|].
        intros link' [= <-]. congruence.
    - simpl. rewrite Hc, Hf, count_events_app, Hcount.
      split; [done|]. split; [done|]. split; [done|]. intros link' [=]. }
  destruct Hbody as (wb & Hwb & Hcb & Hfb & Hnb & Hlink).
  subst w'. unfold process_hash_entry. rewrite Hwb.
  rewrite process_finally_admitted; [|done|by rewrite Hcb].
  simpl. rewrite Hcb. split; [done|]. split; [done|]. split; [done|]. split; [done|].
  split; [done|]. exact Hlink.
Qed.

(** On [present_env]: no byte fetch, nothing downloaded, the slot given back. *)
Lemma already_present_is_skipped_witness :
  count_events is_file_request
    (trace (process_hash_entry present_env ex_entry (admitted_world present_env))) = 0%nat
  ∧ downloaded_count
      (counters (process_hash_entry present_env ex_entry (admitted_world present_env))) = 0
  ∧ pending_downloads_count
      (counters (process_hash_entry present_env ex_entry (admitted_world present_env))) = 0.
Proof.
  destruct (already_present_is_skipped present_env ex_entry (admitted_world present_env))
    as (H1 & _ & H2 & _ & H3 & _).
  - reflexivity.
  - reflexivity.
  - simpl. lia.
  - exact (conj H1 (conj H2 H3)).
Defined.

(** ** Claim about the byte fetch *)

Lemma download_file_succeeds_at env url name sha k status body w :
  files w !! download_path name sha = None →
  (k ≤ MAX_RETRIES)%nat →
  (∀ j, (j < k)%nat → file_attempt_fails env url j = true) →
  (∀ j, (j < k)%nat → disk_ok env (download_path name sha) j = true) →
  file_reply env url k = Response status body →
  raises_for_status status = false → broken body = false →
  disk_faults env (download_path name sha) k = NoFault →
  (download_file env (JStr url) name sha w).2 = Ok true
  ∧ counters (download_file env (JStr url) name sha w).1
    = set_downloaded (downloaded_count (counters w) + 1) (counters w)
  ∧ files (download_file env (JStr url) name sha w).1
    = <[download_path name sha := total_size (chunks body)]> (files w)
  ∧ trace (download_file env (JStr url) name sha w).1
    = (trace w ++ download_retries env url (download_path name sha) k
         ++ [EvFileRequest url])%list.
Proof.
  intros Hfresh Hk Hfail Hdisk Hreply Hs Hb Hnf.
  apply (download_file_at env url name sha k w
           (λ w' a, a = Ok true
              ∧ counters w' = set_downloaded (downloaded_count (counters w) + 1) (counters w)
              ∧ files w' = <[download_path name sha := total_size (chunks body)]> (files w)
              ∧ trace w' = (trace w ++ download_retries env url (download_path name sha) k
                              ++ [EvFileRequest url])%list));
    [done|done|done|done|].
  intros response w' [Hc _ Hf _] Ht.
  destruct (download_attempt_succeeds_spec env url name (download_path name sha) k
              response status body w' Hreply Hs Hb Hnf)
    as (w'' & -> & Hc' & _ & Hf' & _ & Ht').
  eexists _, _. split; [done|]. split; [done|].
  rewrite Hc', Hf', Ht', Hc, Hf, Ht. by rewrite <- app_assoc.
Qed.

Lemma download_file_exhausted env url name sha w :
  files w !! download_path name sha = None →
  (∀ j, (j ≤ MAX_RETRIES)%nat → file_attempt_fails env url j = true) →
  (∀ j, (j ≤ MAX_RETRIES)%nat → disk_ok env (download_path name sha) j = true) →
  (download_file env (JStr url) name sha w).2 = Ok false
  ∧ counters (download_file env (JStr url) name sha w).1
    = set_failed (failed_count (counters w) + 1) (counters w)
  ∧ files (download_file env (JStr url) name sha w).1 = files w
  ∧ trace (download_file env (JStr url) name sha w).1
    = (trace w ++ download_retries env url (download_path name sha) MAX_RETRIES
         ++ download_failure_events env url (download_path name sha) MAX_RETRIES
         ++ [EvLog ERROR "FINAL FAILED download"])%list.
Proof.
  intros Hfresh Hfail Hdisk.
  apply (download_file_at env url name sha MAX_RETRIES w
           (λ w' a, a = Ok false
              ∧ counters w' = set_failed (failed_count (counters w) + 1) (counters w)
              ∧ files w' = files w
              ∧ trace w'
                = (trace w ++ download_retries env url (download_path name sha) MAX_RETRIES
                     ++ download_failure_events env url (download_path name sha) MAX_RETRIES
                     ++ [EvLog ERROR "FINAL FAILED download"])%list));
    [done|done|by intros j Hj; apply Hfail; lia|by intros j Hj; apply Hdisk; lia|].
  intros response w' Hb Ht.
  destruct (disk_ok_spec env _ MAX_RETRIES (Hdisk MAX_RETRIES (le_n _))) as [Hnf Hrm].
  destruct (download_attempt_fails_spec env url name (download_path name sha) MAX_RETRIES
              response w w' Hfresh Hb) as (w'' & r & [Hc _ Hf _] & Ht' & ->);
    [by apply Hfail|done|done|].
  rewrite Nat.ltb_irrefl.
  eexists _, _. split; [done|]. split; [done|].
  destruct r as [st|]; [destruct (st =? 0)|];
    cbn -[download_retries download_failure_events]; rewrite Hc, Hf, Ht', Ht;
    by rewrite <- !app_assoc.
Qed.

(** C8, counterexample.  The stream breaks after 40 bytes and [os.remove]
    raises [OSError] (the branch of line 259): the partial file is still
    there when the loop goes to sleep. *)
Lemma partial_file_survives_a_failed_remove :
  ¬ partial_file_always_removed locked_file_env "https://cdn.example/aa" "aa" (Some "aa")
      (admitted_world locked_file_env).
Proof.
  intros H.
  specialize (H eq_refl 0%nat None (admitted_world locked_file_env)
                (between_refl _) eq_refl).
  vm_compute in H. discriminate H.
Qed.

(** An attempt whose stream breaks while [os.remove] fails: the error is
    logged and the partial file stays. *)
Lemma download_attempt_keeps_partial_file env url name path attempt response status body w :
  file_reply env url attempt = Response status body →
  raises_for_status status = false → broken body = true →
  disk_faults env path attempt = NoFault → remove_fails env path attempt = true →
  files (download_attempt env (JStr url) name path attempt response w).1 !! path
  = Some (total_size (chunks body))
  ∧ ∃ rest,
      trace (download_attempt env (JStr url) name path attempt response w).1
      = (trace w ++ [EvFileRequest url; EvLog ERROR "Download error";
                     EvLog ERROR "Error removing partial file"] ++ rest)%list
      ∧ (rest = [EvSleep RETRY_DELAY] ∨ rest = [EvLog ERROR "FINAL FAILED download"]).
Proof.
  intros Hr Hs Hb Hnf Hrm.
  unfold download_attempt, download_failed, os_path_exists, os_remove.
  rewrite Hr, Hs, Hnf, Hb, Hrm. cbn [log emit files set_files upd_stats].
  rewrite bool_decide_eq_true_2 by (rewrite lookup_insert_eq; by eexists).
  destruct (attempt <? MAX_RETRIES)%nat.
  - simpl. rewrite lookup_insert_eq. split; [done|].
    exists [EvSleep RETRY_DELAY]. split; [|by left]. by rewrite <- !app_assoc.
  - simpl. destruct (status =? 0); simpl; rewrite lookup_insert_eq; (split; [done|]);
      exists [EvLog ERROR "FINAL FAILED download"]; (split; [|by right]);
      by rewrite <- !app_assoc.
Qed.

(** An attempt at which the disk fails: [OSError] leaves the loop. *)
Lemma download_attempt_disk_fault env url name path attempt response status body w :
  file_reply env url attempt = Response status body →
  raises_for_status status = false →
  disk_faults env path attempt ≠ NoFault →
  (download_attempt env (JStr url) name path attempt response w).2 = Return (Raise OSError)
  ∧ counters (download_attempt env (JStr url) name path attempt response w).1 = counters w
  ∧ trace (download_attempt env (JStr url) name path attempt response w).1
    = (trace w ++ [EvFileRequest url])%list
  ∧ files (download_attempt env (JStr url) name path attempt response w).1
    = match disk_faults env path attempt with
      | WriteFails size => <[path := size]> (files w)
      | _ => files w
      end.
Proof.
  intros Hr Hs Hf. unfold download_attempt. rewrite Hr, Hs.
  by destruct (disk_faults env path attempt).
Qed.

(** C8, amended.  In [download_file] on a path that is free at the start,
    with a link that is a string.  An attempt whose stream breaks after the
    file was opened tries to remove the file before the loop sleeps for the
    next attempt or gives up: the file is gone when [os.remove] succeeds;
    when [os.remove] raises, the error is logged and the partial file stays.
    An [OSError] of [open] or of a write is not handled: the attempt ends
    [download_file] at once, without cleanup and without touching the
    counters.  When the first [k] attempts fail with request errors, the disk
    doing as asked, and attempt [k] (within the budget) succeeds, the function
    returns true, downloaded_count has grown by exactly one, nothing else in
    the counters changed, and the file exists with the size of that last
    stream; when every attempt of the budget fails that way, it returns
    false, failed_count has grown by one, and no file is left. *)
Theorem partial_file_removed_and_outcome_recorded
    (env : Env) (url name : string) (sha : option string) (w : World) :
  files w !! download_path name sha = None →
  let path := download_path name sha in
  (∀ attempt response w1,
     between_attempts w w1 → file_breaks_midstream env url attempt = true →
     disk_ok env path attempt = true →
     files (download_attempt env (JStr url) name path attempt response w1).1 !! path = None
     ∧ ∃ rest,
         trace (download_attempt env (JStr url) name path attempt response w1).1
         = (trace w1 ++ [EvFileRequest url; EvLog ERROR "Download error"; EvRemove path]
              ++ rest)%list
         ∧ (rest = [EvSleep RETRY_DELAY] ∨ rest = [EvLog ERROR "FINAL FAILED download"]))
  ∧ (∀ attempt response w1 status body,
       file_reply env url attempt = Response status body →
       raises_for_status status = false → broken body = true →
       disk_faults env path attempt = NoFault → remove_fails env path attempt = true →
       files (download_attempt env (JStr url) name path attempt response w1).1 !! path
       = Some (total_size (chunks body))
       ∧ ∃ rest,
           trace (download_attempt env (JStr url) name path attempt response w1).1
           = (trace w1 ++ [EvFileRequest url; EvLog ERROR "Download error";
                           EvLog ERROR "Error removing partial file"] ++ rest)%list
           ∧ (rest = [EvSleep RETRY_DELAY] ∨ rest = [EvLog ERROR "FINAL FAILED download"]))
  ∧ (∀ attempt response w1 status body,
       file_reply env url attempt = Response status body →
       raises_for_status status = false →
       disk_faults env path attempt ≠ NoFault →
       (download_attempt env (JStr url) name path attempt response w1).2
       = Return (Raise OSError)
       ∧ counters (download_attempt env (JStr url) name path attempt response w1).1
         = counters w1
       ∧ trace (download_attempt env (JStr url) name path attempt response w1).1
         = (trace w1 ++ [EvFileRequest url])%list
       ∧ files (download_attempt env (JStr url) name path attempt response w1).1
         = match disk_faults env path attempt with
           | WriteFails size => <[path := size]> (files w1)
           | _ => files w1
           end)
  ∧ (∀ k status body,
       (k ≤ MAX_RETRIES)%nat →
       (∀ j, (j < k)%nat → file_attempt_fails env url j = true) →
       (∀ j, (j < k)%nat → disk_ok env path j = true) →
       file_reply env url k = Response status body →
       raises_for_status status = false → broken body = false →
       disk_faults env path k = NoFault →
       (download_file env (JStr url) name sha w).2 = Ok true
       ∧ counters (download_file env (JStr url) name sha w).1
         = set_downloaded (downloaded_count (counters w) + 1) (counters w)
       ∧ files (download_file env (JStr url) name sha w).1
         = <[path := total_size (chunks body)]> (files w)
       ∧ count_events is_file_request (trace (download_file env (JStr url) name sha w).1)
         = (count_events is_file_request (trace w) + S k)%nat
       ∧ count_events is_remove (trace (download_file env (JStr url) name sha w).1)
         = (count_events is_remove (trace w) + midstream_failures env url k)%nat)
  ∧ ((∀ j, (j ≤ MAX_RETRIES)%nat → file_attempt_fails env url j = true) →
     (∀ j, (j ≤ MAX_RETRIES)%nat → disk_ok env path j = true) →
     (download_file env (JStr url) name sha w).2 = Ok false
     ∧ counters (download_file env (JStr url) name sha w).1
       = set_failed (failed_count (counters w) + 1) (counters w)
     ∧ files (download_file env (JStr url) name sha w).1 = files w
     ∧ count_events is_file_request (trace (download_file env (JStr url) name sha w).1)
       = (count_events is_file_request (trace w) + S MAX_RETRIES)%nat
     ∧ count_events is_remove (trace (download_file env (JStr url) name sha w).1)
       = (count_events is_remove (trace w)
          + midstream_failures env url (S MAX_RETRIES))%nat).
Proof.
  intros Hfresh path. split; [|split; [|split; [|split]]].
  - intros attempt response w1 Hb Hmid Hdisk.
    destruct (disk_ok_spec env path attempt Hdisk) as [Hnf Hrm].
    assert (Hfail : file_attempt_fails env url attempt = true).
    { unfold file_attempt_fails, file_breaks_midstream in *.
      destruct (file_reply env url attempt) as [|status body]; [done|].
      apply andb_true_iff in Hmid as [_ ->]. by rewrite orb_true_r. }
    destruct (download_attempt_fails_spec env url name path attempt response w w1
                Hfresh Hb Hfail Hnf Hrm) as (w' & r & [_ _ Hf _] & Ht & ->).
    unfold download_failure_events in Ht. rewrite Hmid in Ht.
    destruct (attempt <? MAX_RETRIES)%nat; simpl.
    + rewrite Hf. split; [done|]. exists [EvSleep RETRY_DELAY]. split; [|by left].
      rewrite Ht. by rewrite <- !app_assoc.
    + assert (Hfiles : ∀ w3, files w3 = files w' → files w3 !! path = None)
        by (by intros w3 ->; rewrite Hf).
      split.
      * apply Hfiles. by destruct r as [st|]; [destruct (st =? 0)|].
      * exists [EvLog ERROR "FINAL FAILED download"]. split; [|by right].
        destruct r as [st|]; [destruct (st =? 0)|]; simpl; rewrite Ht;
          by rewrite <- !app_assoc.
  - intros attempt response w1 status body.
    apply download_attempt_keeps_partial_file.
  - intros attempt response w1 status body.
    apply download_attempt_disk_fault.
  - intros k status body Hk Hfail Hdisk Hreply Hs Hb Hnf.
    destruct (download_file_succeeds_at env url name sha k status body w
                Hfresh Hk Hfail Hdisk Hreply Hs Hb Hnf) as (Hres & Hc & Hf & Ht).
    destruct (download_retries_counts env url path k) as [Hrm Hrq].
    split; [done|]. split; [done|]. split; [done|].
    fold path in Ht. rewrite Ht, !count_events_app, Hrm, Hrq.
    replace (count_events is_file_request [_]) with 1%nat by reflexivity.
    replace (count_events is_remove [_]) with 0%nat by reflexivity.
    split; lia.
  - intros Hfail Hdisk.
    destruct (download_file_exhausted env url name sha w Hfresh Hfail Hdisk)
      as (Hres & Hc & Hf & Ht).
    destruct (download_retries_counts env url path (S MAX_RETRIES)) as [Hrm Hrq].
    split; [done|]. split; [done|]. split; [done|].
    fold path in Ht.
    assert (Ht' : trace (download_file env (JStr url) name sha w).1
                  = (trace w ++ (download_retries env url path MAX_RETRIES
                                   ++ download_failure_events env url path MAX_RETRIES)
                       ++ [EvLog ERROR "FINAL FAILED download"])%list)
      by (by rewrite Ht, <- !app_assoc).
    rewrite download_retries_S in Hrm, Hrq. unfold download_retry_events in Hrm, Hrq.
    rewrite app_assoc in Hrm, Hrq.
    rewrite count_events_app in Hrm, Hrq.
    replace (count_events is_file_request [EvSleep RETRY_DELAY]) with 0%nat in Hrq
      by reflexivity.
    replace (count_events is_remove [EvSleep RETRY_DELAY]) with 0%nat in Hrm
      by reflexivity.
    rewrite Ht', !count_events_app.
    replace (count_events is_file_request [_]) with 0%nat by reflexivity.
    replace (count_events is_remove [_]) with 0%nat by reflexivity.
    rewrite count_events_app in Hrm, Hrq.
    split; lia.
Qed.

(** C8 on a concrete download: the stream breaks twice and succeeds at the third
    attempt; two partial files were removed, one success is counted and the
    file has the 42 bytes of the last stream. *)
Lemma partial_file_removed_and_outcome_recorded_witness :
  (download_file flaky_env (JStr "https://cdn.example/aa") "aa" (Some "aa")
     (admitted_world flaky_env)).2 = Ok true
  ∧ downloaded_count
      (counters (download_file flaky_env (JStr "https://cdn.example/aa") "aa" (Some "aa")
                   (admitted_world flaky_env)).1) = 1
  ∧ files (download_file flaky_env (JStr "https://cdn.example/aa") "aa" (Some "aa")
             (admitted_world flaky_env)).1 !! "downloaded_samples/aa" = Some 42
  ∧ count_events is_remove
      (trace (download_file flaky_env (JStr "https://cdn.example/aa") "aa" (Some "aa")
                (admitted_world flaky_env)).1) = 2%nat.
Proof.
  destruct (partial_file_removed_and_outcome_recorded flaky_env
              "https://cdn.example/aa" "aa" (Some "aa") (admitted_world flaky_env))
    as (_ & _ & _ & H & _).
  - reflexivity.
  - destruct (H 2%nat 200 (mkStream [40; 2]%nat false 2)) as (H1 & H2 & H3 & _ & H4).
    + unfold MAX_RETRIES. lia.
    + intros j Hj. destruct j as [|[|j]]; [reflexivity|reflexivity|lia].
    + intros j Hj. reflexivity.
    + reflexivity.
    + reflexivity.
    + reflexivity.
    + reflexivity.
    + rewrite H1, H2, H3, H4. repeat split; reflexivity.
Defined.

(** ** What one task may touch *)

Lemma task_frame_refl path w : task_frame path w w.
Proof. split; try done. exists []. by rewrite app_nil_r. Qed.

Lemma task_frame_trans path w1 w2 w3 :
  task_frame path w1 w2 → task_frame path w2 w3 → task_frame path w1 w3.
Proof.
  intros [Hp1 Hs1 Hpr1 Hf1 (e1 & He1 & Ha1)] [Hp2 Hs2 Hpr2 Hf2 (e2 & He2 & Ha2)].
  split; [congruence|congruence|congruence| |].
  - intros p Hp. by rewrite Hf2, Hf1.
  - exists (e1 ++ e2)%list. split.
    + by rewrite He2, He1, app_assoc.
    + rewrite forallb_app. by rewrite Ha1, Ha2.
Qed.

Lemma task_frame_emit path e w w' :
  task_event path e = true → task_frame path w w' → task_frame path w (emit e w').
Proof.
  intros He Hw. eapply task_frame_trans; [exact Hw|].
  split; try done. exists [e]. simpl. by rewrite He.
Qed.

Lemma task_frame_stats path f w w' :
  task_frame path w w' → task_frame path w (upd_stats f w').
Proof. intros [? ? ? ? ?]. by split. Qed.

Lemma task_frame_log_lines path l w w' :
  task_frame path w w' → task_frame path w (set_log_lines l w').
Proof. intros [? ? ? ? ?]. by split. Qed.

Lemma task_frame_write path (m : gmap string Z) size w w' :
  (∀ p, p ≠ path → m !! p = files w' !! p) →
  task_frame path w w' → task_frame path w (set_files (<[path := size]> m) w').
Proof.
  intros Hm [? ? ? Hf ?]. split; try done.
  intros p Hp. simpl. rewrite lookup_insert_ne by done. rewrite Hm by done. by apply Hf.
Qed.

Lemma task_frame_remove env path attempt w w' w'' :
  task_frame path w w' → os_remove env path attempt w' = Some w'' → task_frame path w w''.
Proof.
  intros Hw. unfold os_remove. destruct (remove_fails env path attempt); [done|].
  destruct (files w' !! path); [|done]. intros [= <-].
  eapply task_frame_trans; [exact Hw|]. split; try done.
  - intros p Hp. simpl. by rewrite lookup_delete_ne.
  - exists [EvRemove path]. simpl. by rewrite bool_decide_eq_true_2.
Qed.

Lemma task_frame_downloaded path v w w' :
  task_frame path w w' → task_frame path w (upd_counters (set_downloaded v) w').
Proof. intros [? ? ? ? ?]. by split. Qed.

Lemma task_frame_failed path v w w' :
  task_frame path w w' → task_frame path w (upd_counters (set_failed v) w').
Proof. intros [? ? ? ? ?]. by split. Qed.

Lemma quiet_link_task_frame path w w' : quiet link_events w w' → task_frame path w w'.
Proof.
  intros [Hc Hp Hf Hl _ (evs & Ht & Ha)].
  split; [congruence|congruence|congruence| |].
  - intros p _. by rewrite Hf.
  - exists evs. split; [done|]. clear Ht.
    induction evs as [|e evs IH]; [done|]. simpl in *.
    apply andb_true_iff in Ha as [He Ha]. rewrite (IH Ha), andb_true_r.
    by destruct e.
Qed.

Lemma download_failed_frame env name path attempt response w w' :
  task_frame path w w' →
  task_frame path w (download_failed env name path attempt response w').1.
Proof.
  intros Hw. unfold download_failed.
  set (w1 := if os_path_exists path (log ERROR "Download error" w') then _ else _).
  assert (H1 : task_frame path w w1).
  { subst w1. destruct (os_path_exists _ _).
    - destruct (os_remove _ _ _ _) as [w''|] eqn:Hrm.
      + eapply task_frame_remove; [|exact Hrm]. by apply task_frame_emit.
      + by repeat apply task_frame_emit.
    - by apply task_frame_emit. }
  destruct (attempt <? MAX_RETRIES)%nat; simpl.
  - by apply task_frame_emit.
  - apply (task_frame_failed path). 
    destruct response as [status|]; [destruct (status =? 0)|];
      repeat apply task_frame_stats; by apply task_frame_emit.
Qed.

Lemma download_attempt_frame env url name path attempt response w w' :
  task_frame path w w' →
  task_frame path w (download_attempt env url name path attempt response w').1.
Proof.
  intros Hw. unfold download_attempt.
  destruct url as [| | |url| |];
    try (apply download_failed_frame; by apply task_frame_emit).
  destruct (file_reply env url attempt) as [|status body].
  { apply download_failed_frame. by apply task_frame_emit. }
  destruct (raises_for_status status).
  { apply download_failed_frame. apply task_frame_stats. by apply task_frame_emit. }
  destruct (disk_faults env path attempt) as [| |size].
  - destruct (broken body).
    { apply download_failed_frame. apply task_frame_write; [done|].
      apply task_frame_stats. by apply task_frame_emit. }
    simpl. apply (task_frame_downloaded path). apply task_frame_stats.
    apply task_frame_write; [done|]. apply task_frame_stats. by apply task_frame_emit.
  - simpl. apply task_frame_stats. by apply task_frame_emit.
  - simpl. apply task_frame_write; [done|]. apply task_frame_stats.
    by apply task_frame_emit.
Qed.

Lemma download_file_frame env url name sha w :
  task_frame (download_path name sha) w (download_file env url name sha w).1.
Proof.
  unfold download_file. destruct (os_path_exists _ w).
  { simpl. apply task_frame_stats, task_frame_refl. }
  apply (retry_loop_ind (task_frame (download_path name sha) w)
           (λ w' _, task_frame (download_path name sha) w w'));
    [|done|apply task_frame_refl].
  intros attempt response w' Hw'.
  pose proof (download_attempt_frame env url name (download_path name sha)
                attempt response w w' Hw') as H.
  by destruct (download_attempt _ _ _ _ _ _ _) as [w'' [a|r]].
Qed.

Lemma process_body_frame env entry w :
  task_frame (path_join DOWNLOAD_DIR (hash_of entry)) w (process_body env entry w).
Proof.
  unfold process_body. destruct (truthy (sha256 entry)) eqn:Ht; simpl.
  2:{ apply task_frame_stats. apply task_frame_emit; [done|apply task_frame_refl]. }
  fold (hash_of entry).
  pose proof (get_download_link_quiet env (hash_of entry) w) as Hq.
  apply (quiet_link_task_frame (path_join DOWNLOAD_DIR (hash_of entry))) in Hq.
  destruct (get_download_link env (hash_of entry) w) as [w1 [link|x]]; simpl in *.
  2:{ by apply task_frame_emit. }
  destruct (py_truthy_opt link); [|by apply task_frame_emit].
  pose proof (download_file_frame env (default JNull link)
                (default "None" (derive_filename env entry)) (sha256 entry) w1) as Hd.
  rewrite (download_path_of_hash _ entry Ht) in Hd.
  destruct (download_file _ _ _ _ w1) as [w2 ok]; simpl in *.
  destruct ok as [[|]|x].
  - apply task_frame_log_lines. by eapply task_frame_trans.
  - by eapply task_frame_trans.
  - apply task_frame_emit; [done|]. by eapply task_frame_trans.
Qed.

Lemma task_frame_count f path w w' :
  (∀ e, task_event path e = true → f e = false) →
  task_frame path w w' → count_events f (trace w') = count_events f (trace w).
Proof.
  intros Hf [_ _ _ _ (evs & -> & Hall)].
  rewrite count_events_app, (count_events_none f (task_event path) evs); [lia|done..].
Qed.

Lemma process_finally_frame entry w :
  should_stop (counters (process_finally entry w)) = should_stop (counters w)
  ∧ processed_hashes (process_finally entry w) = processed_hashes w
  ∧ files (process_finally entry w) = files w
  ∧ log_lines (process_finally entry w) = log_lines w
  ∧ ∃ evs, trace (process_finally entry w) = (trace w ++ evs)%list
           ∧ forallb is_sleep_or_log evs = true.
Proof.
  unfold process_finally.
  destruct (truthy (sha256 entry)); [destruct (0 <? _)|]; simpl; repeat split;
    try (by exists []; rewrite app_nil_r); by eexists [_].
Qed.

(** X1.  A task works on its own file only.  Whatever the replies, one
    call of [process_hash_entry] leaves every file other than
    DOWNLOAD_DIR/<sha256> as it was, does not touch processed_hashes or the
    stop flag, and adds to the outside world only link requests, byte
    requests, sleeps, log records and removals of that one file: no feed
    request, no submission, no report. *)
Theorem task_touches_only_its_own_file (env : Env) (entry : HashRecord) (w : World) :
  let w' := process_hash_entry env entry w in
  let path := path_join DOWNLOAD_DIR (hash_of entry) in
  (∀ p, p ≠ path → files w' !! p = files w !! p)
  ∧ processed_hashes w' = processed_hashes w
  ∧ should_stop (counters w') = should_stop (counters w)
  ∧ ∃ evs, trace w' = (trace w ++ evs)%list ∧ forallb (task_event path) evs = true.
Proof.
  intros w' path. subst w'. unfold process_hash_entry.
  pose proof (process_body_frame env entry w) as [_ Hs Hp Hf (evs & Ht & Ha)].
  fold path in Hf, Ha.
  destruct (process_finally_frame entry (process_body env entry w))
    as (Hs' & Hp' & Hf' & _ & evs' & Ht' & Ha').
  split; [|split; [|split]].
  - intros p Hne. rewrite Hf'. by apply Hf.
  - congruence.
  - congruence.
  - exists (evs ++ evs')%list. split; [by rewrite Ht', Ht, app_assoc|].
    rewrite forallb_app, Ha. simpl. clear -Ha'.
    induction evs' as [|e evs' IH]; [done|]. simpl in *.
    apply andb_true_iff in Ha' as [He Ha']. rewrite (IH Ha'), andb_true_r. by destruct e.
Qed.

(** ** The stop flag *)

Lemma main_start_trace env w :
  (should_stop (counters w) = true → should_stop (counters (main_start env w).1) = true)
  ∧ ∃ evs, trace (main_start env w).1 = (trace w ++ evs)%list
           ∧ forallb is_sleep_or_log evs = true.
Proof.
  unfold main_start.
  destruct (String.eqb (API_KEY env) "" || _).
  { split; [done|]. by exists [EvLog CRITICAL "API_KEY is not set or is the placeholder"]. }
  unfold load_processed_hashes.
  destruct (log_lines w) as [lines|]; [destruct (log_read_fails env)|]; simpl;
    case_bool_decide; simpl;
    repeat match goal with |- context [if ?b then _ else _] => destruct b eqn:? end;
    simpl; split; try done; try congruence;
    try (by exists []; rewrite app_nil_r); by eexists [_].
Qed.

Lemma stop_flag_step env l s s' :
  step env l s = Some s' → should_stop (counters (world s)) = true →
  should_stop (counters (world s')) = true
  ∧ length (tasks s') = length (tasks s)
  ∧ count_events is_feed_request (trace (world s'))
    = count_events is_feed_request (trace (world s))
  ∧ count_events is_submit (trace (world s')) = count_events is_submit (trace (world s)).
Proof.
  intros Hstep Hs. destruct l as [|i]; simpl in Hstep.
  - unfold step_main in Hstep.
    destruct (main s) as [|n|n [|entry rest] futures|n futures| | | |] eqn:Hm; try done.
    + injection Hstep as <-. simpl.
      destruct (main_start_trace env (world s)) as (Hst & evs & Ht & Ha).
      split; [by apply Hst|]. split; [done|]. rewrite Ht, !count_events_app.
      rewrite (count_events_none is_feed_request is_sleep_or_log evs); [|by intros []|done].
      rewrite (count_events_none is_submit is_sleep_or_log evs); [|by intros []|done].
      lia.
    + injection Hstep as <-. unfold main_page. rewrite Hs. done.
    + injection Hstep as <-. done.
    + injection Hstep as <-. unfold main_submit.
      destruct (try_admit_cases (MAX_DOWNLOAD env) (counters (world s)))
        as [(_ & ->)|[(Hs' & _)|(Hs' & _)]]; [|congruence..].
      simpl. rewrite Hs. simpl. by destruct (world s).
    + destruct (forallb _ _); [|done]. injection Hstep as <-.
      unfold main_after_page. rewrite Hs. done.
    + injection Hstep as <-. simpl. split; [done|]. split; [done|].
      rewrite !count_events_app.
      replace (count_events is_feed_request [_]) with 0%nat by reflexivity.
      replace (count_events is_submit [_]) with 0%nat by reflexivity.
      split; lia.
  - unfold step_task in Hstep.
    destruct (tasks s !! i) as [[entry [|recorded|]]|] eqn:Hi; try done;
      injection Hstep as <-; simpl; rewrite length_insert.
    + pose proof (process_body_frame env entry (world s)) as Hfr.
      pose proof (tf_stop _ _ _ Hfr) as Hst.
      split; [congruence|]. split; [done|].
      split; [apply (task_frame_count is_feed_request _ _ _ ltac:(by intros []) Hfr)
             |apply (task_frame_count is_submit _ _ _ ltac:(by intros []) Hfr)].
    + destruct (process_finally_frame entry (world s)) as (Hst & _ & _ & _ & evs & Ht & Ha).
      split; [congruence|]. split; [done|]. rewrite Ht, !count_events_app.
      rewrite (count_events_none is_feed_request is_sleep_or_log evs); [|by intros []|done].
      rewrite (count_events_none is_submit is_sleep_or_log evs); [|by intros []|done].
      lia.
Qed.

(** X2.  Once the stop flag is set it stays set; from then on no feed page
    is requested and no task is submitted, whatever the schedule. *)
Theorem stop_flag_is_final (env : Env) (sched : list label) (s s' : State) :
  run env sched s = Some s' → should_stop (counters (world s)) = true →
  should_stop (counters (world s')) = true
  ∧ length (tasks s') = length (tasks s)
  ∧ count_events is_feed_request (trace (world s'))
    = count_events is_feed_request (trace (world s))
  ∧ count_events is_submit (trace (world s')) = count_events is_submit (trace (world s)).
Proof.
  revert s. induction sched as [|l sched IH]; intros s Hrun Hs; simpl in Hrun.
  - injection Hrun as <-. done.
  - destruct (step env l s) as [s1|] eqn:Hstep; [|done].
    destruct (stop_flag_step env l s s1 Hstep Hs) as (Hs1 & Hl1 & Hf1 & Hb1).
    destruct (IH s1 Hrun Hs1) as (Hs2 & Hl2 & Hf2 & Hb2).
    split; [done|]. split; [congruence|]. split; congruence.
Qed.

(** After the main block of [zero_limit_env] the flag is set; the report
    step keeps it. *)
Lemma stop_flag_is_final_witness :
  should_stop (counters (world (state_after zero_limit_env [LMain; LMain]))) = true
  ∧ length (tasks (state_after zero_limit_env [LMain; LMain]))
    = length (tasks (state_after zero_limit_env [LMain])).
Proof.
  destruct (stop_flag_is_final zero_limit_env [LMain]
              (state_after zero_limit_env [LMain])
              (state_after zero_limit_env [LMain; LMain])) as (H1 & H2 & _).
  - vm_compute. reflexivity.
  - vm_compute. reflexivity.
  - exact (conj H1 H2).
Defined.

(** ** Without a limit *)

Lemma unlimited_step env l s s' :
  MAX_DOWNLOAD env = None →
  step env l s = Some s' → should_stop (counters (world s)) = false →
  should_stop (counters (world s')) = false.
Proof.
  intros Hlimit Hstep Hs. destruct l as [|i]; simpl in Hstep.
  - unfold step_main in Hstep.
    destruct (main s) as [|n|n [|entry rest] futures|n futures| | | |] eqn:Hm; try done.
    + injection Hstep as <-. simpl. unfold main_start.
      destruct (String.eqb (API_KEY env) "" || _); [done|].
      destruct (makedirs_fails env); [done|].
      rewrite Hlimit. unfold load_processed_hashes.
      destruct (log_lines (world s)) as [lines|]; [destruct (log_read_fails env)|];
        simpl; rewrite Hs; done.
    + injection Hstep as <-. simpl.
      destruct (main_page_spec env n (world s)) as (-> & _). done.
    + injection Hstep as <-. done.
    + injection Hstep as <-.
      destruct (main_submit_spec env n entry rest futures s) as [-> _].
      unfold try_admit. rewrite Hs, Hlimit. done.
    + destruct (forallb _ _); [|done]. injection Hstep as <-.
      unfold main_after_page. rewrite Hs. done.
    + injection Hstep as <-. done.
  - unfold step_task in Hstep.
    destruct (tasks s !! i) as [[entry [|recorded|]]|] eqn:Hi; try done;
      injection Hstep as <-; simpl.
    + by rewrite (tf_stop _ _ _ (process_body_frame env entry (world s))).
    + destruct (process_finally_frame entry (world s)) as (-> & _). done.
Qed.

(** X3.  Without a limit the stop flag is never set, and every entry of a
    batch is submitted. *)
Theorem unlimited_run_never_stops (env : Env) (s : State) :
  MAX_DOWNLOAD env = None → reachable env s →
  should_stop (counters (world s)) = false
  ∧ ∀ page_number entry rest futures,
      main s = Submitting page_number (entry :: rest) futures →
      ∃ s', step env LMain s = Some s'
            ∧ tasks s' = (tasks s ++ [mkTask entry Queued])%list
            ∧ main s' = Submitting page_number rest (futures ++ [length (tasks s)])%list
            ∧ hash_of entry ∈ processed_hashes (world s').
Proof.
  intros Hlimit [sched Hrun].
  assert (Hs : should_stop (counters (world s)) = false).
  { refine (run_invariant env (λ s, should_stop (counters (world s)) = false)
                _ sched (init env) s eq_refl Hrun).
    intros l s0 s1 H0 Hstep. by eapply unlimited_step. }
  split; [done|]. intros n entry rest futures Hm.
  exists (main_submit env n entry rest futures s).
  split; [simpl; unfold step_main; by rewrite Hm|].
  unfold main_submit, try_admit. rewrite Hs, Hlimit. simpl. rewrite Hs.
  split; [done|]. split; [done|]. simpl.
  apply elem_of_union_l. by apply elem_of_singleton.
Qed.

(** ** The barrier between pages *)

Lemma barrier_no_futures s :
  barrier s → held_futures (main s) = [] → Forall (λ t, t_phase t = Done) (tasks s).
Proof.
  intros Hb Hnil. apply Forall_lookup. intros i t Hi.
  destruct (t_phase t) eqn:Hph; [| |done].
  - assert (Hne : t_phase t ≠ Done) by (by rewrite Hph).
    specialize (Hb i t Hi Hne). rewrite Hnil in Hb. by apply elem_of_nil in Hb.
  - assert (Hne : t_phase t ≠ Done) by (by rewrite Hph).
    specialize (Hb i t Hi Hne). rewrite Hnil in Hb. by apply elem_of_nil in Hb.
Qed.

Lemma barrier_step env l s s' : barrier s → step env l s = Some s' → barrier s'.
Proof.
  intros Hb Hstep. destruct l as [|i]; simpl in Hstep.
  - unfold step_main in Hstep.
    destruct (main s) as [|n|n [|entry rest] futures|n futures| | | |] eqn:Hm; try done.
    + injection Hstep as <-. intros i t Hi Hne. simpl in Hi.
      specialize (Hb i t Hi Hne). rewrite Hm in Hb. by apply elem_of_nil in Hb.
    + injection Hstep as <-. intros i t Hi Hne. simpl in Hi.
      specialize (Hb i t Hi Hne). rewrite Hm in Hb. by apply elem_of_nil in Hb.
    + injection Hstep as <-. intros i t Hi Hne. simpl in *.
      specialize (Hb i t Hi Hne). by rewrite Hm in Hb.
    + injection Hstep as <-. unfold main_submit.
      destruct (try_admit (MAX_DOWNLOAD env) (counters (world s))) as [c admitted]. simpl.
      destruct (should_stop c).
      { intros i t Hi Hne. simpl in *. specialize (Hb i t Hi Hne). by rewrite Hm in Hb. }
      destruct admitted.
      * intros i t Hi Hne. simpl in *. apply elem_of_app.
        apply lookup_app_Some in Hi as [Hi|[Hlen Hi]].
        -- left. specialize (Hb i t Hi Hne). by rewrite Hm in Hb.
        -- right. apply list_elem_of_singleton.
           destruct (i - length (tasks s))%nat as [|k] eqn:Hk; [lia|].
           simpl in Hi. by rewrite lookup_nil in Hi.
      * intros i t Hi Hne. simpl in *. specialize (Hb i t Hi Hne). by rewrite Hm in Hb.
    + destruct (forallb (is_done (tasks s)) futures) eqn:Hall; [|done].
      injection Hstep as <-. intros i t Hi Hne. simpl in Hi. exfalso.
      specialize (Hb i t Hi Hne). rewrite Hm in Hb. simpl in Hb.
      rewrite forallb_forall in Hall. apply list_elem_of_In, Hall in Hb.
      unfold is_done in Hb. rewrite Hi in Hb. by destruct (t_phase t).
    + injection Hstep as <-. intros i t Hi Hne. simpl in Hi.
      specialize (Hb i t Hi Hne). rewrite Hm in Hb. by apply elem_of_nil in Hb.
  - unfold step_task in Hstep.
    destruct (tasks s !! i) as [[entry [|recorded|]]|] eqn:Hi; try done;
      injection Hstep as <-; intros j t Hj Hne; simpl in *.
    + destruct (decide (j = i)) as [->|Hji].
      * by apply (Hb i _ Hi).
      * rewrite list_lookup_insert_ne in Hj by done. by apply (Hb j t).
    + destruct (decide (j = i)) as [->|Hji].
      * by apply (Hb i _ Hi).
      * rewrite list_lookup_insert_ne in Hj by done. by apply (Hb j t).
Qed.

(** X4.  A page is requested, and the report written, only when every task
    submitted so far has run its finally block: whenever the main thread is
    not in the submission loop or waiting for the futures of a page, all tasks
    are done and nothing is in flight. *)
Theorem pages_do_not_overlap (env : Env) (s : State) :
  reachable env s →
  (∀ i t, tasks s !! i = Some t → t_phase t ≠ Done → i ∈ held_futures (main s))
  ∧ (held_futures (main s) = [] →
     Forall (λ t, t_phase t = Done) (tasks s)
     ∧ pending_downloads_count (counters (world s)) = 0).
Proof.
  intros Hreach.
  assert (Hb : barrier s).
  { destruct Hreach as [sched Hrun].
    refine (run_invariant env barrier _ sched (init env) s _ Hrun).
    - intros l s0 s1. apply barrier_step.
    - intros i t Hi. done. }
  split; [exact Hb|]. intros Hnil.
  pose proof (barrier_no_futures s Hb Hnil) as Hdone. split; [done|].
  destruct (accounting_reachable env s Hreach) as [_ _ Hp _].
  rewrite Hp. by apply in_flight_all_done.
Qed.

Lemma pages_do_not_overlap_witness :
  Forall (λ t, t_phase t = Done) (tasks (state_after one_sample_env one_sample_full_sched))
  ∧ pending_downloads_count
      (counters (world (state_after one_sample_env one_sample_full_sched))) = 0.
Proof.
  destruct (pages_do_not_overlap one_sample_env
              (state_after one_sample_env one_sample_full_sched)) as (_ & H).
  - exists one_sample_full_sched. vm_compute. reflexivity.
  - apply H. vm_compute. reflexivity.
Defined.

Lemma unlimited_run_never_stops_witness :
  should_stop (counters (world (state_after not_found_env [LMain; LMain]))) = false.
Proof.
  destruct (unlimited_run_never_stops not_found_env
              (state_after not_found_env [LMain; LMain])) as (H & _).
  - reflexivity.
  - exists [LMain; LMain]. vm_compute. reflexivity.
  - exact H.
Defined.

(** ** Without the API key *)

(** X5.  With the API key empty or left at the placeholder, the run logs one
    critical message and exits with status 1: the processed log is not read,
    nothing is requested, submitted or written, and no report is made. *)
Theorem unset_api_key_stops_the_run (env : Env) :
  api_key_unset env →
  (∃ s, step env LMain (init env) = Some s ∧ main s = Exited 1)
  ∧ ∀ sched s, run env sched (init env) = Some s →
      tasks s = []
      ∧ (s = init env
         ∨ main s = Exited 1
           ∧ trace (world s) = [EvLog CRITICAL "API_KEY is not set or is the placeholder"]
           ∧ processed_hashes (world s) = ∅
           ∧ files (world s) = initial_files env
           ∧ log_lines (world s) = initial_log env).
Proof.
  intros Hkey.
  assert (Hs : main_start env (world0 env)
               = (log CRITICAL "API_KEY is not set or is the placeholder" (world0 env),
                  Exited 1)).
  { unfold main_start. by destruct Hkey as [-> | ->]. }
  split.
  - eexists. split; [reflexivity|]. simpl. by rewrite Hs.
  - intros sched s Hrun.
    refine (run_invariant env (unset_key_state env) _ sched (init env) s _ Hrun).
    + intros l s0 s1 (Hts & Hcase) Hstep. destruct l as [|i]; simpl in Hstep.
      * unfold step_main in Hstep. destruct Hcase as [-> | (Hm & _)].
        -- simpl in Hstep. injection Hstep as <-. rewrite Hs. simpl.
           split; [done|]. right. done.
        -- by rewrite Hm in Hstep.
      * unfold step_task in Hstep. by rewrite Hts in Hstep.
    + split; [done|]. by left.
Qed.

Lemma unset_api_key_stops_the_run_witness :
  ∃ s, step no_key_env LMain (init no_key_env) = Some s ∧ main s = Exited 1.
Proof.
  apply (unset_api_key_stops_the_run no_key_env). left. reflexivity.
Defined.

(** ** The retry budget *)

Lemma count_events_snoc f evs e :
  count_events f (evs ++ [e]) = (count_events f evs + (if f e then 1 else 0))%nat.
Proof.
  rewrite count_events_app. f_equal. unfold count_events.
  destruct (f e) eqn:He.
  - by rewrite filter_cons_True.
  - rewrite filter_cons_False; [done|]. by rewrite He.
Qed.

Lemma retry_loop_count_le {A : Type} (f : event → bool)
    (body : nat → option Z → World → World * attempt_outcome A) (fallthrough : A)
    (g : nat → nat) :
  (∀ attempt response w,
     (count_events f (trace (body attempt response w).1)
      ≤ count_events f (trace w) + g attempt)%nat) →
  ∀ attempts response w,
    (count_events f (trace (retry_loop body fallthrough attempts response w).1)
     ≤ count_events f (trace w) + sum_list (g <$> attempts))%nat.
Proof.
  intros Hbody attempts. induction attempts as [|a attempts IH]; intros r w; simpl.
  - lia.
  - specialize (Hbody a r w).
    destruct (body a r w) as [w' [x|r']]; simpl in *; [lia|].
    specialize (IH r' w'). unfold fmap in *. lia.
Qed.

Lemma retry_loop_count_ge {A : Type} (f : event → bool)
    (body : nat → option Z → World → World * attempt_outcome A) (fallthrough : A) :
  (∀ attempt response w,
     (count_events f (trace w) + 1 ≤ count_events f (trace (body attempt response w).1))%nat) →
  ∀ attempts response w, attempts ≠ [] →
    (count_events f (trace w) + 1
     ≤ count_events f (trace (retry_loop body fallthrough attempts response w).1))%nat.
Proof.
  intros Hbody attempts. induction attempts as [|a attempts IH]; intros r w Hne; [done|].
  simpl. specialize (Hbody a r w).
  destruct (body a r w) as [w' [x|r']]; simpl in *; [lia|].
  destruct attempts as [|a' attempts]; [simpl; lia|].
  specialize (IH r' w' ltac:(done)). lia.
Qed.

Ltac count_trace :=
  unfold log, sleep; simpl;
  rewrite ?count_events_snoc; simpl; unfold MAX_RETRIES in *; try lia.

Lemma fetch_hashes_attempt_counts env page_number attempt response w :
  count_events is_feed_request (trace (fetch_hashes_attempt env page_number attempt response w).1)
  = (count_events is_feed_request (trace w) + 1)%nat
  ∧ (count_events is_sleep (trace (fetch_hashes_attempt env page_number attempt response w).1)
     ≤ count_events is_sleep (trace w) + sleeps_after attempt)%nat.
Proof.
  unfold fetch_hashes_attempt, feed_request_failed, sleeps_after.
  destruct (feed_reply env page_number attempt) as [|status body].
  { destruct (attempt <? MAX_RETRIES)%nat, response; split; count_trace. }
  destruct (raises_for_status status).
  { destruct (attempt <? MAX_RETRIES)%nat; split; count_trace. }
  destruct body as [|j]; [split; count_trace|].
  destruct (py_contains "data" j) as [[|]|]; [|split; count_trace..].
  destruct (py_getitem "data" j) as [d|]; [|split; count_trace].
  destruct (isinstance_list d); split; count_trace.
Qed.

(** X6.  One call of [fetch_hashes_page] makes at least one and at most
    MAX_RETRIES + 1 requests, and sleeps at most MAX_RETRIES times, whatever
    the feed answers. *)
Theorem feed_fetch_stays_in_budget (env : Env) (page_number : Z) (w : World) :
  (count_events is_feed_request (trace w) + 1
   ≤ count_events is_feed_request (trace (fetch_hashes_page env page_number w).1))%nat
  ∧ (count_events is_feed_request (trace (fetch_hashes_page env page_number w).1)
     ≤ count_events is_feed_request (trace w) + (MAX_RETRIES + 1))%nat
  ∧ (count_events is_sleep (trace (fetch_hashes_page env page_number w).1)
     ≤ count_events is_sleep (trace w) + MAX_RETRIES)%nat.
Proof.
  unfold fetch_hashes_page. split; [|split].
  - apply retry_loop_count_ge; [|done].
    intros a r w'. destruct (fetch_hashes_attempt_counts env page_number a r w') as [-> _].
    lia.
  - apply (retry_loop_count_le is_feed_request _ _ (λ _, 1%nat)).
    intros a r w'. destruct (fetch_hashes_attempt_counts env page_number a r w') as [-> _].
    lia.
  - apply (retry_loop_count_le is_sleep _ _ sleeps_after).
    intros a r w'. by destruct (fetch_hashes_attempt_counts env page_number a r w') as [_ ?].
Qed.

Lemma get_download_link_attempt_counts env h attempt response w :
  count_events is_link_request (trace (get_download_link_attempt env h attempt response w).1)
  = (count_events is_link_request (trace w) + 1)%nat
  ∧ (count_events is_sleep (trace (get_download_link_attempt env h attempt response w).1)
     ≤ count_events is_sleep (trace w) + sleeps_after attempt)%nat.
Proof.
  unfold get_download_link_attempt, link_request_failed, sleeps_after.
  destruct (link_reply env h attempt) as [|status body].
  { destruct (attempt <? MAX_RETRIES)%nat; split; count_trace. }
  destruct (status =? 404); [split; count_trace|].
  destruct (raises_for_status status).
  { destruct (attempt <? MAX_RETRIES)%nat; split; count_trace. }
  destruct body as [|j].
  - destruct (json_error_is_request_exception env);
      [destruct (attempt <? MAX_RETRIES)%nat|]; split; count_trace.
  - destruct j; split; count_trace.
Qed.

Lemma download_attempt_counts env url name path attempt response w :
  count_events is_file_request (trace (download_attempt env url name path attempt response w).1)
  = (count_events is_file_request (trace w) + 1)%nat
  ∧ count_events is_link_request
      (trace (download_attempt env url name path attempt response w).1)
    = count_events is_link_request (trace w)
  ∧ (count_events is_sleep (trace (download_attempt env url name path attempt response w).1)
     ≤ count_events is_sleep (trace w) + sleeps_after attempt)%nat.
Proof.
  assert (Hfail : ∀ r w',
    count_events is_file_request (trace (download_failed env name path attempt r w').1)
    = count_events is_file_request (trace w')
    ∧ count_events is_link_request (trace (download_failed env name path attempt r w').1)
      = count_events is_link_request (trace w')
    ∧ (count_events is_sleep (trace (download_failed env name path attempt r w').1)
       ≤ count_events is_sleep (trace w') + sleeps_after attempt)%nat).
  { intros r w'. unfold download_failed, sleeps_after.
    destruct (os_path_exists path (log ERROR "Download error" w')).
    - unfold os_remove.
      destruct (remove_fails env path attempt);
        destruct (files (log ERROR "Download error" w') !! path);
        destruct (attempt <? MAX_RETRIES)%nat;
        try (destruct r as [st|]; [destruct (st =? 0)|]); repeat split; count_trace.
    - destruct (attempt <? MAX_RETRIES)%nat;
        try (destruct r as [st|]; [destruct (st =? 0)|]); repeat split; count_trace. }
  unfold download_attempt.
  destruct url as [| | |url| |];
    try (match goal with |- context [download_failed _ _ _ _ ?r ?w'] =>
           destruct (Hfail r w') as (-> & -> & Hs) end;
         split; [count_trace|]; split; [count_trace|]; revert Hs; count_trace).
  destruct (file_reply env url attempt) as [|status body].
  { destruct (Hfail response (emit (EvFileRequest url) w)) as (-> & -> & Hs).
    split; [count_trace|]. split; [count_trace|]. revert Hs. count_trace. }
  destruct (raises_for_status status).
  { match goal with |- context [download_failed _ _ _ _ ?r ?w'] =>
      destruct (Hfail r w') as (-> & -> & Hs) end.
    split; [count_trace|]. split; [count_trace|]. revert Hs. count_trace. }
  destruct (disk_faults env path attempt) as [| |size];
    [|unfold sleeps_after; repeat split; count_trace..].
  destruct (broken body).
  { match goal with |- context [download_failed _ _ _ _ ?r ?w'] =>
      destruct (Hfail r w') as (-> & -> & Hs) end.
    split; [count_trace|]. split; [count_trace|]. revert Hs. count_trace. }
  unfold sleeps_after. repeat split; count_trace.
Qed.

Lemma get_download_link_counts env h w :
  (count_events is_link_request (trace (get_download_link env h w).1)
   ≤ count_events is_link_request (trace w) + (MAX_RETRIES + 1))%nat
  ∧ count_events is_file_request (trace (get_download_link env h w).1)
    = count_events is_file_request (trace w)
  ∧ (count_events is_sleep (trace (get_download_link env h w).1)
     ≤ count_events is_sleep (trace w) + MAX_RETRIES)%nat.
Proof.
  unfold get_download_link. split; [|split].
  - apply (retry_loop_count_le is_link_request _ _ (λ _, 1%nat)).
    intros a r w'. destruct (get_download_link_attempt_counts env h a r w') as [-> _]. lia.
  - apply (quiet_count is_file_request link_events); [by intros []|].
    apply get_download_link_quiet.
  - apply (retry_loop_count_le is_sleep _ _ sleeps_after).
    intros a r w'. by destruct (get_download_link_attempt_counts env h a r w') as [_ ?].
Qed.

Lemma download_file_counts env url name sha w :
  (count_events is_file_request (trace (download_file env url name sha w).1)
   ≤ count_events is_file_request (trace w) + (MAX_RETRIES + 1))%nat
  ∧ (count_events is_link_request (trace (download_file env url name sha w).1)
     ≤ count_events is_link_request (trace w))%nat
  ∧ (count_events is_sleep (trace (download_file env url name sha w).1)
     ≤ count_events is_sleep (trace w) + MAX_RETRIES)%nat.
Proof.
  unfold download_file. destruct (os_path_exists _ w); [simpl; lia|].
  split; [|split].
  - apply (retry_loop_count_le is_file_request _ _ (λ _, 1%nat)).
    intros a r w'.
    destruct (download_attempt_counts env url name (download_path name sha) a r w')
      as (-> & _). lia.
  - pose proof (retry_loop_count_le is_link_request
                  (download_attempt env url name (download_path name sha)) (Ok false)
                  (λ _, 0%nat)) as H.
    etrans; [apply H|].
    + intros a r w'.
      destruct (download_attempt_counts env url name (download_path name sha) a r w')
        as (_ & -> & _). lia.
    + assert (sum_list ((λ _ : nat, 0%nat) <$> attempts_range) = 0%nat) as -> by reflexivity.
      lia.
  - apply (retry_loop_count_le is_sleep _ _ sleeps_after).
    intros a r w'.
    by destruct (download_attempt_counts env url name (download_path name sha) a r w')
      as (_ & _ & ?).
Qed.

Lemma process_body_counts env entry w :
  (count_events is_link_request (trace (process_body env entry w))
   ≤ count_events is_link_request (trace w) + (MAX_RETRIES + 1))%nat
  ∧ (count_events is_file_request (trace (process_body env entry w))
     ≤ count_events is_file_request (trace w) + (MAX_RETRIES + 1))%nat
  ∧ (count_events is_sleep (trace (process_body env entry w))
     ≤ count_events is_sleep (trace w) + 2 * MAX_RETRIES)%nat.
Proof.
  unfold process_body. destruct (truthy (sha256 entry)); [|repeat split; count_trace].
  pose proof (get_download_link_counts env (default "" (sha256 entry)) w) as (Hl & Hf & Hs).
  destruct (get_download_link env (default "" (sha256 entry)) w) as [w1 [link|x]];
    simpl in Hl, Hf, Hs; [|repeat split; count_trace].
  destruct (py_truthy_opt link); [|repeat split; count_trace].
  pose proof (download_file_counts env (default JNull link)
                (default "None" (derive_filename env entry)) (sha256 entry) w1)
    as (Hf' & Hl' & Hs').
  destruct (download_file _ _ _ _ w1) as [w2 [[|]|x]]; simpl in *;
    unfold log; simpl; rewrite ?count_events_snoc; simpl;
    unfold MAX_RETRIES in *; repeat split; lia.
Qed.

(** X7.  One task makes at most MAX_RETRIES + 1 link requests and at most
    MAX_RETRIES + 1 byte requests, sleeps at most 2 * MAX_RETRIES times, and
    never requests a feed page, whatever the outside answers. *)
Theorem task_stays_in_budget (env : Env) (entry : HashRecord) (w : World) :
  let w' := process_hash_entry env entry w in
  (count_events is_link_request (trace w')
   ≤ count_events is_link_request (trace w) + (MAX_RETRIES + 1))%nat
  ∧ (count_events is_file_request (trace w')
     ≤ count_events is_file_request (trace w) + (MAX_RETRIES + 1))%nat
  ∧ (count_events is_sleep (trace w')
     ≤ count_events is_sleep (trace w) + 2 * MAX_RETRIES)%nat
  ∧ count_events is_feed_request (trace w') = count_events is_feed_request (trace w).
Proof.
  intros w'. subst w'. unfold process_hash_entry.
  destruct (process_finally_frame entry (process_body env entry w))
    as (_ & _ & _ & _ & evs & Ht & Ha).
  assert (Hfin : ∀ f, (∀ e, is_sleep_or_log e = true → is_sleep e = false → f e = false) →
            Forall (λ e, is_sleep e = false) evs →
            count_events f (trace (process_finally entry (process_body env entry w)))
            = count_events f (trace (process_body env entry w))).
  { intros f Hf Hall. rewrite Ht, count_events_app.
    assert (count_events f evs = 0%nat) as ->; [|lia].
    clear Ht. induction evs as [|e evs IH]; [done|].
    apply Forall_cons in Hall as [He Hall]. simpl in Ha.
    apply andb_true_iff in Ha as [Ha1 Ha2].
    change (e :: evs) with ([e] ++ evs)%list. rewrite count_events_app, (IH Ha2 Hall).
    unfold count_events. rewrite filter_cons_False; [done|]. by rewrite (Hf e Ha1 He). }
  assert (Hnosleep : Forall (λ e, is_sleep e = false) evs).
  { clear Hfin. revert Ht. unfold process_finally.
    destruct (truthy (sha256 entry)); [destruct (0 <? _)|]; simpl; intros Ht.
    - assert (evs = []) as -> by (apply (app_inv_head (trace (process_body env entry w)));
                                    by rewrite <- Ht, app_nil_r). done.
    - apply app_inv_head in Ht as <-. by repeat constructor.
    - assert (evs = []) as -> by (apply (app_inv_head (trace (process_body env entry w)));
                                    by rewrite <- Ht, app_nil_r). done. }
  rewrite (Hfin is_link_request), (Hfin is_file_request), (Hfin is_feed_request);
    [|by intros []|done|by intros []|done|by intros []|done].
  assert (Hsleep : count_events is_sleep
                     (trace (process_finally entry (process_body env entry w)))
                   = count_events is_sleep (trace (process_body env entry w))).
  { rewrite Ht, count_events_app.
    assert (count_events is_sleep evs = 0%nat) as ->; [|lia].
    clear -Hnosleep. induction Hnosleep as [|e evs He _ IH]; [done|].
    change (e :: evs) with ([e] ++ evs)%list. rewrite count_events_app, IH.
    unfold count_events. rewrite filter_cons_False; [done|]. by rewrite He. }
  rewrite Hsleep.
  destruct (process_body_counts env entry w) as (H1 & H2 & H3).
  split; [done|]. split; [done|]. split; [done|].
  apply (task_frame_count is_feed_request _ _ _ ltac:(by intros [])
           (process_body_frame env entry w)).
Qed.

(** ** The feed fetch when every attempt fails *)

Lemma fetch_attempt_gives_up env page_number response w :
  feed_attempt_fails env page_number MAX_RETRIES = true →
  ∃ w', fetch_hashes_attempt env page_number MAX_RETRIES response w = (w', Return (Ok None))
        ∧ trace w' = (trace w ++ [EvFeedRequest page_number;
                                  EvLog ERROR "Error fetching hash feed page"])%list
        ∧ error_counts (stats w')
          = bump (feed_failure_key page_number) (error_counts (stats w)).
Proof.
  assert (Hec : ∀ status s,
            error_counts (update_statistics (Some status) None None None None s)
            = error_counts s).
  { intros status s. unfold update_statistics. simpl. by destruct (status =? 0). }
  intros Hf. unfold feed_attempt_fails in Hf.
  unfold fetch_hashes_attempt, feed_request_failed. rewrite Nat.ltb_irrefl.
  destruct (feed_reply env page_number MAX_RETRIES) as [|status body].
  - eexists. split; [done|]. destruct response; simpl; rewrite ?Hec, <- ?app_assoc; done.
  - rewrite Hf. eexists. split; [done|]. simpl. rewrite !Hec, <- !app_assoc. done.
Qed.

(** X8.  When every attempt of the budget fails with a request error,
    [fetch_hashes_page] returns None after exactly MAX_RETRIES + 1 requests and
    MAX_RETRIES sleeps, counts the failure once under the key of the page, and
    the paginator stops. *)
Theorem feed_gives_up_after_budget (env : Env) (page_number : Z) (w : World) :
  (∀ j, (j ≤ MAX_RETRIES)%nat → feed_attempt_fails env page_number j = true) →
  (fetch_hashes_page env page_number w).2 = Ok None
  ∧ trace (fetch_hashes_page env page_number w).1
    = (after_retries (feed_retry_events page_number) MAX_RETRIES w
       ++ [EvFeedRequest page_number; EvLog ERROR "Error fetching hash feed page"])%list
  ∧ count_events is_feed_request (trace (fetch_hashes_page env page_number w).1)
    = (count_events is_feed_request (trace w) + (MAX_RETRIES + 1))%nat
  ∧ count_events is_sleep (trace (fetch_hashes_page env page_number w).1)
    = (count_events is_sleep (trace w) + MAX_RETRIES)%nat
  ∧ error_counts (stats (fetch_hashes_page env page_number w).1)
    = bump (feed_failure_key page_number) (error_counts (stats w))
  ∧ (should_stop (counters w) = false → (main_page env page_number w).2 = Debrief).
Proof.
  intros Hfail.
  assert (H : (fetch_hashes_page env page_number w).2 = Ok None
              ∧ trace (fetch_hashes_page env page_number w).1
                = (after_retries (feed_retry_events page_number) MAX_RETRIES w
                   ++ [EvFeedRequest page_number;
                       EvLog ERROR "Error fetching hash feed page"])%list
              ∧ error_counts (stats (fetch_hashes_page env page_number w).1)
                = bump (feed_failure_key page_number) (error_counts (stats w))).
  { apply (fetch_hashes_page_at env page_number MAX_RETRIES w
             (λ w' a, a = Ok None
                ∧ trace w' = (after_retries (feed_retry_events page_number) MAX_RETRIES w
                                ++ [EvFeedRequest page_number;
                                    EvLog ERROR "Error fetching hash feed page"])%list
                ∧ error_counts (stats w')
                  = bump (feed_failure_key page_number) (error_counts (stats w))));
      [done|by intros j Hj; apply Hfail; lia|].
    intros response w' _ He Ht.
    destruct (fetch_attempt_gives_up env page_number response w') as (w'' & -> & Ht' & He');
      [by apply Hfail|].
    eexists _, _. split; [done|]. split; [done|]. split; [by rewrite Ht', Ht|congruence]. }
  destruct H as (Hres & Htrace & Herr).
  split; [done|]. split; [done|]. split; [|split; [|split; [done|]]].
  - rewrite Htrace, count_events_app, count_after_retries_feed.
    replace (count_events is_feed_request [_; _]) with 1%nat by reflexivity. lia.
  - rewrite Htrace, count_events_app. unfold after_retries.
    rewrite count_events_app, count_events_retries.
    replace (count_events is_sleep (feed_retry_events page_number)) with 1%nat by reflexivity.
    replace (count_events is_sleep [_; _]) with 0%nat by reflexivity. lia.
  - intros Hs. pose proof (main_page_of_fetch env page_number w Hs) as Hm.
    rewrite Hres in Hm. by rewrite Hm.
Qed.

Lemma feed_gives_up_after_budget_witness :
  (fetch_hashes_page dead_feed_env 1 (world0 dead_feed_env)).2 = Ok None
  ∧ count_events is_feed_request
      (trace (fetch_hashes_page dead_feed_env 1 (world0 dead_feed_env)).1) = 4%nat.
Proof.
  destruct (feed_gives_up_after_budget dead_feed_env 1 (world0 dead_feed_env))
    as (H1 & _ & H2 & _).
  - intros j Hj. reflexivity.
  - exact (conj H1 H2).
Defined.

(** One attempt: the status is counted on receipt (line 171) and, when it
    raises, again in the handler (line 186). *)
Lemma fetch_attempt_status_counting
    (env : Env) (page_number : Z) (attempt : nat) (response : option Z)
    (status : Z) (body : decoded) (w : World) :
  feed_reply env page_number attempt = Response status body → status ≠ 0 →
  http_status_counts (stats (fetch_hashes_attempt env page_number attempt response w).1)
  = if raises_for_status status
    then bump status (bump status (http_status_counts (stats w)))
    else bump status (http_status_counts (stats w)).
Proof.
  intros Hr Hne. unfold fetch_hashes_attempt, feed_request_failed. rewrite Hr.
  assert (Hup : ∀ s, http_status_counts (update_statistics (Some status) None None None None s)
                     = bump status (http_status_counts s)).
  { intros s. unfold update_statistics. simpl.
    destruct (Z.eqb_spec status 0); done. }
  assert (Hkey : ∀ key s, truthy (Some key) = true →
            http_status_counts (update_statistics None (Some key) None None None s)
            = http_status_counts s).
  { intros key s Hk. unfold update_statistics. rewrite Hk. simpl.
    by destruct (bool_decide _). }
  destruct (raises_for_status status).
  - destruct (attempt <? MAX_RETRIES)%nat; simpl; rewrite ?Hkey, ?Hup; done.
  - destruct body as [|j]; simpl.
    + by rewrite ?Hkey, ?Hup.
    + destruct (py_contains "data" j) as [[|]|]; simpl; rewrite ?Hup; try done.
      destruct (py_getitem "data" j) as [d|]; simpl; rewrite ?Hup; try done.
      destruct (isinstance_list d); simpl; by rewrite ?Hup.
Qed.

(** A feed that answers 503 to everything. *)
Lemma bump_lookup (k : Z) (d : gmap Z Z) :
  default 0 (bump k d !! k) = default 0 (d !! k) + 1.
Proof. unfold bump. by rewrite lookup_insert_eq. Qed.

(** X9.  An HTTP error status of the feed is counted twice per attempt.
    When the feed answers every attempt of the budget with the same error
    status, one call of [fetch_hashes_page] makes MAX_RETRIES + 1 requests and
    leaves the count of that status in http_status_counts higher by twice that
    number: once on receipt (line 171) and once more in the handler
    (line 186). *)
Theorem feed_error_status_is_counted_twice
    (env : Env) (page_number : Z) (status : Z) (w : World) :
  raises_for_status status = true →
  (∀ attempt, (attempt ≤ MAX_RETRIES)%nat →
     ∃ body, feed_reply env page_number attempt = Response status body) →
  default 0 (http_status_counts (stats (fetch_hashes_page env page_number w).1) !! status)
  = default 0 (http_status_counts (stats w) !! status) + 2 * (Z.of_nat MAX_RETRIES + 1)
  ∧ count_events is_feed_request (trace (fetch_hashes_page env page_number w).1)
    = (count_events is_feed_request (trace w) + S MAX_RETRIES)%nat.
Proof.
  intros Hraise Hreply.
  assert (status ≠ 0) as Hne.
  { intros ->. done. }
  assert (Hfails : ∀ attempt, (attempt ≤ MAX_RETRIES)%nat →
            feed_attempt_fails env page_number attempt = true).
  { intros attempt Ha. unfold feed_attempt_fails.
    destruct (Hreply attempt Ha) as [body ->]. done. }
  assert (Hstep : ∀ attempt response w',
            (attempt ≤ MAX_RETRIES)%nat →
            default 0 (http_status_counts
                         (stats (fetch_hashes_attempt env page_number attempt response w').1)
                       !! status)
            = default 0 (http_status_counts (stats w') !! status) + 2
            ∧ count_events is_feed_request
                (trace (fetch_hashes_attempt env page_number attempt response w').1)
              = (count_events is_feed_request (trace w') + 1)%nat).
  { intros attempt response w' Ha. destruct (Hreply attempt Ha) as [body Hb].
    rewrite (fetch_attempt_status_counting env page_number attempt response status body w'
               Hb Hne), Hraise, !bump_lookup.
    split; [lia|]. apply fetch_hashes_attempt_counts. }
  unfold fetch_hashes_page. rewrite (attempts_range_split MAX_RETRIES (le_n _)).
  apply (retry_loop_returns_at
           (λ i w', default 0 (http_status_counts (stats w') !! status)
                    = default 0 (http_status_counts (stats w) !! status) + 2 * Z.of_nat i
                    ∧ count_events is_feed_request (trace w')
                      = (count_events is_feed_request (trace w) + i)%nat)
           (λ w' _, default 0 (http_status_counts (stats w') !! status)
                    = default 0 (http_status_counts (stats w) !! status)
                      + 2 * (Z.of_nat MAX_RETRIES + 1)
                    ∧ count_events is_feed_request (trace w')
                      = (count_events is_feed_request (trace w) + S MAX_RETRIES)%nat)).
  - intros i attempt response w' Hi [Hh Hc].
    apply lookup_seq_0 in Hi as [-> Hi].
    destruct (Hstep i response w' ltac:(lia)) as [Hh' Hc'].
    destruct (fetch_attempt_retried env page_number i response w')
      as (w'' & r' & Heq & _); [apply Hfails; lia|lia|].
    rewrite Heq in Hh', Hc'. simpl in Hh', Hc'.
    exists w'', r'. split; [done|]. split; lia.
  - rewrite length_seq. intros response w' [Hh Hc].
    destruct (Hstep MAX_RETRIES response w' (le_n _)) as [Hh' Hc'].
    destruct (fetch_attempt_gives_up env page_number response w')
      as (w'' & Heq & _); [by apply Hfails|].
    rewrite Heq in Hh', Hc'. simpl in Hh', Hc'.
    exists w'', (Ok None). split; [done|]. split; lia.
  - split; lia.
Qed.

Lemma feed_error_status_is_counted_twice_witness :
  default 0 (http_status_counts
               (stats (fetch_hashes_page unavailable_feed_env 1
                         (world0 unavailable_feed_env)).1) !! 503) = 8.
Proof.
  destruct (feed_error_status_is_counted_twice unavailable_feed_env 1 503
              (world0 unavailable_feed_env)) as [H _].
  - reflexivity.
  - intros attempt _. by exists Undecodable.
  - rewrite H. reflexivity.
Defined.

(** ** Link resolution and what the task makes of it *)

Lemma link_attempt_answered env h attempt response status fields url w :
  link_reply env h attempt = Response status (Decoded (JObj fields)) →
  status ≠ 404 → raises_for_status status = false →
  obj_get "file_path" fields = Some (JStr url) →
  ∃ w', get_download_link_attempt env h attempt response w
        = (w', Return (Ok (Some (JStr url))))
        ∧ trace w' = (trace w ++ [EvLinkRequest h])%list.
Proof.
  intros Hr H404 Hs Hget.
  unfold get_download_link_attempt. rewrite Hr, Hs.
  destruct (Z.eqb_spec status 404); [done|].
  rewrite Hget. by eexists.
Qed.

(** X10.  [get_download_link] returns the file_path value of the first
    reply that is not a request error.  When the first k attempts fail and
    attempt k answers with an object that has a string file_path, the
    function returns that string after k + 1 requests (one retry delay after
    each failure) and leaves counters, disk and processed log as they were. *)
Theorem link_resolves_after_failures
    (env : Env) (h : string) (k : nat) (status : Z) (fields : list (string * json))
    (url : string) (w : World) :
  (k ≤ MAX_RETRIES)%nat →
  (∀ i, (i < k)%nat → link_attempt_fails env h i = true) →
  link_reply env h k = Response status (Decoded (JObj fields)) →
  status ≠ 404 → raises_for_status status = false →
  obj_get "file_path" fields = Some (JStr url) →
  (get_download_link env h w).2 = Ok (Some (JStr url))
  ∧ trace (get_download_link env h w).1
    = (after_retries (link_retry_events h) k w ++ [EvLinkRequest h])%list
  ∧ count_events is_link_request (trace (get_download_link env h w).1)
    = (count_events is_link_request (trace w) + S k)%nat
  ∧ counters (get_download_link env h w).1 = counters w
  ∧ files (get_download_link env h w).1 = files w
  ∧ log_lines (get_download_link env h w).1 = log_lines w.
Proof.
  intros Hk Hfail Hr H404 Hs Hget.
  pose proof (get_download_link_quiet env h w) as [Hc _ Hf Hl _ _].
  assert (H : (get_download_link env h w).2 = Ok (Some (JStr url))
              ∧ trace (get_download_link env h w).1
                = (after_retries (link_retry_events h) k w ++ [EvLinkRequest h])%list).
  { apply (get_download_link_at env h k w
             (λ w' a, a = Ok (Some (JStr url))
                ∧ trace w' = (after_retries (link_retry_events h) k w
                                ++ [EvLinkRequest h])%list)); [done|done|].
    intros response w' _ Ht.
    destruct (link_attempt_answered env h k response status fields url w' Hr H404 Hs Hget)
      as (w'' & -> & Ht').
    eexists _, _. split; [done|]. split; [done|]. by rewrite Ht', Ht. }
  destruct H as [Hres Ht]. split; [done|]. split; [done|]. split; [|done].
  rewrite Ht, count_events_app, count_after_retries_link.
  replace (count_events is_link_request (link_retry_events h)) with 1%nat by reflexivity.
  replace (count_events is_link_request [_]) with 1%nat by reflexivity. lia.
Qed.

Lemma link_resolves_after_failures_witness :
  (get_download_link one_sample_env "aa" (world0 one_sample_env)).2
  = Ok (Some (JStr "https://cdn.example/aa")).
Proof.
  destruct (link_resolves_after_failures one_sample_env "aa" 0 200
              [("file_path", JStr "https://cdn.example/aa")] "https://cdn.example/aa"
              (world0 one_sample_env)) as (H & _).
  - unfold MAX_RETRIES. lia.
  - intros i Hi. lia.
  - reflexivity.
  - lia.
  - reflexivity.
  - reflexivity.
  - exact H.
Defined.

(** X11.  When link resolution ends without a usable link (the reply is not
    an object, which raises AttributeError inside the task, or its file_path
    is missing or false as a Python value), the task ends there: no byte
    request, no file or log change, downloaded_count and failed_count as
    before, the in-flight slot given back.  The error stays inside the
    task.  A file_path that is true as a Python value is a link to the code,
    also when it is not a string: that case is the failed fetch below. *)
Theorem task_without_link_ends_quietly (env : Env) (entry : HashRecord) (w : World) :
  truthy (sha256 entry) = true →
  link_unusable (get_download_link env (hash_of entry) w).2 →
  0 < pending_downloads_count (counters w) →
  let w' := process_hash_entry env entry w in
  count_events is_file_request (trace w') = count_events is_file_request (trace w)
  ∧ files w' = files w
  ∧ log_lines w' = log_lines w
  ∧ downloaded_count (counters w') = downloaded_count (counters w)
  ∧ failed_count (counters w') = failed_count (counters w)
  ∧ pending_downloads_count (counters w') = pending_downloads_count (counters w) - 1
  ∧ ∃ lvl msg, last (trace w') = Some (EvLog lvl msg)
               ∧ (lvl = ERROR ↔ ∃ e, (get_download_link env (hash_of entry) w).2 = Raise e).
Proof.
  intros Ht Hun Hpos w'.
  pose proof (get_download_link_quiet env (hash_of entry) w) as Hq.
  pose proof (quiet_count is_file_request link_events _ _ ltac:(by intros []) Hq) as Hcount.
  destruct Hq as [Hc _ Hf Hl _ _].
  subst w'. unfold process_hash_entry.
  rewrite process_finally_admitted; [|done|].
  2:{ by rewrite (tf_pending _ _ _ (process_body_frame env entry w)). }
  rewrite (process_body_of_link env entry w Ht).
  destruct (get_download_link env (hash_of entry) w) as [w1 [link|e]]; simpl in *.
  - rewrite Hun. simpl. rewrite Hc, Hf, Hl, count_events_snoc, Hcount. simpl.
    repeat split; try done; try lia.
    eexists _, _. rewrite last_snoc. split; [done|]. split; [done|]. by intros [e ?].
  - rewrite Hc, Hf, Hl, count_events_snoc, Hcount. simpl.
    repeat split; try done; try lia.
    eexists _, _. rewrite last_snoc. split; [done|]. split; [by eexists|done].
Qed.

Lemma task_without_link_ends_quietly_witness :
  count_events is_file_request
    (trace (process_hash_entry list_link_env ex_entry (admitted_world list_link_env)))
  = 0%nat
  ∧ pending_downloads_count
      (counters (process_hash_entry list_link_env ex_entry (admitted_world list_link_env)))
    = 0.
Proof.
  destruct (task_without_link_ends_quietly list_link_env ex_entry
              (admitted_world list_link_env)) as (H1 & _ & _ & _ & _ & H2 & _).
  - reflexivity.
  - vm_compute. exact I.
  - simpl. lia.
  - exact (conj H1 H2).
Defined.

(** ** The net effect of a task that fetches *)

Lemma download_failed_log_lines env name path attempt response w :
  log_lines (download_failed env name path attempt response w).1 = log_lines w.
Proof.
  unfold download_failed.
  set (w1 := log ERROR "Download error" w).
  assert (log_lines (if os_path_exists path w1
                     then match os_remove env path attempt w1 with
                          | Some w' => w'
                          | None => log ERROR "Error removing partial file" w1
                          end
                     else w1) = log_lines w) as H.
  { destruct (os_path_exists path w1); [|done].
    unfold os_remove.
    by destruct (remove_fails env path attempt); destruct (files w1 !! path). }
  revert H. generalize (if os_path_exists path w1
                     then match os_remove env path attempt w1 with
                          | Some w' => w'
                          | None => log ERROR "Error removing partial file" w1
                          end
                     else w1). intros w2 H.
  destruct (attempt <? MAX_RETRIES)%nat; [done|].
  destruct response as [status|]; [destruct (status =? 0)|]; done.
Qed.

Lemma download_attempt_log_lines env url name path attempt response w :
  log_lines (download_attempt env url name path attempt response w).1 = log_lines w.
Proof.
  unfold download_attempt.
  destruct url as [| | |url| |]; try by rewrite download_failed_log_lines.
  destruct (file_reply env url attempt) as [|status body].
  - by rewrite download_failed_log_lines.
  - destruct (raises_for_status status); [by rewrite download_failed_log_lines|].
    destruct (disk_faults env path attempt) as [| |size]; [|done..].
    destruct (broken body); [by rewrite download_failed_log_lines|done].
Qed.

(** [download_file] never writes the processed log: that is the caller's
    step, after a True return. *)
Lemma download_file_log_lines env url name sha w :
  log_lines (download_file env url name sha w).1 = log_lines w.
Proof.
  unfold download_file. destruct (os_path_exists _ w); [done|].
  apply (retry_loop_ind (λ w', log_lines w' = log_lines w)
           (λ w' _, log_lines w' = log_lines w)); [|done|done].
  intros attempt response w' Hw'.
  pose proof (download_attempt_log_lines env url (name) (download_path name sha)
                attempt response w') as H.
  destruct (download_attempt _ _ _ _ _ _ w') as [w'' [a|r]]; simpl in H; congruence.
Qed.

(** A link that is not a string: every [requests.get] on it raises, no file
    is opened, and the budget runs out. *)
Lemma download_file_invalid_link env link name sha w :
  match link with JStr _ => False | _ => True end →
  files w !! download_path name sha = None →
  (download_file env link name sha w).2 = Ok false
  ∧ counters (download_file env link name sha w).1
    = set_failed (failed_count (counters w) + 1) (counters w)
  ∧ files (download_file env link name sha w).1 = files w
  ∧ count_events is_file_request (trace (download_file env link name sha w).1)
    = (count_events is_file_request (trace w) + S MAX_RETRIES)%nat.
Proof.
  intros Hlink Hfresh. unfold download_file, os_path_exists.
  rewrite Hfresh, bool_decide_eq_false_2 by (by intros [??]).
  rewrite (attempts_range_split MAX_RETRIES (le_n _)).
  set (path := download_path name sha) in *.
  assert (Hstep : ∀ attempt response w', between_attempts w w' →
            download_attempt env link name path attempt response w'
            = download_failed env name path attempt response
                (emit (EvFileRequestInvalid link) w')
            ∧ os_path_exists path
                (log ERROR "Download error" (emit (EvFileRequestInvalid link) w')) = false).
  { intros attempt response w' [_ _ Hf _]. split.
    - by destruct link.
    - unfold os_path_exists. simpl. rewrite Hf, Hfresh.
      by apply bool_decide_eq_false_2; intros [??]. }
  apply (retry_loop_returns_at
           (λ i w', between_attempts w w'
                    ∧ count_events is_file_request (trace w')
                      = (count_events is_file_request (trace w) + i)%nat)).
  - intros i attempt response w' Hi [Hb Ht].
    apply lookup_seq_0 in Hi as [-> Hi].
    destruct (Hstep i response w' Hb) as [-> Hex].
    unfold download_failed. rewrite Hex.
    assert ((i <? MAX_RETRIES)%nat = true) as -> by (apply Nat.ltb_lt; lia).
    eexists _, _. split; [done|]. split; [by destruct Hb|].
    simpl. rewrite !count_events_snoc, Ht. simpl. lia.
  - rewrite length_seq. intros response w' [Hb Ht].
    destruct (Hstep MAX_RETRIES response w' Hb) as [-> Hex].
    unfold download_failed. rewrite Hex, Nat.ltb_irrefl.
    destruct Hb as [Hc _ Hf _].
    eexists _, _. split; [done|]. split; [done|].
    destruct response as [st|]; [destruct (st =? 0)|];
      simpl; rewrite Hc, Hf, !count_events_snoc, Ht; simpl;
      (split; [done|]); (split; [done|]); lia.
  - split; [apply between_refl|]. lia.
Qed.

(** X12.  A task whose link resolves to a string and whose byte fetch succeeds
    within the budget, on a disk that takes every write and removal it is
    asked for, leaves the file on disk with the size of the stream, appends
    its hash to the processed log, adds one to downloaded_count and gives its
    in-flight slot back, so downloaded + pending is what it was. *)
Theorem task_success_is_recorded
    (env : Env) (entry : HashRecord) (url : string) (k : nat)
    (status : Z) (body : stream) (w : World) :
  truthy (sha256 entry) = true →
  (get_download_link env (hash_of entry) w).2 = Ok (Some (JStr url)) → url ≠ "" →
  files w !! path_join DOWNLOAD_DIR (hash_of entry) = None →
  (k ≤ MAX_RETRIES)%nat →
  (∀ j, (j < k)%nat → file_attempt_fails env url j = true) →
  (∀ j, (j < k)%nat → disk_ok env (path_join DOWNLOAD_DIR (hash_of entry)) j = true) →
  file_reply env url k = Response status body →
  raises_for_status status = false → broken body = false →
  disk_faults env (path_join DOWNLOAD_DIR (hash_of entry)) k = NoFault →
  0 < pending_downloads_count (counters w) →
  let w' := process_hash_entry env entry w in
  files w' = <[path_join DOWNLOAD_DIR (hash_of entry) := total_size (chunks body)]> (files w)
  ∧ log_lines w' = Some (default [] (log_lines w) ++ [hash_of entry])%list
  ∧ downloaded_count (counters w') = downloaded_count (counters w) + 1
  ∧ failed_count (counters w') = failed_count (counters w)
  ∧ pending_downloads_count (counters w') = pending_downloads_count (counters w) - 1
  ∧ downloaded_count (counters w') + pending_downloads_count (counters w')
    = downloaded_count (counters w) + pending_downloads_count (counters w).
Proof.
  intros Ht Hlink Hurl Hfresh Hk Hfail Hdisk Hr Hs Hb Hnf Hpos w'.
  pose proof (get_download_link_quiet env (hash_of entry) w) as [Hc _ Hf Hl _ _].
  subst w'. unfold process_hash_entry.
  rewrite process_finally_admitted; [|done|].
  2:{ by rewrite (tf_pending _ _ _ (process_body_frame env entry w)). }
  rewrite (process_body_of_link env entry w Ht).
  destruct (get_download_link env (hash_of entry) w) as [w1 r]; cbn [fst snd] in *. subst r.
  cbn [py_truthy_opt py_truthy default].
  assert (String.eqb url "" = false) as -> by (by apply String.eqb_neq).
  cbn [negb].
  destruct (download_file_succeeds_at env url
              (default "None" (derive_filename env entry)) (sha256 entry) k status body w1)
    as (Hres & Hcd & Hfd & _); try done.
  { by rewrite (download_path_of_hash _ entry Ht), Hf. }
  { by rewrite (download_path_of_hash _ entry Ht). }
  { by rewrite (download_path_of_hash _ entry Ht). }
  rewrite (download_path_of_hash _ entry Ht) in Hfd.
  pose proof (download_file_log_lines env (JStr url)
                (default "None" (derive_filename env entry)) (sha256 entry) w1) as Hld.
  destruct (download_file _ _ _ _ w1) as [w2 ok]; simpl in *. subst ok.
  simpl. rewrite Hcd, Hfd, Hld, Hc, Hf, Hl. simpl.
  repeat split; try done; lia.
Qed.

Lemma task_success_is_recorded_witness :
  files (process_hash_entry one_sample_env ex_entry (admitted_world one_sample_env))
    !! path_join DOWNLOAD_DIR "aa" = Some 42
  ∧ log_lines (process_hash_entry one_sample_env ex_entry (admitted_world one_sample_env))
    = Some ["aa"].
Proof.
  destruct (task_success_is_recorded one_sample_env ex_entry
              "https://cdn.example/aa" 0 200
              (mkStream [40; 2]%nat false 2) (admitted_world one_sample_env))
    as (H1 & H2 & _).
  - reflexivity.
  - reflexivity.
  - discriminate.
  - reflexivity.
  - unfold MAX_RETRIES. lia.
  - intros j Hj. lia.
  - intros j Hj. lia.
  - reflexivity.
  - reflexivity.
  - reflexivity.
  - reflexivity.
  - simpl. lia.
  - split; [by rewrite H1|exact H2].
Defined.

(** X13.  A task whose link resolves to a value that is true in Python, but
    whose byte fetch fails with a request error on every attempt of the
    budget (as it does for every link that is not a string), on a disk that
    takes every write and removal it is asked for, makes MAX_RETRIES + 1
    byte requests, leaves no file and no log line behind, adds one to
    failed_count and gives its in-flight slot back.  The hash is not
    recorded, so a later run takes it up again. *)
Theorem task_failure_is_recorded
    (env : Env) (entry : HashRecord) (link : json) (w : World) :
  truthy (sha256 entry) = true →
  (get_download_link env (hash_of entry) w).2 = Ok (Some link) → py_truthy link = true →
  files w !! path_join DOWNLOAD_DIR (hash_of entry) = None →
  (∀ j, (j ≤ MAX_RETRIES)%nat → fetch_attempt_fails env link j = true) →
  (∀ j, (j ≤ MAX_RETRIES)%nat →
        disk_ok env (path_join DOWNLOAD_DIR (hash_of entry)) j = true) →
  0 < pending_downloads_count (counters w) →
  let w' := process_hash_entry env entry w in
  files w' = files w
  ∧ log_lines w' = log_lines w
  ∧ downloaded_count (counters w') = downloaded_count (counters w)
  ∧ failed_count (counters w') = failed_count (counters w) + 1
  ∧ pending_downloads_count (counters w') = pending_downloads_count (counters w) - 1
  ∧ count_events is_file_request (trace w')
    = (count_events is_file_request (trace w) + S MAX_RETRIES)%nat.
Proof.
  intros Ht Hlink Htl Hfresh Hfail Hdisk Hpos w'.
  pose proof (get_download_link_quiet env (hash_of entry) w) as Hq.
  pose proof (quiet_count is_file_request link_events _ _ ltac:(by intros []) Hq) as Hcount.
  destruct Hq as [Hc _ Hf Hl _ _].
  subst w'. unfold process_hash_entry.
  rewrite process_finally_admitted; [|done|].
  2:{ by rewrite (tf_pending _ _ _ (process_body_frame env entry w)). }
  rewrite (process_body_of_link env entry w Ht).
  destruct (get_download_link env (hash_of entry) w) as [w1 r]; cbn [fst snd] in *. subst r.
  cbn [py_truthy_opt default]. rewrite Htl.
  pose proof (download_file_log_lines env link
                (default "None" (derive_filename env entry)) (sha256 entry) w1) as Hld.
  assert (Hex : (download_file env link (default "None" (derive_filename env entry))
                   (sha256 entry) w1).2 = Ok false
                ∧ counters (download_file env link
                              (default "None" (derive_filename env entry))
                              (sha256 entry) w1).1
                  = set_failed (failed_count (counters w1) + 1) (counters w1)
                ∧ files (download_file env link
                           (default "None" (derive_filename env entry))
                           (sha256 entry) w1).1 = files w1
                ∧ count_events is_file_request
                    (trace (download_file env link
                              (default "None" (derive_filename env entry))
                              (sha256 entry) w1).1)
                  = (count_events is_file_request (trace w1) + S MAX_RETRIES)%nat).
  { assert (Hfresh1 : files w1 !! download_path (default "None" (derive_filename env entry))
                                    (sha256 entry) = None)
      by (by rewrite (download_path_of_hash _ entry Ht), Hf).
    destruct link as [| | |url| |];
      try (by apply download_file_invalid_link).
    destruct (download_file_exhausted env url
                (default "None" (derive_filename env entry)) (sha256 entry) w1)
      as (Hres & Hcd & Hfd & Htd); try done.
    { intros j Hj. rewrite (download_path_of_hash _ entry Ht). by apply Hdisk. }
    split; [done|]. split; [done|]. split; [done|].
    rewrite Htd, !count_events_app.
    destruct (download_retries_counts env url
                (download_path (default "None" (derive_filename env entry)) (sha256 entry))
                MAX_RETRIES) as [_ ->].
    unfold download_failure_events. rewrite !count_events_app.
    replace (count_events is_file_request [EvFileRequest url;
                                           EvLog ERROR "Download error"])
      with 1%nat by reflexivity.
    replace (count_events is_file_request [EvLog ERROR "FINAL FAILED download"])
      with 0%nat by reflexivity.
    destruct (file_breaks_midstream env url MAX_RETRIES);
      [replace (count_events is_file_request
                  [EvRemove (download_path (default "None" (derive_filename env entry))
                               (sha256 entry))]) with 0%nat by reflexivity
      |replace (count_events is_file_request []) with 0%nat by reflexivity];
      generalize (count_events is_file_request (trace w1)); intros n;
      unfold MAX_RETRIES; lia. }
  destruct Hex as (Hres & Hcd & Hfd & Htd).
  destruct (download_file _ _ _ _ w1) as [w2 ok]; cbn [fst snd] in *. subst ok.
  cbn [upd_counters counters files log_lines trace set_pending set_failed
       downloaded_count failed_count pending_downloads_count].
  rewrite Hcd, Hfd, Hld, Hc, Hf, Hl, Htd, Hcount.
  cbn [set_failed downloaded_count failed_count pending_downloads_count].
  done.
Qed.

Lemma task_failure_is_recorded_witness :
  failed_count (counters (process_hash_entry dead_file_env ex_entry
                            (admitted_world dead_file_env))) = 1
  ∧ log_lines (process_hash_entry dead_file_env ex_entry (admitted_world dead_file_env))
    = None.
Proof.
  destruct (task_failure_is_recorded dead_file_env ex_entry
              (JStr "https://cdn.example/aa") (admitted_world dead_file_env))
    as (_ & H2 & _ & H4 & _).
  - reflexivity.
  - reflexivity.
  - reflexivity.
  - reflexivity.
  - intros j Hj. reflexivity.
  - intros j Hj. reflexivity.
  - simpl. lia.
  - exact (conj H4 H2).
Defined.

(** A number is a link to the code: [requests.get] is called on it
    MAX_RETRIES + 1 times, and the task ends as a failed download. *)
Example number_link_is_fetched_and_fails :
  (get_download_link number_link_env "aa" (admitted_world number_link_env)).2
  = Ok (Some (JNum 123))
  ∧ count_events is_file_request
      (trace (process_hash_entry number_link_env ex_entry (admitted_world number_link_env)))
    = S MAX_RETRIES
  ∧ failed_count (counters (process_hash_entry number_link_env ex_entry
                              (admitted_world number_link_env))) = 1.
Proof. vm_compute. by repeat split. Qed.

(** ** The processed log from one run to the next *)

(** X14.  Save/load round trip of the processed log.  A hash appended by
    [save_processed_hash] is in the set that [load_processed_hashes] reads back
    when a later run starts on that log, provided the log can be read and
    [str.strip()] leaves the hash as it is (no white space at either end, the
    Unicode spaces such as U+0085 and U+00A0 included); that run keeps it in
    processed_hashes while it paginates and never submits it. *)
Theorem saved_hash_is_skipped_by_the_next_run (env : Env) (h : string) (w : World) :
  h ≠ "" → strip h = h → has_line_break h = false →
  log_read_fails env = false →
  initial_log env = log_lines (save_processed_hash h w) →
  h ∈ loaded_set env
  ∧ (∀ s, reachable env s → paginating (main s) → h ∈ processed_hashes (world s))
  ∧ (∀ s, reachable env s → h ∉ task_hashes (tasks s)).
Proof.
  intros Hne Hstrip _ Hread Hlog. simpl in Hlog.
  assert (h ∈ loaded_set env) as Hin.
  { apply (loaded_set_spec env _ Hlog Hread). split; [done|].
    exists h. split; [|done]. apply elem_of_app. right. by apply list_elem_of_singleton. }
  split; [done|]. split.
  - intros s Hreach Hpag.
    by apply (dd_loaded _ _ (dedup_reachable env s Hreach) Hpag).
  - intros s Hreach Hsub.
    by apply (dd_fresh _ _ (dedup_reachable env s Hreach) h Hsub).
Qed.

Lemma saved_hash_is_skipped_by_the_next_run_witness :
  "aa" ∈ loaded_set second_run_env.
Proof.
  destruct (saved_hash_is_skipped_by_the_next_run second_run_env "aa"
              (world0 one_sample_env)) as (H & _).
  - discriminate.
  - reflexivity.
  - reflexivity.
  - reflexivity.
  - reflexivity.
  - exact H.
Defined.

(** ** The counters of the page filter *)

Lemma filter_entry_counts processed entry st :
  total_hashes_seen (filter_stats (filter_entry processed entry st))
  = total_hashes_seen (filter_stats st) + 1
  ∧ Z.of_nat (length (page_hash_list_for_submission (filter_entry processed entry st)))
    + page_internal_duplicates_skipped (filter_entry processed entry st)
    + skipped_processed_in_session (filter_stats (filter_entry processed entry st))
    + Z.of_nat (missing_hash [entry])
    = Z.of_nat (length (page_hash_list_for_submission st))
      + page_internal_duplicates_skipped st
      + skipped_processed_in_session (filter_stats st) + 1
  ∧ ∃ added, page_hash_list_for_submission (filter_entry processed entry st)
             = (page_hash_list_for_submission st ++ added)%list
             ∧ sublist added [entry].
Proof.
  unfold filter_entry, missing_hash.
  destruct (truthy (sha256 entry)) eqn:Ht; cbn [negb].
  - rewrite filter_cons_False by (by rewrite Ht).
    case_bool_decide; [|case_bool_decide]; cbn.
    + split; [lia|]. split; [lia|]. exists []. rewrite app_nil_r. split; [done|].
      apply sublist_nil_l.
    + split; [lia|]. split; [lia|]. exists []. rewrite app_nil_r. split; [done|].
      apply sublist_nil_l.
    + rewrite length_app. cbn. split; [lia|]. split; [lia|]. by exists [entry].
  - rewrite filter_cons_True by done. cbn.
    split; [lia|]. split; [lia|]. exists []. rewrite app_nil_r. split; [done|].
    apply sublist_nil_l.
Qed.

Lemma missing_hash_cons entry page :
  missing_hash (entry :: page) = (missing_hash [entry] + missing_hash page)%nat.
Proof.
  unfold missing_hash. change (entry :: page) with ([entry] ++ page)%list.
  by rewrite filter_app, length_app.
Qed.

Lemma build_page_batch_counts processed page st :
  total_hashes_seen (filter_stats (build_page_batch processed page st))
  = total_hashes_seen (filter_stats st) + Z.of_nat (length page)
  ∧ Z.of_nat (length (page_hash_list_for_submission (build_page_batch processed page st)))
    + page_internal_duplicates_skipped (build_page_batch processed page st)
    + skipped_processed_in_session (filter_stats (build_page_batch processed page st))
    + Z.of_nat (missing_hash page)
    = Z.of_nat (length (page_hash_list_for_submission st))
      + page_internal_duplicates_skipped st
      + skipped_processed_in_session (filter_stats st)
      + Z.of_nat (length page)
  ∧ ∃ added, page_hash_list_for_submission (build_page_batch processed page st)
             = (page_hash_list_for_submission st ++ added)%list
             ∧ sublist added page.
Proof.
  revert st. induction page as [|entry page IH]; intros st.
  { cbn. split; [lia|]. split; [lia|]. exists []. by rewrite app_nil_r. }
  change (build_page_batch processed (entry :: page) st)
    with (build_page_batch processed page (filter_entry processed entry st)).
  destruct (IH (filter_entry processed entry st)) as (IH1 & IH2 & added & IH3 & IH4).
  destruct (filter_entry_counts processed entry st) as (H1 & H2 & first & H3 & H4).
  rewrite missing_hash_cons. cbn [length].
  split; [lia|]. split; [lia|]. exists (first ++ added)%list.
  split; [by rewrite IH3, H3, <- app_assoc|].
  change (entry :: page) with ([entry] ++ page)%list. by apply sublist_app.
Qed.

(** X15.  The counters of the page filter add up.  After a page has been
    filtered, total_hashes_seen has grown by the length of the page, and every
    entry of the page is accounted for exactly once: in the batch, as a
    duplicate within the page, as already processed, or as lacking a hash.  The
    batch keeps the order of the page. *)
Theorem page_filter_counts_add_up
    (processed : gset string) (page : list HashRecord) (stats0 : Stats) :
  let st := build_page_batch processed page (filter_init stats0) in
  total_hashes_seen (filter_stats st) = total_hashes_seen stats0 + Z.of_nat (length page)
  ∧ Z.of_nat (length (page_hash_list_for_submission st))
    + page_internal_duplicates_skipped st
    + (skipped_processed_in_session (filter_stats st) - skipped_processed_in_session stats0)
    + Z.of_nat (missing_hash page)
    = Z.of_nat (length page)
  ∧ sublist (page_hash_list_for_submission st) page.
Proof.
  intros st.
  destruct (build_page_batch_counts processed page (filter_init stats0))
    as (H1 & H2 & added & H3 & H4).
  fold st in H1, H2, H3. cbn in H1, H2, H3.
  split; [done|]. split; [lia|]. by rewrite H3.
Qed.

(** ** The order in which the feed pages are requested *)

Lemma fetch_hashes_attempt_requests env n attempt response w p :
  page_requests p (fetch_hashes_attempt env n attempt response w).1
  = (page_requests p w + (if (n =? p)%Z then 1 else 0))%nat.
Proof.
  unfold page_requests, fetch_hashes_attempt, feed_request_failed.
  destruct (feed_reply env n attempt) as [|status body].
  { destruct (attempt <? MAX_RETRIES)%nat, response; count_trace. }
  destruct (raises_for_status status).
  { destruct (attempt <? MAX_RETRIES)%nat; count_trace. }
  destruct body as [|j]; [count_trace|].
  destruct (py_contains "data" j) as [[|]|]; [|count_trace..].
  destruct (py_getitem "data" j) as [d|]; [|count_trace].
  destruct (isinstance_list d); count_trace.
Qed.

Lemma fetch_hashes_page_requests env n w p :
  (p ≠ n → page_requests p (fetch_hashes_page env n w).1 = page_requests p w)
  ∧ (page_requests p (fetch_hashes_page env n w).1 ≤ page_requests p w + S MAX_RETRIES)%nat.
Proof.
  split.
  - intros Hp. unfold fetch_hashes_page.
    apply (retry_loop_ind (λ w', page_requests p w' = page_requests p w)
             (λ w' _, page_requests p w' = page_requests p w)); [|done|done].
    intros attempt response w' Hw'.
    pose proof (fetch_hashes_attempt_requests env n attempt response w' p) as H.
    destruct (n =? p) eqn:Hnp; [apply Z.eqb_eq in Hnp; congruence|].
    destruct (fetch_hashes_attempt _ _ _ _ w') as [w'' [a|r]]; simpl in H; lia.
  - unfold fetch_hashes_page, page_requests.
    assert (∀ attempt response w',
              (count_events (requests_page p)
                 (trace (fetch_hashes_attempt env n attempt response w').1)
               ≤ count_events (requests_page p) (trace w') + 1)%nat) as Hbody.
    { intros attempt response w'.
      pose proof (fetch_hashes_attempt_requests env n attempt response w' p) as H.
      unfold page_requests in H. rewrite H. destruct (n =? p); lia. }
    pose proof (retry_loop_count_le (requests_page p) (fetch_hashes_attempt env n)
                  (Ok None) (λ _, 1%nat) Hbody attempts_range None w) as H.
    replace (sum_list ((λ _, 1%nat) <$> attempts_range)) with (S MAX_RETRIES) in H
      by reflexivity.
    exact H.
Qed.

Lemma fetch_hashes_attempt_shape env n attempt response w :
  match (fetch_hashes_attempt env n attempt response w).2 with
  | Return r => page_shape r
  | Retry _ => True
  end.
Proof.
  unfold fetch_hashes_attempt, feed_request_failed.
  destruct (feed_reply env n attempt) as [|status body].
  { by destruct (attempt <? MAX_RETRIES)%nat. }
  destruct (raises_for_status status).
  { by destruct (attempt <? MAX_RETRIES)%nat. }
  destruct body as [|j]; [done|].
  assert (page_shape (Ok (Some empty_page))) as Hempty.
  { by exists [("data", JArr [])], []. }
  destruct (py_contains "data" j) as [[|]|] eqn:Hc; [|done..].
  destruct (py_getitem "data" j) as [d|] eqn:Hg; [|done].
  destruct (isinstance_list d) eqn:Hl; [|done].
  destruct j as [| | | | |fields]; try done.
  destruct d as [| | | |items|]; try done.
  simpl in Hg. destruct (obj_get "data" fields) as [x|] eqn:Hx; [|done].
  injection Hg as ->. simpl. by exists fields, items.
Qed.

Lemma fetch_hashes_page_shape env n w : page_shape (fetch_hashes_page env n w).2.
Proof.
  unfold fetch_hashes_page.
  apply (retry_loop_ind (λ _, True) (λ _ r, page_shape r)); [|done|done].
  intros attempt response w' _.
  pose proof (fetch_hashes_attempt_shape env n attempt response w') as H.
  by destruct (fetch_hashes_attempt _ _ _ _ w') as [w'' [a|r]].
Qed.

(** One iteration of the paginator: the requests are those of the fetch,
    and the cursor moves on or the loop is left. *)
Lemma main_page_cursor env n w :
  (∀ p, page_requests p (main_page env n w).1
        = page_requests p (if should_stop (counters w) then w
                           else (fetch_hashes_page env n w).1))
  ∧ match (main_page env n w).2 with
    | PageLoop m => m = n + 1
    | Submitting m _ _ => m = n
    | Debrief | Crashed _ | Untracked => True
    | Start | Waiting _ _ | Exited _ => False
    end.
Proof.
  unfold main_page. destruct (should_stop (counters w)); [done|].
  pose proof (fetch_hashes_page_shape env n w) as Hshape.
  destruct (fetch_hashes_page env n w) as [w1 [[j|]|x]]; simpl in *.
  2:{ split; [|done]. intros p. unfold page_requests. count_trace. }
  2:{ done. }
  destruct Hshape as (fields & items & -> & Hget).
  assert (py_truthy (JObj fields) = true) as -> by (by destruct fields).
  simpl. rewrite Hget. rewrite bool_decide_eq_true_2 by (by eexists).
  destruct items as [|e items]; [done|]. cbn [py_truthy negb].
  destruct (filter_entries (processed_hashes w1) (e :: items) (filter_init (stats w1)))
    as [[st|]|]; [|done..].
  destruct (page_hash_list_for_submission st); [|by destruct (NUM_THREADS env <=? 0)].
  split; [|done]. intros p. unfold page_requests. count_trace.
Qed.

Lemma main_start_requests env w p :
  page_requests p (main_start env w).1 = page_requests p w
  ∧ match (main_start env w).2 with
    | PageLoop m => m = 1
    | Debrief | Exited _ | Crashed _ => True
    | _ => False
    end.
Proof.
  destruct (main_start_trace env w) as (_ & evs & Ht & Ha).
  split.
  - unfold page_requests. rewrite Ht, count_events_app.
    rewrite (count_events_none (requests_page p) is_sleep_or_log evs);
      [lia|by intros []|done].
  - unfold main_start. destruct (String.eqb (API_KEY env) "" || _); [done|].
    destruct (makedirs_fails env); [done|].
    destruct (load_processed_hashes env w) as [w1 initial].
    by destruct (should_stop _).
Qed.

Lemma main_submit_requests env n entry rest futures s p :
  page_requests p (world (main_submit env n entry rest futures s)) = page_requests p (world s)
  ∧ match main (main_submit env n entry rest futures s) with
    | Submitting m _ _ | Waiting m _ => m = n
    | _ => False
    end.
Proof.
  unfold main_submit.
  destruct (try_admit (MAX_DOWNLOAD env) (counters (world s))) as [c submit].
  cbn [upd_counters counters].
  destruct (should_stop c); [done|]. destruct submit; [|done].
  split; [|done]. unfold page_requests. count_trace.
Qed.

Lemma paging_step env l s s' : paging s → step env l s = Some s' → paging s'.
Proof.
  intros [Hb Hl Hc] Hstep. destruct l as [|i]; simpl in Hstep.
  - unfold step_main in Hstep.
    destruct (main s) as [|n|n [|entry rest] futures|n futures| | | |] eqn:Hm; try done.
    + injection Hstep as <-.
      pose proof (λ p, main_start_requests env (world s) p) as H.
      split; cbn [world main].
      * intros p. rewrite (proj1 (H p)). apply Hb.
      * intros p Hp. rewrite (proj1 (H p)). by apply Hl.
      * destruct (H 0) as [_ Hpc].
        destruct (main_start env (world s)).2; try done.
        subst. split; [lia|]. intros p _. rewrite (proj1 (H p)). apply Hc.
    + injection Hstep as <-.
      destruct (main_page_cursor env n (world s)) as [Hreq Hpc].
      destruct Hc as [Hn Hc].
      assert (∀ p, page_requests p (main_page env n (world s)).1
                   = page_requests p (world s)
                   ∨ (p = n ∧ (page_requests p (main_page env n (world s)).1
                               ≤ S MAX_RETRIES)%nat)) as Hcases.
      { intros p. rewrite Hreq. destruct (should_stop _); [by left|].
        destruct (fetch_hashes_page_requests env n (world s) p) as [Hne Hle].
        destruct (decide (p = n)) as [->|Hp]; [right|left; by apply Hne].
        split; [done|]. rewrite (Hc n) in Hle by lia. lia. }
      split; cbn [world main].
      * intros p. destruct (Hcases p) as [->|[_ ?]]; [apply Hb|done].
      * intros p Hp. destruct (Hcases p) as [->|[-> _]]; [by apply Hl|lia].
      * destruct (main_page env n (world s)).2; try done; subst.
        -- split; [lia|]. intros p Hp.
           destruct (Hcases p) as [->|[-> _]]; [apply Hc|]; lia.
        -- split; [lia|]. intros p Hp.
           destruct (Hcases p) as [->|[-> _]]; [apply Hc|]; lia.
    + injection Hstep as <-. by split.
    + injection Hstep as <-.
      pose proof (λ p, main_submit_requests env n entry rest futures s p) as H.
      split.
      * intros p. rewrite (proj1 (H p)). apply Hb.
      * intros p Hp. rewrite (proj1 (H p)). by apply Hl.
      * destruct (H 0) as [_ Hpc]. destruct Hc as [Hn Hc].
        destruct (main (main_submit env n entry rest futures s)); try done; subst;
          (split; [done|]); intros p Hp; rewrite (proj1 (H p)); by apply Hc.
    + destruct (forallb _ _); [|done]. injection Hstep as <-.
      unfold main_after_page. destruct Hc as [Hn Hc].
      destruct (should_stop _); [by split|].
      assert (∀ p, page_requests p (sleep 500 (world s)) = page_requests p (world s)) as H.
      { intros p. unfold page_requests. count_trace. }
      split; cbn [world main fst snd].
      * intros p. rewrite H. apply Hb.
      * intros p Hp. rewrite H. by apply Hl.
      * split; [lia|]. intros p Hp. rewrite H. apply Hc. lia.
    + injection Hstep as <-.
      assert (∀ p, page_requests p (main_report (world s)).1 = page_requests p (world s)) as H.
      { intros p. unfold page_requests, main_report. count_trace. }
      split; cbn [world main].
      * intros p. rewrite H. apply Hb.
      * intros p Hp. rewrite H. by apply Hl.
      * done.
  - unfold step_task in Hstep.
    assert (∀ w', (∀ p, page_requests p w' = page_requests p (world s)) →
                  ∀ ts, paging (mkState w' (main s) ts)) as Hsame.
    { intros w' H ts. split; cbn [world main].
      - intros p. rewrite H. apply Hb.
      - intros p Hp. rewrite H. by apply Hl.
      - destruct (main s); try done.
        + intros p. rewrite H. apply Hc.
        + destruct Hc as [Hn Hc]. split; [done|]. intros p Hp. rewrite H. by apply Hc.
        + destruct Hc as [Hn Hc]. split; [done|]. intros p Hp. rewrite H. by apply Hc.
        + destruct Hc as [Hn Hc]. split; [done|]. intros p Hp. rewrite H. by apply Hc. }
    destruct (tasks s !! i) as [[entry [|recorded|]]|] eqn:Hi; try done;
      injection Hstep as <-; apply Hsame; intros p.
    + apply (task_frame_count (requests_page p) _ _ _ ltac:(by intros [])
               (process_body_frame env entry (world s))).
    + destruct (process_finally_frame entry (world s)) as (_ & _ & _ & _ & evs & Ht & Ha).
      unfold page_requests. rewrite Ht, count_events_app.
      rewrite (count_events_none (requests_page p) is_sleep_or_log evs);
        [lia|by intros []|done].
Qed.

(** X16.  The feed pages are requested in increasing order from page 1,
    and no page is requested more than MAX_RETRIES + 1 times in a run: when the
    paginator is about to fetch page n, no page from n on has been requested
    yet; while the tasks of page n are submitted or awaited, no later page has
    been requested. *)
Theorem pages_are_requested_in_order (env : Env) (s : State) :
  reachable env s →
  (∀ p, (page_requests p (world s) ≤ S MAX_RETRIES)%nat)
  ∧ (∀ p, p < 1 → page_requests p (world s) = 0%nat)
  ∧ (∀ n, main s = PageLoop n →
       1 ≤ n ∧ ∀ p, n ≤ p → page_requests p (world s) = 0%nat)
  ∧ (∀ n todo futures,
       main s = Submitting n todo futures ∨ main s = Waiting n futures →
       1 ≤ n ∧ ∀ p, n < p → page_requests p (world s) = 0%nat).
Proof.
  intros [sched Hrun].
  assert (Hp : paging s).
  { refine (run_invariant env paging _ sched (init env) s _ Hrun).
    - intros l s0 s1. apply paging_step.
    - split; [intros p; apply Nat.le_0_l|by intros p _|by intros p]. }
  destruct Hp as [Hb Hl Hc].
  split; [done|]. split; [done|]. split.
  - intros n Hm. by rewrite Hm in Hc.
  - intros n todo futures [Hm|Hm]; by rewrite Hm in Hc.
Qed.

Lemma pages_are_requested_in_order_witness :
  page_requests 1 (world (state_after one_sample_env one_sample_full_sched)) = 1%nat
  ∧ (page_requests 3 (world (state_after one_sample_env one_sample_sched)) = 0)%nat.
Proof.
  destruct (pages_are_requested_in_order one_sample_env
              (state_after one_sample_env one_sample_sched)) as (_ & _ & _ & H).
  - exists one_sample_sched. vm_compute. reflexivity.
  - split; [vm_compute; reflexivity|].
    destruct (H 1 [] [0%nat]) as [_ H3]; [left; vm_compute; reflexivity|].
    apply H3. lia.
Defined.

(** ** What a line of the processed log stands for *)

Lemma download_failed_booked env name path attempt response w :
  booked (download_failed env name path attempt response w).1 = booked w.
Proof.
  unfold download_failed.
  set (w1 := log ERROR "Download error" w).
  assert (booked (if os_path_exists path w1
                  then match os_remove env path attempt w1 with
                       | Some w' => w'
                       | None => log ERROR "Error removing partial file" w1
                       end
                  else w1) = booked w) as H.
  { destruct (os_path_exists path w1); [|done].
    unfold os_remove.
    by destruct (remove_fails env path attempt); destruct (files w1 !! path). }
  revert H. generalize (if os_path_exists path w1
                        then match os_remove env path attempt w1 with
                             | Some w' => w'
                             | None => log ERROR "Error removing partial file" w1
                             end
                        else w1). intros w2 H.
  destruct (attempt <? MAX_RETRIES)%nat; [done|].
  destruct response as [status|]; [destruct (status =? 0)|]; done.
Qed.

Lemma status_only_skipped status s :
  skipped_existing_count (update_statistics (Some status) None None None None s)
  = skipped_existing_count s.
Proof. unfold update_statistics. by destruct (status =? 0). Qed.

Lemma size_only_skipped filepath size t s :
  skipped_existing_count
    (update_statistics None None (Some filepath) (Some size) (Some t) s)
  = skipped_existing_count s.
Proof.
  unfold update_statistics.
  destruct (truthy (Some filepath)); [by destruct (0 <? t)|].
  by rewrite bool_decide_eq_false_2.
Qed.

Lemma download_attempt_booked env url name path attempt response w :
  match (download_attempt env url name path attempt response w).2 with
  | Return r =>
      booked (download_attempt env url name path attempt response w).1
      = booked w + booked_by r
  | Retry _ => booked (download_attempt env url name path attempt response w).1 = booked w
  end.
Proof.
  assert (∀ r w', booked w' = booked w →
            match (download_failed env name path attempt r w').2 with
            | Return ok => booked (download_failed env name path attempt r w').1
                           = booked w + booked_by ok
            | Retry _ => booked (download_failed env name path attempt r w').1 = booked w
            end) as Hfail.
  { intros r w' Hw'.
    pose proof (download_failed_booked env name path attempt r w') as H.
    assert (match (download_failed env name path attempt r w').2 with
            | Return ok => ok = Ok false
            | Retry _ => True
            end) as Hres.
    { unfold download_failed. by destruct (attempt <? MAX_RETRIES)%nat. }
    destruct (download_failed env name path attempt r w') as [w'' [ok|r']]; simpl in *.
    - subst ok. simpl. lia.
    - lia. }
  unfold download_attempt.
  destruct url as [| | |url| |]; try by apply Hfail.
  destruct (file_reply env url attempt) as [|status body]; [by apply Hfail|].
  destruct (raises_for_status status).
  { apply Hfail. unfold booked. simpl. by rewrite status_only_skipped. }
  destruct (disk_faults env path attempt) as [| |size].
  2,3: unfold booked; simpl; rewrite status_only_skipped; lia.
  destruct (broken body).
  { apply Hfail. unfold booked. simpl. by rewrite status_only_skipped. }
  unfold booked. simpl. rewrite size_only_skipped, status_only_skipped. lia.
Qed.

Lemma download_file_booked env url name sha w :
  booked (download_file env url name sha w).1
  = booked w + booked_by (download_file env url name sha w).2.
Proof.
  unfold download_file. destruct (os_path_exists _ w).
  { unfold booked. simpl. lia. }
  apply (retry_loop_ind (λ w', booked w' = booked w)
           (λ w' (r : result bool), booked w' = booked w + booked_by r)).
  - intros attempt response w' Hw'.
    pose proof (download_attempt_booked env url name (download_path name sha)
                  attempt response w') as H.
    destruct (download_attempt _ _ _ _ _ _ w') as [w'' [ok|r]]; simpl in H; lia.
  - intros w' Hw'. simpl. lia.
  - done.
Qed.

(** X17.  The processed log and the counters agree on every task.  Whatever
    the replies, a task appends its hash to the processed log exactly when it
    counted the sample as downloaded or as already on disk: the number of lines
    it adds (none or one) is the amount by which downloaded_count plus
    skipped_existing_count grows.  A task that fails, finds no link or has no
    hash adds no line. *)
Theorem log_line_iff_sample_counted (env : Env) (entry : HashRecord) (w : World) :
  let w' := process_hash_entry env entry w in
  logged w' - logged w = booked w' - booked w
  ∧ 0 ≤ logged w' - logged w ≤ 1
  ∧ (logged w' = logged w + 1 →
     log_lines w' = Some (default [] (log_lines w) ++ [hash_of entry])%list
     ∧ failed_count (counters w') = failed_count (counters w)).
Proof.
  intros w'. subst w'. unfold process_hash_entry.
  assert (∀ w1, logged (process_finally entry w1) = logged w1
                ∧ booked (process_finally entry w1) = booked w1
                ∧ log_lines (process_finally entry w1) = log_lines w1
                ∧ failed_count (counters (process_finally entry w1))
                  = failed_count (counters w1)) as Hfin.
  { intros w1. unfold process_finally.
    destruct (truthy (sha256 entry)); [destruct (0 <? _)|]; done. }
  destruct (Hfin (process_body env entry w)) as (-> & -> & -> & ->). clear Hfin.
  unfold process_body. destruct (truthy (sha256 entry)) eqn:Ht; cbn [negb].
  2:{ unfold logged, booked. simpl. split; [lia|]. split; lia. }
  pose proof (get_download_link_quiet env (default "" (sha256 entry)) w)
    as [Hc _ _ Hl Hs _].
  destruct (get_download_link _ _ w) as [w1 [link|x]]; cbn [fst snd] in *.
  2:{ unfold logged, booked. simpl. rewrite Hc, Hl, Hs. split; [lia|]. split; lia. }
  destruct (py_truthy_opt link).
  2:{ unfold logged, booked. simpl. rewrite Hc, Hl, Hs. split; [lia|]. split; lia. }
  pose proof (download_file_booked env (default JNull link)
                (default "None" (derive_filename env entry)) (sha256 entry) w1) as Hb.
  pose proof (download_file_log_lines env (default JNull link)
                (default "None" (derive_filename env entry)) (sha256 entry) w1) as Hld.
  pose proof (download_file_post env (default JNull link)
                (default "None" (derive_filename env entry)) (sha256 entry) w1) as Hpost.
  destruct (download_file _ _ _ _ w1) as [w2 ok]; cbn [fst snd] in *.
  assert (booked w1 = booked w) as Hb1 by (unfold booked; by rewrite Hc, Hs).
  destruct ok as [[|]|x]; cbn [booked_by] in Hb.
  3:{ unfold logged. change (booked (log ?a ?b w2)) with (booked w2).
      unfold log, emit. cbn [log_lines]. rewrite Hld, Hl. split; [lia|]. split; lia. }
  - unfold logged, save_processed_hash. cbn [log_lines set_log_lines default].
    unfold id. rewrite length_app. cbn [length].
    change (booked (set_log_lines ?l w2)) with (booked w2).
    rewrite Hld, Hl. split; [lia|]. split; [lia|]. intros _. split; [done|].
    cbn [counters set_log_lines].
    destruct Hpost as [(_ & _ & _ & _ & Hf)|[_ [Hcc _]]]; [|rewrite Hcc]; congruence.
  - unfold logged. rewrite Hld, Hl. split; [lia|]. split; lia.
Qed.
